(** * Broadcast delivery engine: shallow embedding and verified properties

    The development embeds the broadcast delivery engine of the backend:

    - [queue/jobHandlers/audience.handler.ts]  (second document of the file:
      [classifyTelegramError], [updateProgress], [sendMessageToRecipient],
      [handleBroadcastJob]);
    - [services/broadcast/antiSpam.service.ts] ([AntiSpamService]);
    - [services/broadcast/broadcast.service.ts] ([getCampaign],
      [startCampaign], [updateCampaignStatus], [logBroadcastOutcome]);
    - [services/broadcast/progress.service.ts] ([saveBroadcastProgress],
      [readBroadcastProgress], [clearBroadcastProgress]);

    and, around it,

    - the helpers of the broadcast routes ([formatRecipient],
      [normalizeManualRecipients], [normalizeAttachments],
      [buildFallbackProgressSnapshot]);
    - [queue/jobHandlers/audience.handler.ts], first document
      ([persistSegmentTotals], [handleAudienceJob]);
    - [queue/jobHandlers/broadcast.handler.ts] (the queue's
      [handleBroadcastJob]);
    - [services/telegram/sessionManager.ts] ([sendCode], [verifyCode],
      [completePasswordSignIn], [extractAuthorizedUser],
      [safeDisconnect]).

    Asynchronous code is sequential here: every [await] is a call whose
    outcome (resolve or reject) is fixed by an environment [Env], and the
    effects on the database, on Redis, on the Bull job and on the Telegram
    client are threaded through a state-and-exception monad.  Strings are
    sequences of code units below 256.  Numbers are exact: counters are
    naturals, ratios rationals and delays reals, where the code has
    doubles. *)

From Stdlib Require Import String Ascii ZArith NArith QArith List Sorted Bool Lia.
From Stdlib Require Import Qround Reals Lra Qreals.
From stdpp Require Import base option gmap strings.

Local Open Scope string_scope.
Local Open Scope list_scope.

(* ===================================================================== *)
(** * Part I. The embedding                                               *)
(* ===================================================================== *)

(** ** JavaScript values, exceptions and the effect monad *)

Module Js.

(** A thrown value as the handlers inspect it: [err.errorMessage] (set by
    the Telegram client on RPC errors) and [err.message]. *)
Record JsError := mkError {
  errorMessage : option string;
  message : string;
}.

(** [new Error(msg)] *)
Definition Error (msg : string) : JsError :=
  {| errorMessage := None; message := msg |}.

(** [a || b] on a possibly undefined string: the empty string is falsy. *)
Definition orElse (a : option string) (b : string) : string :=
  match a with
  | Some EmptyString => b
  | Some s => s
  | None => b
  end.

(** Outcome of a call: it returns a value or throws. *)
Inductive Result (A : Type) : Type :=
| Return (a : A)
| Throw (e : JsError).
Arguments Return {A} a.
Arguments Throw {A} e.

(** Computations over a mutable state [S] that may throw.  The state
    reached when the exception is raised is kept, as in JavaScript. *)
Definition M (S A : Type) : Type := S -> Result A * S.

Definition ret {S A} (a : A) : M S A := fun s => (Return a, s).

Definition throw {S A} (e : JsError) : M S A := fun s => (Throw e, s).

Definition bind {S A B} (m : M S A) (k : A -> M S B) : M S B :=
  fun s =>
    match m s with
    | (Return a, s') => k a s'
    | (Throw e, s') => (Throw e, s')
    end.

(** [try { body } catch (e) { handler e }] *)
Definition try_catch {S A} (body : M S A) (handler : JsError -> M S A) : M S A :=
  fun s =>
    match body s with
    | (Return a, s') => (Return a, s')
    | (Throw e, s') => handler e s'
    end.

Definition get {S} : M S S := fun s => (Return s, s).

Definition modify {S} (f : S -> S) : M S unit := fun s => (Return tt, f s).

(** An awaited call that rejects with [e] when the environment says so. *)
Definition rejects {S} (fault : option JsError) : M S unit :=
  match fault with
  | Some e => throw e
  | None => ret tt
  end.

End Js.

Import Js.

Declare Scope js_scope.
Delimit Scope js_scope with js.
Notation "'let!' x ':=' m 'in' k" := (bind m (fun x => k))
  (at level 10, x name, m at level 100, k at level 200) : js_scope.
Notation "m ';;' k" := (bind m (fun _ => k))
  (at level 100, k at level 200, right associativity) : js_scope.

(** ** Strings: [includes], [startsWith] and the flood-wait pattern *)

Module Str.

(** [s.startsWith(p)] *)
Definition startsWith (s p : string) : bool := String.prefix p s.

(** [s.includes(needle)] *)
Fixpoint includes (s needle : string) {struct s} : bool :=
  String.prefix needle s ||
  match s with
  | EmptyString => false
  | String _ t => includes t needle
  end.

(** [\d] without the unicode flag: the ten ASCII digits. *)
Definition isDigit (c : ascii) : bool :=
  (48 <=? nat_of_ascii c)%nat && (nat_of_ascii c <=? 57)%nat.

(** The longest run of digits at the head of [s] (greedy [\d*]). *)
Fixpoint takeDigits (s : string) : string :=
  match s with
  | String c t => if isDigit c then String c (takeDigits t) else EmptyString
  | EmptyString => EmptyString
  end.

Fixpoint dropPrefix (p s : string) : option string :=
  match p, s with
  | EmptyString, _ => Some s
  | String a p', String b s' =>
      if Ascii.eqb a b then dropPrefix p' s' else None
  | String _ _, EmptyString => None
  end.

(** [/FLOOD_WAIT_(\d+)/] tried at the head of [s]: the captured digits. *)
Definition floodWaitAt (s : string) : option string :=
  match dropPrefix "FLOOD_WAIT_" s with
  | Some rest =>
      match takeDigits rest with
      | EmptyString => None
      | ds => Some ds
      end
  | None => None
  end.

(** [s.match(/FLOOD_WAIT_(\d+)/)]: group 1 of the leftmost match, or
    [None] for [null]. *)
Fixpoint matchFloodWait (s : string) : option string :=
  match floodWaitAt s with
  | Some ds => Some ds
  | None =>
      match s with
      | EmptyString => None
      | String _ t => matchFloodWait t
      end
  end.

Definition digitValue (c : ascii) : N := N.of_nat (nat_of_ascii c - 48).

Fixpoint parseDigits (acc : N) (ds : string) : N :=
  match ds with
  | EmptyString => acc
  | String c t => parseDigits (10 * acc + digitValue c)%N t
  end.

(** [parseInt(ds, 10)] on a non-empty string of digits (exact value; the
    rounding of a double beyond 2^53 is not modelled). *)
Definition parseInt (ds : string) : N := parseDigits 0%N ds.

End Str.

(** ** Error Classifier ([classifyTelegramError]) *)

Module Classifier.
Import Str.

Inductive TelegramErrorType :=
| PEER_ID_INVALID
| USER_RESTRICTED
| USER_IS_BOT
| FLOOD_WAIT
| SESSION_EXPIRED
| CHAT_WRITE_FORBIDDEN
| UNKNOWN.

Record ErrorClassification := mkClassification {
  type : TelegramErrorType;
  isPermanent : bool;
  isFloodWait : bool;
  floodWaitSeconds : option N;
}.

(** [err.errorMessage || err.message || ""] *)
Definition errorText (err : JsError) : string :=
  orElse (errorMessage err) (orElse (Some (message err)) "").

Definition classifyTelegramError (error : JsError) : ErrorClassification :=
  let errorMessage := errorText error in
  if includes errorMessage "FLOOD_WAIT" then
    let match_ := matchFloodWait errorMessage in
    {| type := FLOOD_WAIT;
       isPermanent := false;
       isFloodWait := true;
       floodWaitSeconds :=
         Some (match match_ with Some ds => parseInt ds | None => 30%N end) |}
  else if includes errorMessage "PEER_ID_INVALID" then
    {| type := PEER_ID_INVALID; isPermanent := true; isFloodWait := false;
       floodWaitSeconds := None |}
  else if includes errorMessage "USER_RESTRICTED" then
    {| type := USER_RESTRICTED; isPermanent := true; isFloodWait := false;
       floodWaitSeconds := None |}
  else if includes errorMessage "USER_IS_BOT" then
    {| type := USER_IS_BOT; isPermanent := true; isFloodWait := false;
       floodWaitSeconds := None |}
  else if includes errorMessage "SESSION_EXPIRED"
          || includes errorMessage "AUTH_KEY_UNREGISTERED" then
    {| type := SESSION_EXPIRED; isPermanent := false; isFloodWait := false;
       floodWaitSeconds := None |}
  else if includes errorMessage "CHAT_WRITE_FORBIDDEN" then
    {| type := CHAT_WRITE_FORBIDDEN; isPermanent := true; isFloodWait := false;
       floodWaitSeconds := None |}
  else
    {| type := UNKNOWN; isPermanent := false; isFloodWait := false;
       floodWaitSeconds := None |}.

(** The name of a kind, as interpolated in [`... ${classification.type}`]. *)
Definition typeName (t : TelegramErrorType) : string :=
  match t with
  | PEER_ID_INVALID => "PEER_ID_INVALID"
  | USER_RESTRICTED => "USER_RESTRICTED"
  | USER_IS_BOT => "USER_IS_BOT"
  | FLOOD_WAIT => "FLOOD_WAIT"
  | SESSION_EXPIRED => "SESSION_EXPIRED"
  | CHAT_WRITE_FORBIDDEN => "CHAT_WRITE_FORBIDDEN"
  | UNKNOWN => "UNKNOWN"
  end.

End Classifier.

(** ** Numbers *)

Module Num.

(** [Math.round(x)] on a rational: the nearest integer, ties towards
    plus infinity.  The code rounds a double: where the exact value is a
    tie or next to one, the double may fall on the other side and the
    result differ by one (23 / 40 * 100 is 57.49999999999999 there, and
    rounds to 57).  Where a statement depends on a rounded number it
    says where the number lies (bounds, order, within one of the exact
    value), or the value is one the doubles give as well (100 for [n] of
    [n]). *)
Definition Math_round (x : Q) : Z := Qfloor (x + (1 # 2)).

(** [Math.round(x)] on a real. *)
Definition Math_round_R (x : R) : Z := Zfloor (x + / 2)%R.

(** A count as a JavaScript number. *)
Definition num (n : nat) : Q := inject_Z (Z.of_nat n).

(** [a > b] *)
Definition Qgtb (a b : Q) : bool := negb (Qle_bool a b).

End Num.

(** ** Pacing Controller ([AntiSpamService]) *)

Module AntiSpam.
Import Num.

Definition BASE_DELAY_MS : R := 500.
Definition MAX_DELAY_MS : Z := 5000.
Definition JITTER_PERCENT : R := 2 / 10.
Definition BACKOFF_MULTIPLIER : R := 15 / 10.

(** The object: its [config.accountAge] and its two private counters. *)
Record AntiSpamService := mkAntiSpam {
  accountAge : option Z;
  failureCount : nat;
  successCount : nat;
}.

(** [new AntiSpamService({ accountAge })] *)
Definition new (age : option Z) : AntiSpamService :=
  {| accountAge := age; failureCount := 0; successCount := 0 |}.

Definition getBaseDelay (this : AntiSpamService) : R :=
  let accountAge := match accountAge this with Some a => a | None => 0%Z end in
  if (accountAge =? 0)%Z then (BASE_DELAY_MS * 2)%R
  else if (accountAge <? 7)%Z then (BASE_DELAY_MS * (15 / 10))%R
  else BASE_DELAY_MS.

(** [successCount + failureCount > 0 ? failureCount / (...) : 0] *)
Definition failureRate (this : AntiSpamService) : Q :=
  if (0 <? successCount this + failureCount this)%nat
  then num (failureCount this) / num (successCount this + failureCount this)
  else 0.

(** [calculateDelay(isFloodWait)], over the reals; [random] is the value
    drawn by [Math.random()]. *)
Definition calculateDelay (this : AntiSpamService) (isFloodWait : bool)
    (random : R) : Z :=
  let base := getBaseDelay this in
  let failureRate := Q2R (failureRate this) in
  let backoffFactor := Rpower BACKOFF_MULTIPLIER (Rmax 0 failureRate) in
  let delay := (base * backoffFactor)%R in
  let delay := if isFloodWait then (delay * 3)%R else delay in
  let jitterAmount := (delay * JITTER_PERCENT)%R in
  let randomJitter := ((random - 5 / 10) * 2 * jitterAmount)%R in
  let delay := (delay + randomJitter)%R in
  Z.min (Z.max (Math_round_R delay) 0) MAX_DELAY_MS.

Definition recordSuccess (this : AntiSpamService) : AntiSpamService :=
  {| accountAge := accountAge this;
     failureCount := failureCount this;
     successCount := successCount this + 1 |}.

Definition recordFailure (this : AntiSpamService) : AntiSpamService :=
  {| accountAge := accountAge this;
     failureCount := failureCount this + 1;
     successCount := successCount this |}.

End AntiSpam.

(** ** Data model *)

Module CampaignStatus.
Inductive t := draft | scheduled | in_progress | completed | failed.
End CampaignStatus.

Module LogStatus.
Inductive t := sent | failed | skipped.
End LogStatus.

Module ProgressStatus.
Inductive t := initializing | sending | completed | failed.
End ProgressStatus.

(** A value of the campaign metadata bag (a JSON object). *)
Inductive MetaValue :=
| JNull
| JNumber (q : Q)
| JString (s : string).

(** A row of [broadcast_campaigns]: the columns the engine decides,
    [status], [last_sent_at] and [metadata].  [updated_at], which every
    [UPDATE] sets to [NOW()], and the columns no statement of the engine
    writes are left out. *)
Module Campaign.
Record t := mk {
  status : CampaignStatus.t;
  lastSentAt : option Z;
  metadata : gmap string MetaValue;
}.
End Campaign.

(** A row of [broadcast_logs]. *)
Module Log.
Record t := mk {
  campaignId : string;
  userId : string;
  recipient : string;
  status : LogStatus.t;
  errorMessage : option string;
  metadata : gmap string MetaValue;
}.
End Log.

(** [BroadcastProgressSnapshot] *)
Module Snapshot.
Record t := mk {
  campaignId : string;
  status : ProgressStatus.t;
  progress : Z;
  processed : nat;
  total : nat;
  sent : nat;
  failed : nat;
  skipped : nat;
  error : option string;
  updated_at : string;
}.
End Snapshot.

(** What the Telegram client and the timers are asked to do, in order.
    [EvPacingDelay svc] is the [setTimeout] of [calculateDelay()] computed
    in the pacing state [svc]; [EvFloodSleep ms] is the flood-wait sleep. *)
Inductive Event :=
| EvConnect
| EvDisconnect
| EvGetInputEntity (recipient : string)
| EvSendMessage (recipient text : string)
| EvPacingDelay (svc : AntiSpam.AntiSpamService)
| EvFloodSleep (ms : Z).

(** The mutable world around one job.  [progress_writes] lists every
    snapshot handed to Redis and [job_progress] every value reported to the
    Bull job, oldest first. *)
Record World := mkWorld {
  broadcast_campaigns : gmap string Campaign.t;
  broadcast_logs : list Log.t;
  redis : gmap string (Z * string);
  job_progress : list Z;
  progress_writes : list Snapshot.t;
  events : list Event;
}.

(** Where in [handleBroadcastJob] a helper is called from. *)
Inductive Site :=
| Initializing
| SendingStart
| Recipient (i : nat)
| Terminal
| Catch.

(** The awaited calls that can reject.  The index of a per-recipient call
    is the value of [processed] in its iteration (1 for the first one). *)
Inductive Call :=
| CallStartCampaign
| CallJobProgress (site : Site)
| CallRedisSetEx (site : Site)
| CallRedisGet
| CallRedisDel
| CallRestoreSession
| CallConnect
| CallGetInputEntity (i : nat)
| CallSendMessage (i : nat)
| CallLogOutcome (i : nat) (status : LogStatus.t)
| CallDisconnect
| CallSelectMetadata (site : Site)
| CallUpdateCampaign (site : Site).

(** [RestoredTelegramSession] *)
Record RestoredTelegramSession := mkSession {
  sessionString : string;
  lastUsedAt : option Z;
}.

(** Everything the run does not decide itself: which awaited calls reject
    (and with what), the stored Telegram session, the clock and the
    runtime's conversions. *)
Record Env := mkEnv {
  fault : Call -> option JsError;
  storedSession : option RestoredTelegramSession;
  Date_now : Z;
  toISOString : Z -> string;
  JSON_stringify : Snapshot.t -> string;
  JSON_parse : string -> Result Snapshot.t;
  numberToString : Q -> string;
}.

Module WorldOps.

Definition set_campaigns (f : gmap string Campaign.t -> gmap string Campaign.t)
    (w : World) : World :=
  mkWorld (f (broadcast_campaigns w)) (broadcast_logs w) (redis w)
          (job_progress w) (progress_writes w) (events w).

Definition add_log (l : Log.t) (w : World) : World :=
  mkWorld (broadcast_campaigns w) (broadcast_logs w ++ [l]) (redis w)
          (job_progress w) (progress_writes w) (events w).

Definition set_redis (f : gmap string (Z * string) -> gmap string (Z * string))
    (w : World) : World :=
  mkWorld (broadcast_campaigns w) (broadcast_logs w) (f (redis w))
          (job_progress w) (progress_writes w) (events w).

Definition add_job_progress (p : Z) (w : World) : World :=
  mkWorld (broadcast_campaigns w) (broadcast_logs w) (redis w)
          (job_progress w ++ [p]) (progress_writes w) (events w).

Definition add_progress_write (s : Snapshot.t) (w : World) : World :=
  mkWorld (broadcast_campaigns w) (broadcast_logs w) (redis w)
          (job_progress w) (progress_writes w ++ [s]) (events w).

Definition add_event (e : Event) (w : World) : World :=
  mkWorld (broadcast_campaigns w) (broadcast_logs w) (redis w)
          (job_progress w) (progress_writes w) (events w ++ [e]).

Definition emit (e : Event) : M World unit := modify (add_event e).

End WorldOps.

(** ** Campaign store ([broadcast.service.ts]) *)

Module Broadcast.
Import WorldOps.
Local Open Scope js_scope.

Record UpdateCampaignStatusInput := mkUpdate {
  u_campaignId : string;
  u_status : CampaignStatus.t;
  u_lastSentAt : option Z;
  u_metadata : option (gmap string MetaValue);
}.

Definition NotFoundError (msg : string) : JsError := Js.Error msg.

Definition startCampaign (env : Env) (campaignId : string) : M World Campaign.t :=
  rejects (fault env CallStartCampaign) ;;
  let! w := get in
  match broadcast_campaigns w !! campaignId with
  | Some row =>
      let row' := Campaign.mk CampaignStatus.in_progress
                    (Campaign.lastSentAt row) (Campaign.metadata row) in
      modify (set_campaigns <[campaignId := row']>) ;;
      ret row'
  | None => throw (NotFoundError ("Campaign " +:+ campaignId +:+ " not found"))
  end.

(** [{ ...existing, ...patch }]: the keys of [patch] win. *)
Definition spread (existing patch : gmap string MetaValue) : gmap string MetaValue :=
  patch ∪ existing.

(** [site] only names the two queries for the environment. *)
Definition updateCampaignStatus (env : Env) (site : Site)
    (input : UpdateCampaignStatusInput) : M World Campaign.t :=
  let campaignId := u_campaignId input in
  let! metadataValue :=
    match u_metadata input with
    | Some metadata =>
        rejects (fault env (CallSelectMetadata site)) ;;
        let! w := get in
        match broadcast_campaigns w !! campaignId with
        | Some existing => ret (spread (Campaign.metadata existing) metadata)
        | None => ret metadata
        end
    | None => ret ∅
    end in
  rejects (fault env (CallUpdateCampaign site)) ;;
  let! w := get in
  match broadcast_campaigns w !! campaignId with
  | Some row =>
      let row' :=
        Campaign.mk (u_status input)
          (match u_lastSentAt input with
           | Some d => Some d
           | None => Campaign.lastSentAt row
           end)
          metadataValue in
      modify (set_campaigns <[campaignId := row']>) ;;
      ret row'
  | None => throw (NotFoundError ("Campaign " +:+ campaignId +:+ " not found"))
  end.

(** [i] only names the insert for the environment. *)
Definition logBroadcastOutcome (env : Env) (i : nat) (input : Log.t) : M World Log.t :=
  rejects (fault env (CallLogOutcome i (Log.status input))) ;;
  modify (add_log input) ;;
  ret input.

End Broadcast.

(** ** Progress Reporter ([progress.service.ts]) *)

Module Progress.
Import WorldOps.
Local Open Scope js_scope.

Definition PROGRESS_KEY_PREFIX : string := "broadcast:progress".
Definition PROGRESS_TTL_SECONDS : Z := 60 * 60 * 24.

Definition buildKey (campaignId : string) : string :=
  PROGRESS_KEY_PREFIX +:+ ":" +:+ campaignId.

(** [withRedisClient(executor)]: the client is acquired, the command is
    run and the client is released; [call] names the call for the
    environment, which makes the whole step reject or not. *)
Definition withRedisClient {A} (env : Env) (call : Call)
    (executor : M World A) : M World A :=
  rejects (fault env call) ;; executor.

(** The snapshot argument: every field but [updated_at], which is
    optional. *)
Definition saveBroadcastProgress (env : Env) (site : Site)
    (campaignId : string) (snapshot : Snapshot.t)
    (updated_at : option string) : M World Snapshot.t :=
  let payload :=
    Snapshot.mk campaignId (Snapshot.status snapshot)
      (Snapshot.progress snapshot) (Snapshot.processed snapshot)
      (Snapshot.total snapshot) (Snapshot.sent snapshot)
      (Snapshot.failed snapshot) (Snapshot.skipped snapshot)
      (Snapshot.error snapshot)
      (match updated_at with
       | Some u => u
       | None => toISOString env (Date_now env)
       end) in
  modify (add_progress_write payload) ;;
  try_catch
    (withRedisClient env (CallRedisSetEx site)
       (modify (set_redis
          <[buildKey campaignId
            := (PROGRESS_TTL_SECONDS, JSON_stringify env payload)]>)))
    (fun error => ret tt) ;;
  ret payload.

Definition readBroadcastProgress (env : Env)
    (campaignId : string) : M World (option Snapshot.t) :=
  try_catch
    (let! raw :=
       withRedisClient env CallRedisGet
         (let! w := get in ret (redis w !! buildKey campaignId)) in
     match raw with
     | None => ret None
     | Some (_, EmptyString) => ret None
     | Some (_, raw) =>
         match JSON_parse env raw with
         | Return s => ret (Some s)
         | Throw e => throw e
         end
     end)
    (fun error => ret None).

Definition clearBroadcastProgress (env : Env) (campaignId : string) : M World unit :=
  try_catch
    (withRedisClient env CallRedisDel
       (modify (set_redis (delete (buildKey campaignId)))))
    (fun error => ret tt).

End Progress.

(** ** Delivery Loop ([handleBroadcastJob]) *)

Module Handler.
Import Str WorldOps Num Classifier Broadcast Progress.
Local Open Scope js_scope.

(** [job.data] *)
Record BroadcastJob := mkJob {
  campaignId : string;
  userId : string;
  recipients : list string;
  text : string;
  attachments : option (list string);
}.

(** The value [handleBroadcastJob] resolves to. *)
Record JobResult := mkResult {
  r_campaignId : string;
  r_sent : nat;
  r_failed : nat;
  r_skipped : nat;
  r_success : bool;
}.

(** The [let] variables of the sending phase and the pacing object. *)
Record Frame := mkFrame {
  processed : nat;
  sent : nat;
  failed : nat;
  skipped : nat;
  shouldRetry : bool;
  antiSpam : AntiSpam.AntiSpamService;
}.

Definition incr_processed (f : Frame) : Frame :=
  mkFrame (processed f + 1) (sent f) (failed f) (skipped f) (shouldRetry f) (antiSpam f).
Definition incr_sent (f : Frame) : Frame :=
  mkFrame (processed f) (sent f + 1) (failed f) (skipped f) (shouldRetry f) (antiSpam f).
Definition incr_failed (f : Frame) : Frame :=
  mkFrame (processed f) (sent f) (failed f + 1) (skipped f) (shouldRetry f) (antiSpam f).
Definition incr_skipped (f : Frame) : Frame :=
  mkFrame (processed f) (sent f) (failed f) (skipped f + 1) (shouldRetry f) (antiSpam f).
Definition set_shouldRetry (f : Frame) : Frame :=
  mkFrame (processed f) (sent f) (failed f) (skipped f) true (antiSpam f).
Definition on_antiSpam (g : AntiSpam.AntiSpamService -> AntiSpam.AntiSpamService)
    (f : Frame) : Frame :=
  mkFrame (processed f) (sent f) (failed f) (skipped f) (shouldRetry f) (g (antiSpam f)).

(** Code that sees the local variables runs over [Frame * World]. *)
Definition Local_ (A : Type) : Type := M (Frame * World) A.

Definition liftW {A} (m : M World A) : Local_ A :=
  fun '(f, w) => let '(r, w') := m w in (r, (f, w')).

Definition getF : Local_ Frame := fun '(f, w) => (Return f, (f, w)).

Definition modifyF (g : Frame -> Frame) : Local_ unit :=
  fun '(f, w) => (Return tt, (g f, w)).

(** A block that declares the locals [f0]; they die with the block. *)
Definition withLocals {A} (f0 : Frame) (m : Local_ A) : M World A :=
  fun w => let '(r, (_, w')) := m (f0, w) in (r, w').

(** [for (const x of xs) body(x)] *)
Fixpoint forOf {S} (xs : list string) (body : string -> M S unit) : M S unit :=
  match xs with
  | [] => ret tt
  | x :: rest => body x ;; forOf rest body
  end.

Definition jobProgress (env : Env) (site : Site) (progress : Z) : M World unit :=
  rejects (fault env (CallJobProgress site)) ;;
  modify (add_job_progress progress).

(** [updateProgress(job, campaignId, status, processed, total, sent, failed,
    skipped, error)]; the snapshot is passed without [updated_at]. *)
Definition updateProgress (env : Env) (site : Site) (campaignId : string)
    (status : ProgressStatus.t) (processed total sent failed skipped : nat)
    (error : option string) : M World unit :=
  let progress :=
    if (0 <? total)%nat then Math_round (num processed / num total * 100) else 0%Z in
  jobProgress env site progress ;;
  saveBroadcastProgress env site campaignId
    (Snapshot.mk campaignId status progress processed total sent failed skipped
       error EmptyString)
    None ;;
  ret tt.

(** [i] only names the two client calls for the environment. *)
Definition sendMessageToRecipient (env : Env) (i : nat)
    (recipient text : string) : M World unit :=
  try_catch
    ((if startsWith recipient "@"
      then rejects (fault env (CallGetInputEntity i)) ;;
           emit (EvGetInputEntity recipient)
      else ret tt) ;;
     rejects (fault env (CallSendMessage i)) ;;
     emit (EvSendMessage recipient text))
    (fun err =>
       throw (Js.Error ("Failed to send message to " +:+ recipient +:+ ": "
                        +:+ message err))).

Definition errorTypeMetadata (c : ErrorClassification) : gmap string MetaValue :=
  {[ "errorType" := JString (typeName (type c)) ]}.

(** [isFloodWait && floodWaitSeconds] as a condition: zero is falsy. *)
Definition mustSleep (c : ErrorClassification) : option Z :=
  if isFloodWait c then
    match floodWaitSeconds c with
    | Some 0%N => None
    | Some secs => Some (Z.of_N secs * 1000)%Z
    | None => None
    end
  else None.

(** The [catch] of the per-recipient [try]. *)
Definition onSendError (env : Env) (job : BroadcastJob) (recipient : string)
    (i : nat) (error : JsError) : Local_ unit :=
  let classification := classifyTelegramError error in
  if isPermanent classification then
    modifyF incr_skipped ;;
    liftW (logBroadcastOutcome env i
             (Log.mk (campaignId job) (userId job) recipient LogStatus.skipped
                (Some ("Permanent error: " +:+ typeName (type classification)))
                (errorTypeMetadata classification))) ;;
    ret tt
  else
    modifyF incr_failed ;;
    modifyF set_shouldRetry ;;
    liftW (logBroadcastOutcome env i
             (Log.mk (campaignId job) (userId job) recipient LogStatus.failed
                (Some ("Retryable error: " +:+ typeName (type classification)))
                (errorTypeMetadata classification))) ;;
    modifyF (on_antiSpam AntiSpam.recordFailure) ;;
    match mustSleep classification with
    | Some waitTime => liftW (emit (EvFloodSleep waitTime))
    | None => ret tt
    end.

(** One turn of the [for] loop. *)
Definition iteration (env : Env) (job : BroadcastJob) (recipient : string)
    : Local_ unit :=
  modifyF incr_processed ;;
  let! i := (let! f := getF in ret (processed f)) in
  try_catch
    (let! f := getF in
     liftW (emit (EvPacingDelay (antiSpam f))) ;;
     liftW (sendMessageToRecipient env i recipient (text job)) ;;
     modifyF (on_antiSpam AntiSpam.recordSuccess) ;;
     modifyF incr_sent ;;
     liftW (logBroadcastOutcome env i
              (Log.mk (campaignId job) (userId job) recipient LogStatus.sent
                 None ∅)) ;;
     ret tt)
    (onSendError env job recipient i) ;;
  let! f := getF in
  liftW (updateProgress env (Recipient i) (campaignId job) ProgressStatus.sending
           (processed f) (length (recipients job))
           (sent f) (failed f) (skipped f) None).

Definition failureThreshold : Q := 5 # 10.

(** [sent + failed > 0 ? failed / (sent + failed) : 0] *)
Definition failureRate (sent failed : nat) : Q :=
  if (0 <? sent + failed)%nat then num failed / num (sent + failed) else 0.

(** After the loop: disconnect and decide the campaign's fate. *)
Definition terminalDecision (env : Env) (job : BroadcastJob) : Local_ JobResult :=
  let n := length (recipients job) in
  liftW (rejects (fault env CallDisconnect) ;; emit EvDisconnect) ;;
  let! f := getF in
  let failureRate := failureRate (sent f) (failed f) in
  if Qgtb failureRate failureThreshold then
    liftW (updateCampaignStatus env Terminal
             (mkUpdate (campaignId job) CampaignStatus.failed (Some (Date_now env))
                (Some ({[ "sent" := JNumber (num (sent f));
                          "failed" := JNumber (num (failed f));
                          "skipped" := JNumber (num (skipped f));
                          "failureRate" :=
                            JNumber (inject_Z (Math_round (failureRate * 100)));
                          "error" :=
                            JString "High failure rate threshold exceeded" ]})))) ;;
    liftW (updateProgress env Terminal (campaignId job) ProgressStatus.failed
             n n (sent f) (failed f) (skipped f)
             (Some ("Failed: " +:+ numberToString env (failureRate * 100)
                    +:+ "% failure rate"))) ;;
    (if shouldRetry f
     then throw (Js.Error "Broadcast failed with retryable errors; will retry")
     else ret tt) ;;
    ret (mkResult (campaignId job) (sent f) (failed f) (skipped f) false)
  else
    liftW (updateCampaignStatus env Terminal
             (mkUpdate (campaignId job) CampaignStatus.completed (Some (Date_now env))
                (Some ({[ "sent" := JNumber (num (sent f));
                          "failed" := JNumber (num (failed f));
                          "skipped" := JNumber (num (skipped f));
                          "totalRecipients" := JNumber (num n) ]})))) ;;
    liftW (updateProgress env Terminal (campaignId job) ProgressStatus.completed
             n n (sent f) (failed f) (skipped f) None) ;;
    liftW (clearBroadcastProgress env (campaignId job)) ;;
    ret (mkResult (campaignId job) (sent f) (failed f) (skipped f) true).

(** [sessionData.lastUsedAt ? Math.floor((Date.now() - t) / 86400000) : 0] *)
Definition accountAgeOf (env : Env) (sessionData : RestoredTelegramSession) : Z :=
  match lastUsedAt sessionData with
  | Some t => ((Date_now env - t) / (1000 * 60 * 60 * 24))%Z
  | None => 0%Z
  end.

(** [new TelegramSessionManager().restoreSession(userId)]: the constructor
    or the query may throw, else the active session row, if any, comes
    back. *)
Definition restoreSession (env : Env) : M World (option RestoredTelegramSession) :=
  rejects (fault env CallRestoreSession) ;;
  ret (storedSession env).

(** The first statements of the outer [try], up to the connected client:
    the campaign is started, the initial snapshot written, the session
    restored and the client connected. *)
Definition prologue (env : Env) (job : BroadcastJob)
    : M World RestoredTelegramSession :=
  startCampaign env (campaignId job) ;;
  updateProgress env Initializing (campaignId job) ProgressStatus.initializing
    0 (length (recipients job)) 0 0 0 None ;;
  let! sessionData := restoreSession env in
  match sessionData with
  | None => throw (Js.Error "No Telegram session found for user")
  | Some sessionData =>
      rejects (fault env CallConnect) ;;
      emit EvConnect ;;
      ret sessionData
  end.

(** The locals as declared: the counters at zero and a fresh pacing
    object. *)
Definition initialFrame (env : Env) (sessionData : RestoredTelegramSession) : Frame :=
  mkFrame 0 0 0 0 false (AntiSpam.new (Some (accountAgeOf env sessionData))).

(** The first [sending] snapshot and the [for] loop. *)
Definition sendLoop (env : Env) (job : BroadcastJob) : Local_ unit :=
  let! f := getF in
  liftW (updateProgress env SendingStart (campaignId job) ProgressStatus.sending
           0 (length (recipients job)) (sent f) (failed f) (skipped f) None) ;;
  forOf (recipients job) (iteration env job).

(** The body of the outer [try]. *)
Definition tryBody (env : Env) (job : BroadcastJob) : M World JobResult :=
  let! sessionData := prologue env job in
  withLocals (initialFrame env sessionData)
    (sendLoop env job ;; terminalDecision env job).

(** The outer [catch]. *)
Definition onJobError (env : Env) (job : BroadcastJob) (error : JsError)
    : M World JobResult :=
  let n := length (recipients job) in
  updateCampaignStatus env Catch
    (mkUpdate (campaignId job) CampaignStatus.failed None
       (Some {[ "error" := JString (message error) ]})) ;;
  updateProgress env Catch (campaignId job) ProgressStatus.failed
    n n 0 0 n (Some (message error)) ;;
  throw error.

Definition handleBroadcastJob (env : Env) (job : BroadcastJob) : M World JobResult :=
  try_catch (tryBody env job) (onJobError env job).

End Handler.

(** ** The rest of the services, the route helpers, the other job handlers
    and the sign-in *)

Module PacingStats.
Import Num AntiSpam.

(** The object [getStats()] returns. *)
Record Stats := mkStats {
  s_successCount : nat;
  s_failureCount : nat;
  s_failureRate : Q;
}.

Definition getStats (this : AntiSpamService) : Stats :=
  {| s_successCount := successCount this;
     s_failureCount := failureCount this;
     s_failureRate :=
       if (0 <? successCount this + failureCount this)%nat
       then num (failureCount this) / num (successCount this + failureCount this)
       else 0 |}.

Definition reset (this : AntiSpamService) : AntiSpamService :=
  {| accountAge := accountAge this; failureCount := 0; successCount := 0 |}.

(** A sequence of [recordSuccess()] ([true]) and [recordFailure()]
    ([false]) calls on the object. *)
Definition record (outcomes : list bool) (this : AntiSpamService) : AntiSpamService :=
  fold_left (fun (svc : AntiSpamService) (ok : bool) =>
               if ok then recordSuccess svc else recordFailure svc)
    outcomes this.

End PacingStats.

Module BroadcastQueries.
Import WorldOps Broadcast.
Local Open Scope js_scope.

(** [getCampaign(campaignId)]; [query] tells whether the SELECT rejects. *)
Definition getCampaign (query : option JsError) (campaignId : string)
    : M World Campaign.t :=
  rejects query ;;
  let! w := get in
  match broadcast_campaigns w !! campaignId with
  | Some row => ret row
  | None => throw (NotFoundError ("Campaign " +:+ campaignId +:+ " not found"))
  end.

End BroadcastQueries.

Module Routes.
Import Str.
Local Open Scope js_scope.

Definition MAX_MANUAL_RECIPIENTS : nat := 1000.
Definition MAX_ATTACHMENTS : nat := 5.

(** Strings hold code units below 256.  Among those, the white space and
    line terminators that [trim] strips are TAB, LF, VT, FF, CR, SP and
    NBSP. *)
Definition isWhiteSpace (c : ascii) : bool :=
  let n := nat_of_ascii c in
  ((9 <=? n)%nat && (n <=? 13)%nat) || (n =? 32)%nat || (n =? 160)%nat.

Fixpoint trimStart (s : string) : string :=
  match s with
  | String c t => if isWhiteSpace c then trimStart t else s
  | EmptyString => EmptyString
  end.

Fixpoint trimEnd (s : string) : string :=
  match s with
  | String c t =>
      match trimEnd t with
      | EmptyString => if isWhiteSpace c then EmptyString else String c EmptyString
      | t' => String c t'
      end
  | EmptyString => EmptyString
  end.

(** [s.trim()] *)
Definition trim (s : string) : string := trimEnd (trimStart s).

Fixpoint allDigits (s : string) : bool :=
  match s with
  | String c t => isDigit c && allDigits t
  | EmptyString => true
  end.

(** [/^\d+$/.test(s)] *)
Definition isNumeric (s : string) : bool :=
  match s with
  | EmptyString => false
  | _ => allDigits s
  end.

(** [s.replace(/^@+/, "")] *)
Fixpoint dropAts (s : string) : string :=
  match s with
  | String c t => if Ascii.eqb c "@" then dropAts t else s
  | EmptyString => EmptyString
  end.

Definition formatRecipient (raw : string) : option string :=
  let trimmed := trim raw in
  match trimmed with
  | EmptyString => None
  | _ =>
      if isNumeric trimmed then Some trimmed
      else
        let normalized := trim (dropAts trimmed) in
        match normalized with
        | EmptyString => None
        | _ => Some ("@" +:+ normalized)
        end
  end.

Definition ValidationError (msg : string) : JsError := Js.Error msg.

(** The two locals of the normalising loops: the array built and the set
    of the strings already in it. *)
Record Acc := mkAcc {
  collected : list string;
  seen : gset string;
}.

(** The body of both loops: [format] the entry, skip it when nothing is
    left or when it was seen, else keep it, and fail beyond [max]. *)
Definition collect (format : string -> option string) (max : nat)
    (tooMany : string) (raw : string) : M Acc unit :=
  match format raw with
  | None => ret tt
  | Some formatted =>
      let! acc := get in
      if bool_decide (formatted ∈ seen acc) then ret tt
      else
        modify (fun acc => mkAcc (collected acc ++ [formatted])
                                 ({[ formatted ]} ∪ seen acc)) ;;
        let! acc := get in
        if (max <? length (collected acc))%nat
        then throw (ValidationError tooMany)
        else ret tt
  end.

Definition normalizeManualRecipients (input : option (list string))
    : Result (option (list string)) :=
  match input with
  | None => Return None
  | Some input =>
      match Handler.forOf input
              (collect formatRecipient MAX_MANUAL_RECIPIENTS
                 "Recipients limit of 1000 exceeded") (mkAcc [] ∅) with
      | (Return _, acc) =>
          Return (match collected acc with [] => None | l => Some l end)
      | (Throw e, _) => Throw e
      end
  end.

Definition trimmedOrNone (raw : string) : option string :=
  match trim raw with
  | EmptyString => None
  | trimmed => Some trimmed
  end.

Definition normalizeAttachments (input : option (list string))
    : Result (option (list string)) :=
  match input with
  | None => Return None
  | Some input =>
      match Handler.forOf input
              (collect trimmedOrNone MAX_ATTACHMENTS
                 "Attachments limit of 5 exceeded") (mkAcc [] ∅) with
      | (Return _, acc) =>
          Return (match collected acc with [] => None | l => Some l end)
      | (Throw e, _) => Throw e
      end
  end.

Inductive CampaignSource := segment | manual.

(** [CampaignMetadataSummary]: what [parseCampaignMetadata] read from the
    metadata bag; its numbers are arbitrary finite numbers. *)
Record CampaignMetadataSummary := mkSummary {
  source : option CampaignSource;
  totalRecipients : option Q;
  manualRecipients : option (list string);
  attachments : option (list string);
  jobId : option string;
  retryCount : Q;
  sent : Q;
  failed : Q;
  skipped : Q;
  error : option string;
}.

(** The columns of [BroadcastCampaign] the fallback uses. *)
Record CampaignView := mkView {
  id : string;
  status : CampaignStatus.t;
  updatedAt : Z;
}.

(** A [BroadcastProgressSnapshot] whose counters are such numbers. *)
Record FallbackSnapshot := mkFallback {
  f_campaignId : string;
  f_status : ProgressStatus.t;
  f_progress : Z;
  f_processed : Q;
  f_total : Q;
  f_sent : Q;
  f_failed : Q;
  f_skipped : Q;
  f_error : option string;
  f_updated_at : string;
}.

(** [Math.min(a, b)] *)
Definition Math_min (a b : Q) : Q := if Qle_bool a b then a else b.

Definition buildFallbackProgressSnapshot (toISOString : Z -> string)
    (campaign : CampaignView) (metadata : CampaignMetadataSummary)
    : FallbackSnapshot :=
  let total :=
    match totalRecipients metadata with
    | Some t => t
    | None =>
        match manualRecipients metadata with
        | Some l => Num.num (length l)
        | None => 0%Q
        end
    end in
  let sent := sent metadata in
  let failed := failed metadata in
  let skipped := skipped metadata in
  let processed := Math_min total (sent + failed + skipped) in
  let status :=
    match status campaign with
    | CampaignStatus.in_progress => ProgressStatus.sending
    | CampaignStatus.completed => ProgressStatus.completed
    | CampaignStatus.failed => ProgressStatus.failed
    | _ => ProgressStatus.initializing
    end in
  let baseProgress :=
    if Num.Qgtb total 0%Q
    then Z.min 100 (Num.Math_round (processed / total * 100))
    else 0%Z in
  let progress :=
    match status with
    | ProgressStatus.completed | ProgressStatus.failed => 100%Z
    | _ => baseProgress
    end in
  mkFallback (id campaign) status progress processed total sent failed skipped
    (error metadata) (toISOString (updatedAt campaign)).

End Routes.

(** ** Audience segment job ([handleAudienceJob], first document of
    [audience.handler.ts]) *)

Module AudienceJob.
Local Open Scope js_scope.

(** A row of [audience_segments]: the columns the job reads or writes. *)
Record SegmentRow := mkSegment {
  user_id : string;
  source_parsing_id : option string;
  total_recipients : option nat;
  status : option string;
}.

(** The segments table and the values reported to the Bull job. *)
Record AudienceWorld := mkAudienceWorld {
  audience_segments : gmap string SegmentRow;
  progress_calls : list Z;
}.

Inductive AudienceSite := InTry | InCatch.

(** The awaited calls of the job. *)
Inductive AudienceCall :=
| CallProgress (p : Z)
| CallGetSegment
| CallCalculateTotal
| CallPersist (site : AudienceSite)
| CallInvalidateCache.

(** Which calls reject, and the count that [calculateTotalRecipients]
    finds for the segment's source and filters. *)
Record AudienceEnv := mkAudienceEnv {
  a_fault : AudienceCall -> option JsError;
  countedRecipients : nat;
}.

(** [job.data] *)
Record AudienceSegmentJob := mkAudienceJob {
  segmentId : string;
  userId : string;
}.

Record AudienceResult := mkAudienceResult {
  r_segmentId : string;
  r_totalRecipients : nat;
}.

Definition set_segments (f : gmap string SegmentRow -> gmap string SegmentRow)
    (w : AudienceWorld) : AudienceWorld :=
  mkAudienceWorld (f (audience_segments w)) (progress_calls w).

Definition jobProgress (env : AudienceEnv) (p : Z) : M AudienceWorld unit :=
  rejects (a_fault env (CallProgress p)) ;;
  modify (fun w => mkAudienceWorld (audience_segments w) (progress_calls w ++ [p])).

(** [UPDATE audience_segments SET total_recipients, status
     WHERE id = $1 AND user_id = $2] *)
Definition persistSegmentTotals (env : AudienceEnv) (site : AudienceSite)
    (segmentId userId : string) (totalRecipients : nat) (status_ : string)
    : M AudienceWorld unit :=
  rejects (a_fault env (CallPersist site)) ;;
  modify (fun w =>
            match audience_segments w !! segmentId with
            | Some row =>
                if String.eqb (user_id row) userId
                then set_segments
                       <[segmentId := mkSegment (user_id row) (source_parsing_id row)
                                        (Some totalRecipients) (Some status_)]> w
                else w
            | None => w
            end).

(** [getSegment(userId, segmentId)] of [audienceService.ts] *)
Definition getSegment (env : AudienceEnv) (userId segmentId : string)
    : M AudienceWorld SegmentRow :=
  rejects (a_fault env CallGetSegment) ;;
  let! w := get in
  match audience_segments w !! segmentId with
  | Some row =>
      if String.eqb (user_id row) userId then ret row
      else throw (Broadcast.NotFoundError "Audience segment not found")
  | None => throw (Broadcast.NotFoundError "Audience segment not found")
  end.

(** [calculateTotalRecipients({ userId, sourceParsingId, filters })] *)
Definition calculateTotalRecipients (env : AudienceEnv) : M AudienceWorld nat :=
  rejects (a_fault env CallCalculateTotal) ;;
  ret (countedRecipients env).

Definition invalidateDashboardCache (env : AudienceEnv) : M AudienceWorld unit :=
  rejects (a_fault env CallInvalidateCache).

(** [!segment.sourceParsingId]: [null] and the empty string are falsy. *)
Definition missingSource (row : SegmentRow) : bool :=
  match source_parsing_id row with
  | None | Some EmptyString => true
  | Some _ => false
  end.

(** The body of the [try]. *)
Definition tryBody (env : AudienceEnv) (job : AudienceSegmentJob)
    : M AudienceWorld AudienceResult :=
  jobProgress env 10 ;;
  let! segment := getSegment env (userId job) (segmentId job) in
  if missingSource segment then
    persistSegmentTotals env InTry (segmentId job) (userId job) 0 "failed" ;;
    jobProgress env 100 ;;
    ret (mkAudienceResult (segmentId job) 0)
  else
    let! totalRecipients := calculateTotalRecipients env in
    jobProgress env 70 ;;
    persistSegmentTotals env InTry (segmentId job) (userId job) totalRecipients
      "ready" ;;
    invalidateDashboardCache env ;;
    jobProgress env 100 ;;
    ret (mkAudienceResult (segmentId job) totalRecipients).

Definition handleAudienceJob (env : AudienceEnv) (job : AudienceSegmentJob)
    : M AudienceWorld AudienceResult :=
  try_catch (tryBody env job)
    (fun error =>
       persistSegmentTotals env InCatch (segmentId job) (userId job) 0 "failed" ;;
       throw error).

(** The row with its totals set. *)
Definition withTotals (row : SegmentRow) (total : nat) (status_ : string)
    : SegmentRow :=
  mkSegment (user_id row) (source_parsing_id row) (Some total) (Some status_).

End AudienceJob.

(** ** The queue's broadcast handler ([broadcast.handler.ts]) *)

Module QueueBroadcast.
Import Num.
Local Open Scope js_scope.

Inductive Priority := low | normal | high.

(** [job.data], as [jobs/broadcastJob.ts] declares it for the queue. *)
Record BroadcastJob := mkJob {
  broadcastId : string;
  audience : list string;
  payload : string;
  priority : option Priority;
  attachments : option (list string);
}.

Record Delivery := mkDelivery {
  deliveredCount : nat;
  d_broadcastId : string;
  d_priority : Priority;
}.

(** The local [processed] and the values reported to the Bull job so
    far. *)
Definition State : Type := nat * list Z.

(** [await job.progress(p)]; [fault k] tells whether the call made after
    [k] reports rejects. *)
Definition jobProgress (fault : nat -> option JsError) (p : Z) : M State unit :=
  let! s := get in
  rejects (fault (length s.2)) ;;
  modify (fun s : State => (s.1, s.2 ++ [p])).

(** One turn of the [for] loop. *)
Definition turn (fault : nat -> option JsError) (chunks : nat)
    (recipient : string) : M State unit :=
  modify (fun s : State => (s.1 + 1, s.2)) ;;
  let! s := get in
  let progress := Math_round (num s.1 / num chunks * 100) in
  jobProgress fault progress.

(** The statements of the function, over its local and the reports. *)
Definition body (fault : nat -> option JsError) (job : BroadcastJob)
    : M State Delivery :=
  let chunks := Nat.max 1 (length (audience job)) in
  Handler.forOf (audience job) (turn fault chunks) ;;
  jobProgress fault 100 ;;
  ret (mkDelivery (length (audience job)) (broadcastId job)
         (match priority job with Some p => p | None => normal end)).

Definition handleBroadcastJob (fault : nat -> option JsError) (job : BroadcastJob)
    : M (list Z) Delivery :=
  fun reports =>
    let '(r, (_, reports')) := body fault job (0, reports) in (r, reports').

End QueueBroadcast.

(** ** Telegram sign-in ([sessionManager.ts]) *)

Module SessionManager.
Local Open Scope js_scope.

(** [try { body } finally { finalizer }]: the finalizer runs either way,
    and only when it throws does it change the outcome. *)
Definition try_finally {S A} (body : M S A) (finalizer : M S unit) : M S A :=
  fun s =>
    let '(r, s') := body s in
    match finalizer s' with
    | (Return _, s'') => (r, s'')
    | (Throw e, s'') => (Throw e, s'')
    end.

(** The calls awaited on the Telegram client. *)
Inductive ClientCall :=
| Connect
| InvokeSendCode (phoneNumber : string)
| InvokeSignIn (phoneNumber phoneCodeHash phoneCode : string)
| InvokeGetPassword
| ComputePasswordSrp (password : string)
| InvokeCheckPassword
| Disconnect.

(** Telegram's side: which calls reject, the [phoneCodeHash] of a sent
    code, the user carried by the authorization of a sign-in and of a
    password check (if any), and what [client.session.save()] gives. *)
Record TelegramEnv := mkTelegramEnv {
  t_fault : ClientCall -> option JsError;
  sentCodeHash : string;
  signInUser : option string;
  passwordUser : option string;
  savedSession : string;
}.

(** [TelegramAuthState] *)
Record TelegramAuthState := mkAuthState {
  phoneNumber : string;
  phoneCodeHash : string;
  sessionString : string;
}.

(** [TelegramAuthorizationResult] *)
Record TelegramAuthorizationResult := mkAuthResult {
  telegramUser : string;
  a_sessionString : string;
}.

(** The state is the list of the calls awaited so far, resolved or
    not. *)
Definition call (env : TelegramEnv) (c : ClientCall) : M (list ClientCall) unit :=
  modify (fun calls => calls ++ [c]) ;;
  rejects (t_fault env c).

Definition AppError (msg : string) : JsError := Js.Error msg.

Definition safeDisconnect (env : TelegramEnv) : M (list ClientCall) unit :=
  try_catch (call env Disconnect) (fun error => ret tt).

Definition sendCode (env : TelegramEnv) (phoneNumber : string)
    : M (list ClientCall) (string * string) :=
  try_finally
    (call env Connect ;;
     call env (InvokeSendCode phoneNumber) ;;
     let sessionString := savedSession env in
     ret (sentCodeHash env, sessionString))
    (safeDisconnect env).

Definition extractAuthorizedUser (user : option string)
    : M (list ClientCall) string :=
  match user with
  | Some u => ret u
  | None =>
      throw (AppError "Unable to extract Telegram user from authorization response")
  end.

Definition completePasswordSignIn (env : TelegramEnv) (password : string)
    : M (list ClientCall) (option string) :=
  call env InvokeGetPassword ;;
  call env (ComputePasswordSrp password) ;;
  call env InvokeCheckPassword ;;
  ret (passwordUser env).

(** [error.errorMessage ?? error.message] is one of the two
    password-needed texts. *)
Definition passwordNeeded (error : JsError) : bool :=
  let errorMessage :=
    match errorMessage error with
    | Some m => m
    | None => message error
    end in
  String.eqb errorMessage "SESSION_PASSWORD_NEEDED"
  || String.eqb errorMessage "SESSION_PASSWORD_NEEDED#".

Definition verifyCode (env : TelegramEnv) (state : TelegramAuthState)
    (code : string) (password : option string)
    : M (list ClientCall) TelegramAuthorizationResult :=
  try_finally
    (call env Connect ;;
     try_catch
       (call env (InvokeSignIn (phoneNumber state) (phoneCodeHash state) code) ;;
        let sessionString := savedSession env in
        let! telegramUser := extractAuthorizedUser (signInUser env) in
        ret (mkAuthResult telegramUser sessionString))
       (fun error =>
          if passwordNeeded error then
            match password with
            | None | Some EmptyString => throw error
            | Some password =>
                let! authorization := completePasswordSignIn env password in
                let sessionString := savedSession env in
                let! telegramUser := extractAuthorizedUser authorization in
                ret (mkAuthResult telegramUser sessionString)
            end
          else throw error))
    (safeDisconnect env).

(** The calls [new] begin with [Connect], end with [Disconnect], and
    hold neither in between. *)
Definition bracketed (new : list ClientCall) : bool :=
  match new with
  | Connect :: rest =>
      match rev rest with
      | Disconnect :: mid =>
          forallb (fun c => match c with
                            | Connect | Disconnect => false
                            | _ => true
                            end) mid
      | _ => false
      end
  | _ => false
  end.

(** The environment [env] with a disconnect that rejects with [e]. *)
Definition withFailingDisconnect (env : TelegramEnv) (e : JsError) : TelegramEnv :=
  mkTelegramEnv
    (fun c => match c with Disconnect => Some e | _ => t_fault env c end)
    (sentCodeHash env) (signInUser env) (passwordUser env) (savedSession env).

End SessionManager.

(* ===================================================================== *)
(** * Part II. Vocabulary of the statements                               *)
(* ===================================================================== *)

Module Spec.
Import Str Classifier.

(** [needle] occurs in [s]. *)
Definition contains (s needle : string) : Prop :=
  exists pre post, s = pre +:+ needle +:+ post.

(** [s] has an occurrence of [FLOOD_WAIT_] followed by a digit, that is,
    a match of [/FLOOD_WAIT_(\d+)/]. *)
Definition hasFloodWaitSeconds (s : string) : Prop :=
  exists pre d post,
    s = pre +:+ "FLOOD_WAIT_" +:+ String d post /\ isDigit d = true.

(** The seconds a flood-wait text carries: the number after the leftmost
    [FLOOD_WAIT_], or 30 when there is none. *)
Definition waitOf (text : string) : N :=
  match matchFloodWait text with
  | Some ds => parseInt ds
  | None => 30%N
  end.

(** The text names none of the six kinds of the taxonomy. *)
Definition namesNoKind (text : string) : Prop :=
  ~ contains text "FLOOD_WAIT" /\ ~ contains text "PEER_ID_INVALID" /\
  ~ contains text "USER_RESTRICTED" /\ ~ contains text "USER_IS_BOT" /\
  ~ contains text "SESSION_EXPIRED" /\ ~ contains text "CHAT_WRITE_FORBIDDEN".

(** Weakest precondition of a computation: [Q] holds of the outcome and
    of the state it leaves. *)
Definition wp {S A} (m : M S A) (Q : Result A -> S -> Prop) (s : S) : Prop :=
  let '(r, s') := m s in Q r s'.

(** Total time asked of the flood-wait sleeps among [evs]. *)
Fixpoint floodSleepTotal (evs : list Event) : Z :=
  match evs with
  | [] => 0
  | EvFloodSleep ms :: rest => ms + floodSleepTotal rest
  | _ :: rest => floodSleepTotal rest
  end%Z.

(** The world after the client and the timers were asked [evs]. *)
Definition add_events (evs : list Event) (w : World) : World :=
  mkWorld (broadcast_campaigns w) (broadcast_logs w) (redis w)
          (job_progress w) (progress_writes w) (events w ++ evs).

(** The send to [recipient] fails with [e], the error that reaches the
    per-recipient [catch]. *)
Definition sendThrows (env : Env) (i : nat) (recipient text : string)
    (e : JsError) : Prop :=
  forall w, (Handler.sendMessageToRecipient env i recipient text w).1 = Throw e.

(** [Math.round((processed / total) * 100)], guarded as in
    [updateProgress]. *)
Definition progressOf (processed total : nat) : Z :=
  if (0 <? total)%nat
  then Num.Math_round (Num.num processed / Num.num total * 100)
  else 0%Z.

(** The payload [updateProgress] hands to the Progress Reporter. *)
Definition snapshotOf (env : Env) (campaignId : string)
    (status : ProgressStatus.t) (processed total sent failed skipped : nat)
    (error : option string) : Snapshot.t :=
  Snapshot.mk campaignId status (progressOf processed total) processed total
    sent failed skipped error (toISOString env (Date_now env)).

(** The world after [saveBroadcastProgress] wrote [payload]. *)
Definition afterSave (env : Env) (site : Site) (payload : Snapshot.t)
    (w : World) : World :=
  let w1 := WorldOps.add_progress_write payload w in
  match fault env (CallRedisSetEx site) with
  | Some _ => w1
  | None =>
      WorldOps.set_redis
        <[Progress.buildKey (Snapshot.campaignId payload)
          := (Progress.PROGRESS_TTL_SECONDS, JSON_stringify env payload)]> w1
  end.

(** The world after a successful [updateProgress]. *)
Definition afterUpdateProgress (env : Env) (site : Site) (payload : Snapshot.t)
    (w : World) : World :=
  afterSave env site payload (WorldOps.add_job_progress (Snapshot.progress payload) w).


(** The wait a classification carries, in seconds (0 when it has none). *)
Definition secondsOf (c : ErrorClassification) : Z :=
  match floodWaitSeconds c with
  | Some secs => Z.of_N secs
  | None => 0
  end.

(** The row [updateCampaignStatus] writes over [row]. *)
Definition updatedRow (input : Broadcast.UpdateCampaignStatusInput)
    (row : Campaign.t) : Campaign.t :=
  Campaign.mk (Broadcast.u_status input)
    (match Broadcast.u_lastSentAt input with
     | Some d => Some d
     | None => Campaign.lastSentAt row
     end)
    (match Broadcast.u_metadata input with
     | Some patch => Broadcast.spread (Campaign.metadata row) patch
     | None => ∅
     end).

(** Whether the Telegram session is open after the events [evs]: the
    client was connected and not disconnected since. *)
Definition sessionOpen (evs : list Event) : bool :=
  fold_left (fun open e =>
               match e with
               | EvConnect => true
               | EvDisconnect => false
               | _ => open
               end) evs false.

(** What every turn of the loop keeps, thrown or not: the campaign rows,
    an open session, and the retry flag once a recipient has failed. *)
Definition loopInv (C : gmap string Campaign.t) (s : Handler.Frame * World) : Prop :=
  broadcast_campaigns s.2 = C /\
  sessionOpen (events s.2) = true /\
  (0 < Handler.failed s.1 -> Handler.shouldRetry s.1 = true).

(** Since the writes [W0], the snapshots written have non-decreasing
    [processed] values, none above [top]. *)
Definition risesTo (W0 : list Snapshot.t) (top : nat) (w : World) : Prop :=
  exists ws,
    progress_writes w = W0 ++ ws /\
    StronglySorted le (map Snapshot.processed ws) /\
    Forall (fun s => Snapshot.processed s <= top) ws.

End Spec.

(** Vocabulary of the statements about whole runs and about texts. *)
Module Trace.
Import Spec.

Definition LogStatus_eqb (a b : LogStatus.t) : bool :=
  match a, b with
  | LogStatus.sent, LogStatus.sent
  | LogStatus.failed, LogStatus.failed
  | LogStatus.skipped, LogStatus.skipped => true
  | _, _ => false
  end.

(** The number of outcome rows of status [st]. *)
Definition countStatus (st : LogStatus.t) (ls : list Log.t) : nat :=
  length (List.filter (fun l => LogStatus_eqb (Log.status l) st) ls).

(** The Telegram calls among [evs] are paced: an entity lookup needs a
    pacing delay since the last send, and so does a send, which uses the
    delay up.  [armed] tells whether such a delay is pending; the answer
    is the flag after [evs], or [None] when a call came unpaced. *)
Fixpoint paced (armed : bool) (evs : list Event) : option bool :=
  match evs with
  | [] => Some armed
  | EvPacingDelay _ :: rest => paced true rest
  | EvGetInputEntity _ :: rest => if armed then paced true rest else None
  | EvSendMessage _ _ :: rest => if armed then paced false rest else None
  | _ :: rest => paced armed rest
  end.

(** What the outcome rows [ls] written for [job] look like. *)
Definition rowsOf (job : Handler.BroadcastJob) (ls : list Log.t) : Prop :=
  Forall (fun l => Log.campaignId l = Handler.campaignId job /\
                   Log.userId l = Handler.userId job) ls.

(** The events of the entity lookup for [r]: only an [@name] is looked
    up. *)
Definition lookupEvents (r : string) : list Event :=
  if Str.startsWith r "@" then [EvGetInputEntity r] else [].

(** The error [sendMessageToRecipient] throws for [r] when the client
    call failed with [m]. *)
Definition wrapped (r : string) (m : JsError) : JsError :=
  Js.Error ("Failed to send message to " +:+ r +:+ ": " +:+ message m).

(** How a send to [r] (the [i]-th) can end, with the client events it
    leaves. *)
Definition sendOutcome (env : Env) (i : nat) (r text : string)
    (res : Result unit) (evs : list Event) : Prop :=
  match res with
  | Return _ => evs = lookupEvents r ++ [EvSendMessage r text]
  | Throw e =>
      exists m,
        e = wrapped r m /\
        (Str.startsWith r "@" = true /\
         fault env (CallGetInputEntity i) = Some m /\ evs = [] \/
         fault env (CallSendMessage i) = Some m /\ evs = lookupEvents r)
  end.

(** The outcome rows [ls], one per recipient of [done] in order, agree
    with the counters of [f] and with its pacing object: the [failed] and
    [skipped] counters are the numbers of such rows, the [sent] counter is
    at least the number of [sent] rows, and the pacing object has recorded
    [sent f] successes and [failed f] failures. *)
Definition tallied (env : Env) (job : Handler.BroadcastJob)
    (done : list string) (ls : list Log.t) (f : Handler.Frame) : Prop :=
  map Log.recipient ls = done /\
  rowsOf job ls /\
  Handler.processed f = length done /\
  Handler.failed f = countStatus LogStatus.failed ls /\
  Handler.skipped f = countStatus LogStatus.skipped ls /\
  countStatus LogStatus.sent ls <= Handler.sent f /\
  ((forall i, fault env (CallLogOutcome i LogStatus.sent) = None) ->
   Handler.sent f = countStatus LogStatus.sent ls) /\
  AntiSpam.successCount (Handler.antiSpam f) = Handler.sent f /\
  AntiSpam.failureCount (Handler.antiSpam f) = Handler.failed f.

(** A snapshot written during a run of [job]: it is the campaign's, its
    total is the number of recipients, no more are processed than there
    are, and its [progress] is the rounded percentage. *)
Definition reportOf (env : Env) (job : Handler.BroadcastJob) (s : Snapshot.t) : Prop :=
  Snapshot.campaignId s = Handler.campaignId job /\
  Snapshot.total s = length (Handler.recipients job) /\
  Snapshot.processed s <= Snapshot.total s /\
  Snapshot.progress s = progressOf (Snapshot.processed s) (Snapshot.total s) /\
  Snapshot.updated_at s = toISOString env (Date_now env).

(** Since the state [w0], the snapshots written are reports of [job] and
    the Bull job was told their [progress] values, in the same order. *)
Definition reported (env : Env) (job : Handler.BroadcastJob) (w0 w : World) : Prop :=
  exists ws,
    progress_writes w = progress_writes w0 ++ ws /\
    job_progress w = job_progress w0 ++ map Snapshot.progress ws /\
    Forall (reportOf env job) ws.

(** Since the state [w0], the client was only asked paced calls. *)
Definition pacedSince (w0 w : World) : Prop :=
  exists evs b, events w = events w0 ++ evs /\ paced false evs = Some b.

End Trace.

Module Transport.

(** The send to [r] (the [i]-th) fails in the Telegram client with the
    transport error [m]: the entity lookup of an [@name] rejects with it,
    or the lookup, if any, resolves and [sendMessage] rejects with it. *)
Definition transportFails (env : Env) (i : nat) (r : string) (m : JsError) : Prop :=
  if Str.startsWith r "@"
  then fault env (CallGetInputEntity i) = Some m \/
       fault env (CallGetInputEntity i) = None /\
       fault env (CallSendMessage i) = Some m
  else fault env (CallSendMessage i) = Some m.

End Transport.

Module TextShapes.
Import Str Routes.

(** [s] is empty or starts with a character that is no white space. *)
Definition headOk (s : string) : Prop :=
  match s with
  | String c _ => isWhiteSpace c = false
  | EmptyString => True
  end.


End TextShapes.

(** Concrete jobs, worlds and environments on which the statements are
    exercised. *)
Module Fixture.
Import Handler.

(** An environment with a stored session last used three days before
    [Date.now()], in which the calls listed by [faults] reject. *)
Definition env (faults : Call -> option JsError) : Env :=
  mkEnv faults
    (Some (mkSession "1BVtsOK4Bu" (Some 1700000000000%Z)))
    1700259200000%Z
    (fun _ => "2023-11-17T22:13:20.000Z")
    (fun _ => "{}")
    (fun _ => Throw (Js.Error "Unexpected token in JSON"))
    (fun _ => "75").

(** The same without a stored session. *)
Definition envNoSession (faults : Call -> option JsError) : Env :=
  mkEnv faults None 1700259200000%Z
    (fun _ => "2023-11-17T22:13:20.000Z")
    (fun _ => "{}")
    (fun _ => Throw (Js.Error "Unexpected token in JSON"))
    (fun _ => "75").

Definition noFault : Call -> option JsError := fun _ => None.

(** A database with the scheduled campaign [c1], retried once before. *)
Definition world : World :=
  mkWorld
    {[ "c1" := Campaign.mk CampaignStatus.scheduled None
                 {[ "retry_count" := JNumber 1 ]} ]}
    [] ∅ [] [] [].

Definition job (recipients : list string) : BroadcastJob :=
  mkJob "c1" "u1" recipients "hello" None.

(** The locals at the start of the loop, for a three-day-old session. *)
Definition frame : Frame := mkFrame 0 0 0 0 false (AntiSpam.new (Some 3%Z)).

(** The Telegram client rejects the first [sendMessage] with [msg]. *)
Definition firstSendFails (msg : string) : Call -> option JsError :=
  fun c =>
    match c with
    | CallSendMessage 1 => Some (mkError (Some msg) msg)
    | _ => None
    end.

(** The client times out on the first three sends. *)
Definition threeSendsFail : Call -> option JsError :=
  fun c =>
    match c with
    | CallSendMessage 1 | CallSendMessage 2 | CallSendMessage 3 =>
        Some (mkError None "TIMEOUT")
    | _ => None
    end.

(** The first send succeeds, but the insert of its [sent] outcome into
    [broadcast_logs] rejects. *)
Definition sentLogFails : Call -> option JsError :=
  fun c =>
    match c with
    | CallLogOutcome 1 LogStatus.sent =>
        Some (Js.Error "Connection terminated unexpectedly")
    | _ => None
    end.

(** The first send times out, and the insert of its [failed] outcome into
    [broadcast_logs] rejects. *)
Definition failedLogFails : Call -> option JsError :=
  fun c =>
    match c with
    | CallSendMessage 1 => Some (mkError None "TIMEOUT")
    | CallLogOutcome 1 LogStatus.failed =>
        Some (Js.Error "Connection terminated unexpectedly")
    | _ => None
    end.

(** The first recipient is unknown to Telegram and the second send times
    out. *)
Definition oneInvalidOneTimeout : Call -> option JsError :=
  fun c =>
    match c with
    | CallSendMessage 1 =>
        Some (mkError (Some "PEER_ID_INVALID")
                "400: PEER_ID_INVALID (caused by messages.SendMessage)")
    | CallSendMessage 2 => Some (mkError None "TIMEOUT")
    | _ => None
    end.

(** The first send fails, the second succeeds. *)
Definition firstOfTwoFails : Call -> option JsError :=
  fun c =>
    match c with
    | CallSendMessage 1 => Some (mkError None "TIMEOUT")
    | _ => None
    end.

End Fixture.

(** Samples for a run whose disconnect rejects, the progress store, the
    audience job and the sign-in. *)
Module RunFixture.

(** Every send succeeds, and the client then rejects the disconnect. *)
Definition disconnectFails : Call -> option JsError :=
  fun c =>
    match c with
    | CallDisconnect => Some (Js.Error "Not connected")
    | _ => None
    end.

End RunFixture.

Module ProgressFixture.

(** The payload [saveBroadcastProgress] builds for [c1] in the environment
    below. *)
Definition payload : Snapshot.t :=
  Snapshot.mk "c1" ProgressStatus.sending 50 1 2 1 0 0 None
    "2023-11-17T22:13:20.000Z".

Definition text : string :=
  "{campaignId:c1,status:sending,progress:50,processed:1,total:2,sent:1,failed:0,skipped:0}".

(** An environment whose [JSON.parse] reads back what its
    [JSON.stringify] wrote. *)
Definition env : Env :=
  mkEnv Fixture.noFault None 1700259200000%Z
    (fun _ => "2023-11-17T22:13:20.000Z")
    (fun _ => text)
    (fun raw => if String.eqb raw text then Return payload
                else Throw (Js.Error "Unexpected token in JSON"))
    (fun _ => "75").

End ProgressFixture.

Module AudienceFixture.
Import AudienceJob.

(** A table with the segment [s1] of user [u1], built from the parsing
    [p1] and not counted yet. *)
Definition world : AudienceWorld :=
  mkAudienceWorld {[ "s1" := mkSegment "u1" (Some "p1") None (Some "processing") ]} [].

Definition job : AudienceSegmentJob := mkAudienceJob "s1" "u1".

(** Nothing rejects; the segment counts 42 recipients. *)
Definition env : AudienceEnv := mkAudienceEnv (fun _ => None) 42.

(** The dashboard cache cannot be invalidated. *)
Definition cacheDown : AudienceEnv :=
  mkAudienceEnv
    (fun c => match c with
              | CallInvalidateCache => Some (Js.Error "Connection is closed.")
              | _ => None
              end) 42.

End AudienceFixture.

Module SessionFixture.
Import SessionManager.

(** Telegram rejects the sign-in: the code is wrong. *)
Definition wrongCode : TelegramEnv :=
  mkTelegramEnv
    (fun c => match c with
              | InvokeSignIn _ _ _ =>
                  Some (mkError (Some "PHONE_CODE_INVALID")
                          "400: PHONE_CODE_INVALID (caused by auth.SignIn)")
              | _ => None
              end)
    "8f3a1c" None None "1BVtsOK4Bu".

(** The account has a password: the sign-in is rejected with
    [SESSION_PASSWORD_NEEDED], and the password check gives the user. *)
Definition twoFactor : TelegramEnv :=
  mkTelegramEnv
    (fun c => match c with
              | InvokeSignIn _ _ _ =>
                  Some (mkError (Some "SESSION_PASSWORD_NEEDED")
                          "401: SESSION_PASSWORD_NEEDED (caused by auth.SignIn)")
              | _ => None
              end)
    "8f3a1c" None (Some "ann") "1BVtsOK4Bu".

Definition state : TelegramAuthState := mkAuthState "+15550100" "8f3a1c" "1BVtsOK4Bu".

End SessionFixture.

(* ===================================================================== *)
(** * Part III. Properties                                                *)
(* ===================================================================== *)

Import Spec.

Arguments afterUpdateProgress : simpl never.
Arguments snapshotOf : simpl never.
Arguments progressOf : simpl never.
Arguments Classifier.classifyTelegramError : simpl never.
Arguments sessionOpen : simpl never.
Arguments Broadcast.spread : simpl never.

(** ** Strings *)

Section StringFacts.
Import Str.

Lemma prefix_spec (p s : string) :
  String.prefix p s = true <-> exists post, s = p +:+ post.
Proof.
  revert s. induction p as [|a p IH]; intros s.
  - split; [intros _; now exists s | intros _; now destruct s].
  - destruct s as [|b s]; simpl.
    + split; [discriminate | intros [post H]; discriminate].
    + destruct (ascii_dec a b) as [->|Hne].
      * rewrite IH. split; intros [post H]; exists post.
        -- now rewrite H.
        -- now injection H.
      * split; [discriminate | intros [post H]; injection H; congruence].
Qed.

Lemma includes_spec (s needle : string) :
  includes s needle = true <-> contains s needle.
Proof.
  unfold contains. induction s as [|c s IH]; cbn [includes].
  - rewrite orb_false_r, prefix_spec. split.
    + intros [post H]. now exists EmptyString, post.
    + intros [pre [post H]]. destruct pre; [now exists post | discriminate].
  - rewrite orb_true_iff, prefix_spec, IH. split.
    + intros [[post H] | [pre [post H]]].
      * now exists EmptyString, post.
      * exists (String c pre), post. simpl. now rewrite H.
    + intros [pre [post H]]. destruct pre as [|c' pre]; simpl in H.
      * left. now exists post.
      * right. injection H as _ H. now exists pre, post.
Qed.

Lemma includes_false (s needle : string) :
  includes s needle = false <-> ~ contains s needle.
Proof.
  rewrite <- includes_spec. destruct (includes s needle); split; congruence.
Qed.

Lemma dropPrefix_spec (p s rest : string) :
  dropPrefix p s = Some rest <-> s = p +:+ rest.
Proof.
  revert s. induction p as [|a p IH]; intros s; simpl.
  - split; [now intros [= ->] | now intros ->].
  - destruct s as [|b s]; [split; discriminate |].
    destruct (Ascii.eqb_spec a b) as [->|Hne].
    + rewrite IH. split; [now intros -> | now intros [= ->]].
    + split; [discriminate | intros [= ? ?]; congruence].
Qed.

Lemma floodWaitAt_None (s : string) :
  floodWaitAt s = None <->
  ~ exists d post, s = "FLOOD_WAIT_" +:+ String d post /\ isDigit d = true.
Proof.
  unfold floodWaitAt.
  destruct (dropPrefix "FLOOD_WAIT_" s) as [rest|] eqn:E.
  - apply dropPrefix_spec in E. subst s.
    destruct rest as [|d post]; simpl.
    + split; [|reflexivity]. intros _ (d & post & H & _). discriminate.
    + destruct (isDigit d) eqn:Hd.
      * split; [discriminate |]. intros H. exfalso. apply H. now exists d, post.
      * split; [|reflexivity]. intros _ (d' & post' & H & Hd').
        injection H as -> ->. congruence.
  - split; [|reflexivity]. intros _ (d & post & H & _).
    apply dropPrefix_spec in H. congruence.
Qed.

(** The pattern finds nothing exactly when the text has no occurrence of
    [FLOOD_WAIT_] followed by a digit. *)
Lemma matchFloodWait_None (s : string) :
  matchFloodWait s = None <-> ~ hasFloodWaitSeconds s.
Proof.
  unfold hasFloodWaitSeconds. induction s as [|c s IH].
  - simpl. split; [|reflexivity].
    intros _ (pre & d & post & H & _). destruct pre; discriminate.
  - cbn [matchFloodWait]. destruct (floodWaitAt (String c s)) eqn:E.
    + split; [discriminate |]. intros H. exfalso.
      assert (floodWaitAt (String c s) <> None) as Hne by congruence.
      rewrite floodWaitAt_None in Hne. apply Hne. intros (d & post & Hs & Hd).
      apply H. exists EmptyString, d, post. now split.
    + rewrite IH. apply floodWaitAt_None in E. split.
      * intros Hs (pre & d & post & H & Hd). destruct pre as [|c' pre].
        -- apply E. now exists d, post.
        -- simpl in H. injection H as _ H. apply Hs. now exists pre, d, post.
      * intros Hs (pre & d & post & H & Hd). apply Hs.
        exists (String c pre), d, post. simpl. now rewrite H.
Qed.

End StringFacts.

(** ** Rules for running monadic code *)

Section Logic.

Context {S : Type}.

Lemma wp_elim {A} (m : M S A) (Q : Result A -> S -> Prop) s r s' :
  wp m Q s -> m s = (r, s') -> Q r s'.
Proof. unfold wp. intros H E. now rewrite E in H. Qed.

Lemma wp_intro {A} (m : M S A) (Q : Result A -> S -> Prop) s :
  (forall r s', m s = (r, s') -> Q r s') -> wp m Q s.
Proof. unfold wp. intros H. destruct (m s) as [r s'] eqn:E. now apply H. Qed.

Lemma wp_mono {A} (m : M S A) (Q Q' : Result A -> S -> Prop) s :
  wp m Q s -> (forall r s', Q r s' -> Q' r s') -> wp m Q' s.
Proof. unfold wp. destruct (m s). auto. Qed.

Lemma wp_bind {A B} (m : M S A) (k : A -> M S B) (Q : Result B -> S -> Prop) s :
  wp m (fun r s' =>
          match r with
          | Return a => wp (k a) Q s'
          | Throw e => Q (Throw e) s'
          end) s ->
  wp (bind m k) Q s.
Proof. unfold wp, bind. destruct (m s) as [[a|e] s']; auto. Qed.

Lemma wp_try_catch {A} (body : M S A) (h : JsError -> M S A)
    (Q : Result A -> S -> Prop) s :
  wp body (fun r s' =>
             match r with
             | Return a => Q (Return a) s'
             | Throw e => wp (h e) Q s'
             end) s ->
  wp (try_catch body h) Q s.
Proof. unfold wp, try_catch. destruct (body s) as [[a|e] s']; auto. Qed.

Lemma wp_rejects (fault : option JsError) (Q : Result unit -> S -> Prop) s :
  (forall e, fault = Some e -> Q (Throw e) s) ->
  (fault = None -> Q (Return tt) s) ->
  wp (rejects fault) Q s.
Proof. destruct fault; unfold wp; simpl; auto. Qed.

(** A loop keeps an invariant that each turn keeps; a turn that throws
    ends the loop. *)
Lemma wp_forOf (body : string -> M S unit) (I : S -> Prop)
    (Q : Result unit -> S -> Prop) xs s :
  I s ->
  (forall x s, I s ->
     wp (body x) (fun r s' =>
                    match r with
                    | Return _ => I s'
                    | Throw e => Q (Throw e) s'
                    end) s) ->
  (forall s, I s -> Q (Return tt) s) ->
  wp (Handler.forOf xs body) Q s.
Proof.
  intros HI Hbody Hend. revert s HI.
  induction xs as [|x xs IH]; intros s HI; simpl.
  - now apply Hend.
  - apply wp_bind. eapply wp_mono; [now apply Hbody |].
    intros [[]|e] s'; auto.
Qed.

(** The same with the number of turns taken so far. *)
Lemma wp_forOf_indexed (body : string -> M S unit) (I : nat -> S -> Prop)
    (Q : Result unit -> S -> Prop) xs s :
  I 0 s ->
  (forall k x s, k < length xs -> I k s ->
     wp (body x) (fun r s' =>
                    match r with
                    | Return _ => I (k + 1) s'
                    | Throw e => Q (Throw e) s'
                    end) s) ->
  (forall s, I (length xs) s -> Q (Return tt) s) ->
  wp (Handler.forOf xs body) Q s.
Proof.
  intros H0 Hbody Hend.
  assert (Hgen : forall ys k s,
             k + length ys = length xs -> I k s -> wp (Handler.forOf ys body) Q s).
  { induction ys as [|y ys IH]; intros k s' Hk HI; simpl.
    - apply Hend. simpl in Hk. now replace (length xs) with k by lia.
    - simpl in Hk. apply wp_bind. eapply wp_mono; [apply (Hbody k); [lia | exact HI] |].
      intros [[]|e] s''; [|auto]. apply IH. lia. }
  now apply (Hgen xs 0).
Qed.

End Logic.

Section LocalLogic.
Import Handler.

Lemma wp_liftW {A} (m : M World A) (Q : Result A -> Frame * World -> Prop) f w :
  wp m (fun r w' => Q r (f, w')) w -> wp (liftW m) Q (f, w).
Proof. unfold wp, liftW. destruct (m w). auto. Qed.

Lemma wp_withLocals {A} (f0 : Frame) (m : Local_ A)
    (Q : Result A -> World -> Prop) w :
  wp m (fun r s' => Q r s'.2) (f0, w) -> wp (withLocals f0 m) Q w.
Proof. unfold wp, withLocals. destruct (m (f0, w)) as [r [f w']]. auto. Qed.

End LocalLogic.

(** One step of symbolic execution. *)
Ltac wp_step :=
  lazymatch goal with
  | |- wp (bind _ _) _ _ => apply wp_bind
  | |- wp (try_catch _ _) _ _ => apply wp_try_catch
  | |- wp (Handler.liftW _) _ (_, _) => apply wp_liftW
  | |- wp (Handler.withLocals _ _) _ _ => apply wp_withLocals
  | |- wp (rejects _) _ _ =>
      apply wp_rejects; [intros ? ? | intros ?]
  | |- wp (ret _) _ _ => unfold wp at 1, ret at 1; cbv beta iota
  | |- wp (throw _) _ _ => unfold wp at 1, throw at 1; cbv beta iota
  | |- wp (modify _) _ _ => unfold wp at 1, modify at 1; cbv beta iota
  | |- wp get _ _ => unfold wp at 1, get at 1; cbv beta iota
  | |- wp (WorldOps.emit _) _ _ =>
      unfold wp at 1, WorldOps.emit at 1, modify at 1; cbv beta iota
  | |- wp Handler.getF _ (_, _) => unfold wp at 1, Handler.getF at 1; cbv beta iota
  | |- wp (Handler.modifyF _) _ (_, _) =>
      unfold wp at 1, Handler.modifyF at 1; cbv beta iota
  end.

(** ** The helpers of the handler, run *)

Section Helpers.
Import WorldOps Broadcast Progress Handler.


Lemma add_event_add_events (e : Event) (w : World) :
  add_event e w = add_events [e] w.
Proof. reflexivity. Qed.

Lemma add_events_add_events (a b : list Event) (w : World) :
  add_events b (add_events a w) = add_events (a ++ b) w.
Proof. unfold add_events. simpl. now rewrite <- app_assoc. Qed.

Lemma add_events_nil (w : World) : add_events [] w = w.
Proof. destruct w. unfold add_events. simpl. now rewrite app_nil_r. Qed.

(** ** [afterUpdateProgress], field by field *)

Lemma afterUpdateProgress_campaigns env site p w :
  broadcast_campaigns (afterUpdateProgress env site p w) = broadcast_campaigns w.
Proof. unfold afterUpdateProgress, afterSave. now destruct (fault env _). Qed.

Lemma afterUpdateProgress_logs env site p w :
  broadcast_logs (afterUpdateProgress env site p w) = broadcast_logs w.
Proof. unfold afterUpdateProgress, afterSave. now destruct (fault env _). Qed.

Lemma afterUpdateProgress_events env site p w :
  events (afterUpdateProgress env site p w) = events w.
Proof. unfold afterUpdateProgress, afterSave. now destruct (fault env _). Qed.

Lemma afterUpdateProgress_writes env site p w :
  progress_writes (afterUpdateProgress env site p w) = progress_writes w ++ [p].
Proof. unfold afterUpdateProgress, afterSave. now destruct (fault env _). Qed.

Lemma afterUpdateProgress_job env site p w :
  job_progress (afterUpdateProgress env site p w)
  = job_progress w ++ [Snapshot.progress p].
Proof. unfold afterUpdateProgress, afterSave. now destruct (fault env _). Qed.

(** ** The helpers as equations *)

Lemma saveBroadcastProgress_run env site cid snap w :
  saveBroadcastProgress env site cid snap None w
  = (let payload :=
       Snapshot.mk cid (Snapshot.status snap) (Snapshot.progress snap)
         (Snapshot.processed snap) (Snapshot.total snap) (Snapshot.sent snap)
         (Snapshot.failed snap) (Snapshot.skipped snap) (Snapshot.error snap)
         (toISOString env (Date_now env)) in
     (Return payload, afterSave env site payload w)).
Proof.
  unfold saveBroadcastProgress, afterSave, withRedisClient, try_catch, bind,
    modify, rejects, ret, throw.
  simpl. now destruct (fault env (CallRedisSetEx site)).
Qed.

Lemma updateProgress_run env site cid st p t s f k err w :
  updateProgress env site cid st p t s f k err w
  = match fault env (CallJobProgress site) with
    | Some e => (Throw e, w)
    | None =>
        (Return tt,
         afterUpdateProgress env site (snapshotOf env cid st p t s f k err) w)
    end.
Proof.
  unfold updateProgress, jobProgress, bind at 1 2 3.
  unfold rejects. destruct (fault env (CallJobProgress site)); [reflexivity |].
  unfold ret at 1, modify at 1. rewrite saveBroadcastProgress_run.
  reflexivity.
Qed.

Lemma logBroadcastOutcome_run env i input w :
  logBroadcastOutcome env i input w
  = match fault env (CallLogOutcome i (Log.status input)) with
    | Some e => (Throw e, w)
    | None => (Return input, add_log input w)
    end.
Proof.
  unfold logBroadcastOutcome, bind, rejects.
  now destruct (fault env _).
Qed.

(** A send touches nothing but the client: it asks it at most to resolve
    the entity and to send. *)
Lemma sendMessageToRecipient_run env i r text w :
  exists evs,
    (sendMessageToRecipient env i r text w).2 = add_events evs w /\
    floodSleepTotal evs = 0%Z /\
    Forall (fun e => e = EvGetInputEntity r \/ e = EvSendMessage r text) evs.
Proof.
  unfold sendMessageToRecipient, try_catch, bind, rejects, emit, modify.
  destruct (Str.startsWith r "@");
    repeat (match goal with
            | |- context [fault env ?c] => destruct (fault env c)
            end; simpl);
    rewrite ?add_event_add_events, ?add_events_add_events.
  all: try (exists []; rewrite add_events_nil; now repeat constructor).
  all: eexists; split; [reflexivity |];
    split; [reflexivity | repeat (apply List.Forall_cons; [auto |]); apply List.Forall_nil].
Qed.

Lemma wp_updateProgress env site cid st p t s f k err
    (Q : Result unit -> World -> Prop) w :
  (forall e, fault env (CallJobProgress site) = Some e -> Q (Throw e) w) ->
  (fault env (CallJobProgress site) = None ->
   Q (Return tt)
     (afterUpdateProgress env site (snapshotOf env cid st p t s f k err) w)) ->
  wp (updateProgress env site cid st p t s f k err) Q w.
Proof.
  intros He Hok. unfold wp. rewrite updateProgress_run.
  destruct (fault env (CallJobProgress site)); auto.
Qed.

Lemma wp_logBroadcastOutcome env i input (Q : Result Log.t -> World -> Prop) w :
  (forall e, fault env (CallLogOutcome i (Log.status input)) = Some e ->
             Q (Throw e) w) ->
  (fault env (CallLogOutcome i (Log.status input)) = None ->
   Q (Return input) (add_log input w)) ->
  wp (logBroadcastOutcome env i input) Q w.
Proof.
  intros He Hok. unfold wp. rewrite logBroadcastOutcome_run.
  destruct (fault env _); auto.
Qed.

Lemma wp_sendMessageToRecipient env i r text (Q : Result unit -> World -> Prop) w :
  (forall res evs,
      (sendMessageToRecipient env i r text w).1 = res ->
      floodSleepTotal evs = 0%Z ->
      Forall (fun e => e = EvGetInputEntity r \/ e = EvSendMessage r text) evs ->
      Q res (add_events evs w)) ->
  wp (sendMessageToRecipient env i r text) Q w.
Proof.
  intros H. destruct (sendMessageToRecipient_run env i r text w) as (evs & E & Hs & Hall).
  unfold wp. destruct (sendMessageToRecipient env i r text w) as [res w1] eqn:Erun.
  simpl in E. subst w1. now apply H.
Qed.

End Helpers.

(** Symbolic execution through the helpers and the branches. *)
Ltac wp_run1 :=
  first
    [ wp_step
    | lazymatch goal with
      | |- wp (Broadcast.logBroadcastOutcome _ _ _) _ _ =>
          apply wp_logBroadcastOutcome; [intros ? ? | intros ?]
      | |- wp (Handler.updateProgress _ _ _ _ _ _ _ _ _ _) _ _ =>
          apply wp_updateProgress; [intros ? ? | intros ?]
      | |- wp (if ?b then _ else _) _ _ => destruct b eqn:?
      | |- wp (match ?x with Some _ => _ | None => _ end) _ _ => destruct x eqn:?
      end ];
  cbv beta iota.

Ltac wp_run := repeat wp_run1.

(** Turn [m s = (r, s')] and a goal about [r], [f'] and [w'] into a
    weakest-precondition goal about [m]. *)
Ltac wp_of Hrun res f' w' :=
  pattern res, f', w';
  match goal with
  | |- ?P res f' w' =>
      refine (wp_elim _ (fun r s' => P r s'.1 s'.2) _ _ _ _ Hrun)
  end;
  clear Hrun.


(** ** Error Classifier *)

Section ClassifierFacts.
Import Str Classifier.

Lemma classify_flood (err : JsError) :
  contains (errorText err) "FLOOD_WAIT" ->
  classifyTelegramError err
  = mkClassification FLOOD_WAIT false true (Some (waitOf (errorText err))).
Proof.
  intros H. apply includes_spec in H. unfold classifyTelegramError, waitOf.
  now rewrite H.
Qed.

(** C5, as stated, fails: a text that names none of the six kinds is not
    always classified [UNKNOWN]. *)
Lemma classify_other_text_not_unknown :
  let err := Js.Error "AUTH_KEY_UNREGISTERED" in
  namesNoKind (errorText err) /\
  classifyTelegramError err = mkClassification SESSION_EXPIRED false false None /\
  type (classifyTelegramError err) <> UNKNOWN.
Proof.
  cbv zeta. split; [|split; [reflexivity | discriminate]].
  unfold namesNoKind. rewrite <- !includes_false. repeat split; reflexivity.
Qed.

Example classify_flood_42 :
  classifyTelegramError
    (Js.Error "Failed to send message to @a: FLOOD_WAIT_42 (caused by x)")
  = mkClassification FLOOD_WAIT false true (Some 42%N).
Proof. vm_compute. reflexivity. Qed.

(** A text naming two kinds gets the first one tested, here the throttle
    signal and not the permanent kind. *)
Example classify_two_kinds :
  classifyTelegramError (Js.Error "PEER_ID_INVALID after FLOOD_WAIT_7")
  = mkClassification FLOOD_WAIT false true (Some 7%N).
Proof. reflexivity. Qed.

(** C5 (amended): [classifyTelegramError] depends on the error text only
    and tests it against the markers in a fixed order, the first marker
    found deciding: [FLOOD_WAIT] (not permanent, flood wait, with the
    seconds read from the text or 30), [PEER_ID_INVALID],
    [USER_RESTRICTED], [USER_IS_BOT] (permanent), [SESSION_EXPIRED] or
    its alias [AUTH_KEY_UNREGISTERED] (not permanent),
    [CHAT_WRITE_FORBIDDEN] (permanent); a text with none of the seven
    markers is [UNKNOWN], not permanent. *)
Theorem classifyTelegramError_taxonomy (err : JsError) :
  let text := errorText err in
  let c := classifyTelegramError err in
  (forall err', errorText err' = text -> classifyTelegramError err' = c) /\
  (contains text "FLOOD_WAIT" ->
     c = mkClassification FLOOD_WAIT false true (Some (waitOf text))) /\
  (~ contains text "FLOOD_WAIT" ->
     (contains text "PEER_ID_INVALID" ->
        c = mkClassification PEER_ID_INVALID true false None) /\
     (~ contains text "PEER_ID_INVALID" ->
        (contains text "USER_RESTRICTED" ->
           c = mkClassification USER_RESTRICTED true false None) /\
        (~ contains text "USER_RESTRICTED" ->
           (contains text "USER_IS_BOT" ->
              c = mkClassification USER_IS_BOT true false None) /\
           (~ contains text "USER_IS_BOT" ->
              (contains text "SESSION_EXPIRED" \/
               contains text "AUTH_KEY_UNREGISTERED" ->
                 c = mkClassification SESSION_EXPIRED false false None) /\
              (~ contains text "SESSION_EXPIRED" ->
               ~ contains text "AUTH_KEY_UNREGISTERED" ->
                 (contains text "CHAT_WRITE_FORBIDDEN" ->
                    c = mkClassification CHAT_WRITE_FORBIDDEN true false None) /\
                 (~ contains text "CHAT_WRITE_FORBIDDEN" ->
                    c = mkClassification UNKNOWN false false None)))))).
Proof.
  cbv zeta. split.
  { intros err' H. unfold classifyTelegramError. now rewrite H. }
  split; [apply classify_flood |].
  unfold classifyTelegramError. rewrite <- !includes_false, <- !includes_spec.
  intros ->. split; [now intros -> |]. intros ->.
  split; [now intros -> |]. intros ->.
  split; [now intros -> |]. intros ->.
  split; [now intros [-> | ->]; rewrite ?orb_true_r |]. intros -> ->.
  split; now intros ->.
Qed.

(** The taxonomy theorem at an error naming [USER_IS_BOT] only. *)
Lemma classifyTelegramError_taxonomy_witness :
  classifyTelegramError (Js.Error "Failed to send message to 42: USER_IS_BOT")
  = mkClassification USER_IS_BOT true false None.
Proof.
  pose proof (classifyTelegramError_taxonomy
                (Js.Error "Failed to send message to 42: USER_IS_BOT")) as H.
  cbv zeta in H. destruct H as (_ & _ & H).
  rewrite <- !includes_false, <- !includes_spec in H.
  destruct (H eq_refl) as [_ H1].
  destruct (H1 eq_refl) as [_ H2].
  destruct (H2 eq_refl) as [H3 _].
  exact (H3 eq_refl).
Defined.

End ClassifierFacts.

(** ** Numbers *)

Section Numbers.
Import Num Handler.

Lemma Qgtb_spec (a b : Q) : Qgtb a b = true <-> (b < a)%Q.
Proof.
  unfold Qgtb. rewrite negb_true_iff. split.
  - intros H. apply Qnot_le_lt. intros Hle.
    apply Qle_bool_iff in Hle. congruence.
  - intros H. destruct (Qle_bool a b) eqn:E; [|reflexivity].
    apply Qle_bool_iff in E. exfalso. now apply (Qlt_not_le _ _ H).
Qed.

Lemma num_pos (n : nat) : (0 < n)%nat -> (0 < num n)%Q.
Proof. intros H. unfold num, Qlt. simpl. lia. Qed.

(** More than half of the attempted sends failed exactly when there are
    more failed than sent recipients. *)
Lemma failureRate_above_threshold (sent failed : nat) :
  (failureThreshold < failureRate sent failed)%Q <-> (sent < failed)%nat.
Proof.
  unfold failureRate, failureThreshold.
  destruct (0 <? sent + failed)%nat eqn:E.
  - apply Nat.ltb_lt in E. pose proof (num_pos _ E) as Hpos.
    destruct (Nat.lt_ge_cases sent failed) as [Hlt | Hge].
    + split; [intros _; exact Hlt | intros _].
      apply Qlt_shift_div_l; [exact Hpos |].
      unfold num, Qlt. simpl. lia.
    + split; [|lia]. intros H. exfalso. apply (Qlt_not_le _ _ H).
      apply Qle_shift_div_r; [exact Hpos |].
      unfold num, Qle. simpl. lia.
  - apply Nat.ltb_ge in E. split; [|lia].
    intros H. exfalso. revert H. unfold Qlt. simpl. lia.
Qed.

Lemma progressOf_full (n : nat) : (0 < n)%nat -> progressOf n n = 100%Z.
Proof.
  intros H. unfold progressOf. apply Nat.ltb_lt in H as E. rewrite E.
  unfold Math_round.
  assert (Heq : (num n / num n * 100 + (1 # 2) == 201 # 2)%Q).
  { pose proof (num_pos _ H) as Hpos. field. intros Hz. rewrite Hz in Hpos.
    now apply (Qlt_irrefl 0). }
  now rewrite Heq.
Qed.

Lemma progressOf_zero (p : nat) : progressOf p 0 = 0%Z.
Proof. reflexivity. Qed.

(** A rounded number is within a half of the number. *)
Lemma Math_round_near (x : Q) :
  (x - 1 < inject_Z (Math_round x) < x + 1)%Q.
Proof.
  unfold Math_round.
  pose proof (Qfloor_le (x + (1 # 2))) as Hle.
  pose proof (Qlt_floor (x + (1 # 2))) as Hlt.
  destruct x as [p q].
  set (F := Qfloor ((p # q) + (1 # 2))) in *. clearbody F.
  unfold Qlt, Qle, Qplus, Qminus, Qopp, inject_Z in *. cbn in *. lia.
Qed.

(** The percentage reported is within one of the exact percentage. *)
Lemma progressOf_near (k n : nat) :
  (0 < n)%nat ->
  (100 * Z.of_nat k - Z.of_nat n < Z.of_nat n * progressOf k n
   < 100 * Z.of_nat k + Z.of_nat n)%Z.
Proof.
  intros Hn. unfold progressOf. apply Nat.ltb_lt in Hn as E. rewrite E.
  pose proof (Math_round_near (num k / num n * 100)) as H.
  set (p := Math_round (num k / num n * 100)) in *. clearbody p.
  destruct n as [|n']; [lia |].
  unfold num in H. rewrite Nat2Z.inj_succ in *.
  set (N := Z.succ (Z.of_nat n')) in *.
  assert (HN : (0 < N)%Z) by (unfold N; lia).
  clearbody N. destruct N as [|N|N]; try lia.
  unfold Qlt, Qle, Qplus, Qminus, Qopp, Qmult, Qdiv, Qinv, inject_Z in H.
  cbn in H. nia.
Qed.

Lemma failureRate_le_1 (sent failed : nat) : (failureRate sent failed <= 1)%Q.
Proof.
  unfold failureRate. destruct (0 <? sent + failed)%nat eqn:E; [|discriminate].
  apply Nat.ltb_lt in E. apply Qle_shift_div_r; [now apply num_pos |].
  unfold num, Qle. simpl. lia.
Qed.

(** The rounded percentage of a rate above the threshold. *)
Lemma failureRate_percent (sent failed : nat) :
  (failureThreshold < failureRate sent failed)%Q ->
  (50 <= Math_round (failureRate sent failed * 100) <= 100)%Z.
Proof.
  intros Hgt. pose proof (failureRate_le_1 sent failed) as Hle.
  unfold failureThreshold in Hgt. set (rate := failureRate sent failed) in *.
  unfold Math_round. split.
  - change 50%Z with (Qfloor 50). apply Qfloor_resp_le.
    apply Qle_trans with ((5 # 10) * 100 + 0)%Q; [discriminate |].
    apply Qplus_le_compat; [|discriminate].
    apply Qmult_le_compat_r; [now apply Qlt_le_weak | discriminate].
  - change 100%Z with (Qfloor (201 # 2)). apply Qfloor_resp_le.
    apply Qle_trans with (1 * 100 + (1 # 2))%Q; [|discriminate].
    apply Qplus_le_compat; [|apply Qle_refl].
    apply Qmult_le_compat_r; [exact Hle | discriminate].
Qed.

End Numbers.

(** ** Pacing Controller *)

Section Pacing.
Import Num AntiSpam.
Local Open Scope R_scope.

Lemma getBaseDelay_pos (svc : AntiSpamService) : 0 < getBaseDelay svc.
Proof.
  unfold getBaseDelay, BASE_DELAY_MS.
  destruct (_ =? 0)%Z; [lra |]. destruct (_ <? 7)%Z; lra.
Qed.

(** The base delay by account age (in days). *)
Lemma getBaseDelay_by_age (age : Z) (fc sc : nat) :
  getBaseDelay (mkAntiSpam (Some age) fc sc)
  = if (age =? 0)%Z then 1000
    else if (age <? 7)%Z then 750
    else 500.
Proof.
  unfold getBaseDelay, BASE_DELAY_MS. cbn.
  destruct (age =? 0)%Z; [lra |]. destruct (age <? 7)%Z; lra.
Qed.

Lemma Math_round_R_le (x y : R) : x <= y -> (Math_round_R x <= Math_round_R y)%Z.
Proof. intros H. unfold Math_round_R. apply Zfloor_le. lra. Qed.

(** C6. Over the reals, [calculateDelay] always lies between 0 and
    [MAX_DELAY_MS] = 5000; and for a fixed account age, flood-wait flag
    and jitter draw in [0, 1], a pacing state with a higher failure rate
    gets a delay at least as long. *)
Theorem calculateDelay_bounded_and_monotone :
  (forall svc isFloodWait random,
      (0 <= calculateDelay svc isFloodWait random <= MAX_DELAY_MS)%Z) /\
  (forall age f1 s1 f2 s2 isFloodWait random,
      0 <= random <= 1 ->
      (failureRate (mkAntiSpam age f1 s1) <= failureRate (mkAntiSpam age f2 s2))%Q ->
      (calculateDelay (mkAntiSpam age f1 s1) isFloodWait random
       <= calculateDelay (mkAntiSpam age f2 s2) isFloodWait random)%Z).
Proof.
  split.
  - intros svc isFloodWait random. unfold calculateDelay, MAX_DELAY_MS. lia.
  - intros age f1 s1 f2 s2 isFloodWait random Hu Hrate.
    unfold calculateDelay.
    apply Z.min_le_compat_r, Z.max_le_compat_r, Math_round_R_le.
    set (base := getBaseDelay (mkAntiSpam age f1 s1)).
    assert (Hbase : getBaseDelay (mkAntiSpam age f2 s2) = base) by reflexivity.
    rewrite Hbase.
    assert (Hpos : 0 < base) by apply getBaseDelay_pos.
    apply Qle_Rle in Hrate.
    set (r1 := Q2R (failureRate (mkAntiSpam age f1 s1))) in *.
    set (r2 := Q2R (failureRate (mkAntiSpam age f2 s2))) in *.
    assert (Hpow : Rpower BACKOFF_MULTIPLIER (Rmax 0 r1)
                   <= Rpower BACKOFF_MULTIPLIER (Rmax 0 r2)).
    { apply Rle_Rpower; [unfold BACKOFF_MULTIPLIER; lra |].
      apply Rmax_lub; [apply Rmax_l |].
      apply Rle_trans with r2; [exact Hrate | apply Rmax_r]. }
    set (p1 := Rpower BACKOFF_MULTIPLIER (Rmax 0 r1)) in *.
    set (p2 := Rpower BACKOFF_MULTIPLIER (Rmax 0 r2)) in *.
    unfold JITTER_PERCENT.
    assert (Hd : base * p1 <= base * p2) by (apply Rmult_le_compat_l; lra).
    destruct isFloodWait; nra.
Qed.

(** The monotonicity half at two concrete pacing states: after one
    success (rate 0) and after one failure (rate 1). *)
Lemma calculateDelay_monotone_witness :
  (calculateDelay (mkAntiSpam (Some 3%Z) 0 1) false (5 / 10)
   <= calculateDelay (mkAntiSpam (Some 3%Z) 1 0) false (5 / 10))%Z.
Proof.
  destruct calculateDelay_bounded_and_monotone as [_ Hmono].
  apply Hmono; [lra |].
  unfold Qle. vm_compute. discriminate.
Defined.

End Pacing.

(** ** Campaign store *)

Section CampaignStore.
Import WorldOps Broadcast.

Lemma updateCampaignStatus_run env site input w :
  updateCampaignStatus env site input w
  = match
      (match u_metadata input with
       | Some _ => fault env (CallSelectMetadata site)
       | None => None
       end),
      fault env (CallUpdateCampaign site),
      broadcast_campaigns w !! u_campaignId input
    with
    | Some e, _, _ => (Throw e, w)
    | None, Some e, _ => (Throw e, w)
    | None, None, None =>
        (Throw (NotFoundError ("Campaign " +:+ u_campaignId input +:+ " not found")), w)
    | None, None, Some row =>
        (Return (updatedRow input row),
         set_campaigns <[u_campaignId input := updatedRow input row]> w)
    end.
Proof.
  unfold updateCampaignStatus, updatedRow, bind, rejects, get, modify, ret, throw.
  destruct (u_metadata input) as [patch|];
    [destruct (fault env (CallSelectMetadata site)); [reflexivity |] |];
    cbv beta iota;
    destruct (fault env (CallUpdateCampaign site));
    destruct (broadcast_campaigns w !! u_campaignId input) eqn:E;
    cbv beta iota; rewrite ?E; reflexivity.
Qed.

(** Either the call throws and changes nothing, or the row exists and is
    overwritten. *)
Lemma updateCampaignStatus_cases env site input w :
  (exists e, updateCampaignStatus env site input w = (Throw e, w)) \/
  (exists row,
      broadcast_campaigns w !! u_campaignId input = Some row /\
      updateCampaignStatus env site input w
      = (Return (updatedRow input row),
         set_campaigns <[u_campaignId input := updatedRow input row]> w)).
Proof.
  rewrite updateCampaignStatus_run.
  destruct (match u_metadata input with Some _ => _ | None => _ end);
    [left; eauto |].
  destruct (fault env (CallUpdateCampaign site)); [left; eauto |].
  destruct (broadcast_campaigns w !! u_campaignId input) as [row|];
    [right; eauto | left; eauto].
Qed.

Lemma updateCampaignStatus_ok env site input w row :
  broadcast_campaigns w !! u_campaignId input = Some row ->
  fault env (CallSelectMetadata site) = None ->
  fault env (CallUpdateCampaign site) = None ->
  updateCampaignStatus env site input w
  = (Return (updatedRow input row),
     set_campaigns <[u_campaignId input := updatedRow input row]> w).
Proof.
  intros Hrow Hsel Hupd. rewrite updateCampaignStatus_run, Hsel, Hupd, Hrow.
  now destruct (u_metadata input).
Qed.

(** The keys of the patch win, the others keep their stored value. *)
Lemma spread_lookup (existing patch : gmap string MetaValue) (k : string) :
  spread existing patch !! k
  = match patch !! k with
    | Some v => Some v
    | None => existing !! k
    end.
Proof.
  unfold spread. destruct (patch !! k) as [v|] eqn:E.
  - now apply lookup_union_Some_l.
  - now apply lookup_union_r.
Qed.

(** C8, first half: with a metadata patch (and the row present, the two
    queries succeeding) the stored metadata is merged key by key: a key
    of the patch takes the patch's value, any other key keeps the value
    it had. *)
Lemma updateCampaignStatus_merges_patch env site input w row patch :
  broadcast_campaigns w !! u_campaignId input = Some row ->
  u_metadata input = Some patch ->
  fault env (CallSelectMetadata site) = None ->
  fault env (CallUpdateCampaign site) = None ->
  exists row' w',
    updateCampaignStatus env site input w = (Return row', w') /\
    broadcast_campaigns w' !! u_campaignId input = Some row' /\
    Campaign.status row' = u_status input /\
    (forall k v, patch !! k = Some v -> Campaign.metadata row' !! k = Some v) /\
    (forall k, patch !! k = None ->
               Campaign.metadata row' !! k = Campaign.metadata row !! k).
Proof.
  intros Hrow Hpatch Hsel Hupd.
  exists (updatedRow input row),
         (set_campaigns <[u_campaignId input := updatedRow input row]> w).
  split; [now apply updateCampaignStatus_ok |].
  split; [cbn; apply lookup_insert_eq |].
  split; [reflexivity |].
  unfold updatedRow. rewrite Hpatch. cbn.
  split; intros k; [intros v|]; intros Hk; now rewrite spread_lookup, Hk.
Qed.

Lemma updateCampaignStatus_merges_patch_witness :
  exists row' w',
    updateCampaignStatus (Fixture.env Fixture.noFault) Catch
      (mkUpdate "c1" CampaignStatus.failed None
         (Some {[ "error" := JString "boom" ]})) Fixture.world
    = (Return row', w') /\
    Campaign.metadata row' !! "retry_count" = Some (JNumber 1) /\
    Campaign.metadata row' !! "error" = Some (JString "boom").
Proof.
  destruct (updateCampaignStatus_merges_patch (Fixture.env Fixture.noFault) Catch
              (mkUpdate "c1" CampaignStatus.failed None
                 (Some {[ "error" := JString "boom" ]}))
              Fixture.world
              (Campaign.mk CampaignStatus.scheduled None
                 {[ "retry_count" := JNumber 1 ]})
              {[ "error" := JString "boom" ]}
              eq_refl eq_refl eq_refl eq_refl)
    as (row' & w' & Hrun & _ & _ & Hin & Hout).
  exists row', w'. split; [exact Hrun |]. split.
  - rewrite (Hout "retry_count" eq_refl). reflexivity.
  - apply Hin. reflexivity.
Defined.

(** Without a patch the stored metadata is replaced by the empty object,
    whatever it held. *)
Lemma updateCampaignStatus_without_patch env site input w row :
  broadcast_campaigns w !! u_campaignId input = Some row ->
  u_metadata input = None ->
  fault env (CallUpdateCampaign site) = None ->
  exists row' w',
    updateCampaignStatus env site input w = (Return row', w') /\
    broadcast_campaigns w' !! u_campaignId input = Some row' /\
    Campaign.metadata row' = ∅.
Proof.
  intros Hrow Hpatch Hupd.
  exists (updatedRow input row),
         (set_campaigns <[u_campaignId input := updatedRow input row]> w).
  rewrite updateCampaignStatus_run, Hpatch, Hupd, Hrow.
  split; [reflexivity |]. split; [cbn; apply lookup_insert_eq |].
  unfold updatedRow. now rewrite Hpatch.
Qed.

(** C8, second half, at a concrete call: a status update without a
    metadata patch on a campaign whose metadata holds [retry_count]
    leaves the campaign with empty metadata, so the stored metadata is
    not left unchanged. *)
Theorem updateCampaignStatus_no_patch_wipes_metadata :
  let input := mkUpdate "c1" CampaignStatus.completed None None in
  let run := updateCampaignStatus (Fixture.env Fixture.noFault) Terminal input
               Fixture.world in
  Campaign.metadata <$> (broadcast_campaigns Fixture.world !! "c1")
  = Some {[ "retry_count" := JNumber 1 ]} /\
  (exists row, run.1 = Return row) /\
  Campaign.metadata <$> (broadcast_campaigns run.2 !! "c1") = Some ∅ /\
  Campaign.metadata <$> (broadcast_campaigns run.2 !! "c1")
  <> Campaign.metadata <$> (broadcast_campaigns Fixture.world !! "c1").
Proof.
  cbv zeta. split; [reflexivity |]. split; [eexists; reflexivity |].
  split; [reflexivity |].
  intros H. apply (f_equal (fun o => (.!! "retry_count") <$> o)) in H.
  vm_compute in H. discriminate.
Qed.

End CampaignStore.

(** ** Progress Reporter *)

Section ProgressReporter.
Import WorldOps Progress.

(** C9. None of the three operations of the Progress Reporter throws,
    whatever Redis does: [saveBroadcastProgress] returns the snapshot it
    built, [readBroadcastProgress] returns [null] when the store rejects
    or when the stored text does not parse, and [clearBroadcastProgress]
    returns. *)
Theorem progress_reporter_never_throws env site campaignId snapshot updated_at w :
  (exists w',
      saveBroadcastProgress env site campaignId snapshot updated_at w
      = (Return
           (Snapshot.mk campaignId (Snapshot.status snapshot)
              (Snapshot.progress snapshot) (Snapshot.processed snapshot)
              (Snapshot.total snapshot) (Snapshot.sent snapshot)
              (Snapshot.failed snapshot) (Snapshot.skipped snapshot)
              (Snapshot.error snapshot)
              (default (toISOString env (Date_now env)) updated_at)),
         w')) /\
  (exists r,
      readBroadcastProgress env campaignId w = (Return r, w) /\
      (forall e, fault env CallRedisGet = Some e -> r = None) /\
      (forall ttl raw e,
          redis w !! buildKey campaignId = Some (ttl, raw) ->
          JSON_parse env raw = Throw e -> r = None)) /\
  (exists w', clearBroadcastProgress env campaignId w = (Return tt, w')).
Proof.
  split; [|split].
  - unfold saveBroadcastProgress, withRedisClient, try_catch, bind, rejects,
      modify, ret, throw.
    destruct updated_at; destruct (fault env (CallRedisSetEx site));
      eexists; reflexivity.
  - unfold readBroadcastProgress, withRedisClient, try_catch, bind, rejects,
      get, ret, throw.
    destruct (fault env CallRedisGet) as [e0|].
    + exists None. repeat split; auto.
    + cbv beta iota.
      destruct (redis w !! buildKey campaignId) as [[ttl [|c raw]]|] eqn:E.
      * exists None. repeat split; auto.
      * destruct (JSON_parse env (String c raw)) as [s|e1] eqn:Ep.
        -- exists (Some s). repeat split; [discriminate |].
           intros ttl' raw' e' [= <- <-]. congruence.
        -- exists None. repeat split; auto.
      * exists None. repeat split; auto.
  - unfold clearBroadcastProgress, withRedisClient, try_catch, bind, rejects,
      modify, ret, throw.
    destruct (fault env CallRedisDel); eexists; reflexivity.
Qed.

End ProgressReporter.

(** ** The text the loop classifies *)

Section WrappedText.
Import Str Classifier Handler Transport Trace.

Lemma append_assoc (a b c : string) : (a +:+ b) +:+ c = a +:+ (b +:+ c).
Proof.
  induction a as [|x a IH]; [reflexivity |].
  change (String x ((a +:+ b) +:+ c) = String x (a +:+ (b +:+ c))).
  now rewrite IH.
Qed.

(** A prefix that does not hold [c] is matched before [c] or not at
    all. *)
Lemma dropPrefix_before (p a t rest : string) (c : ascii) :
  ~ In c (list_ascii_of_string p) ->
  dropPrefix p (a +:+ String c t) = Some rest ->
  exists rest', dropPrefix p a = Some rest' /\ rest = rest' +:+ String c t.
Proof.
  revert a. induction p as [|x p IH]; intros a Hc.
  - cbn. intros [= <-]. now exists a.
  - destruct a as [|y a].
    + change ("" +:+ String c t) with (String c t). cbn [dropPrefix].
      destruct (Ascii.eqb_spec x c) as [->|_]; [|discriminate].
      exfalso. apply Hc. now left.
    + change (String y a +:+ String c t) with (String y (a +:+ String c t)).
      cbn [dropPrefix]. destruct (Ascii.eqb x y); [|discriminate].
      apply IH. intros Hin. apply Hc. now right.
Qed.

(** A match of the pattern does not run over a character that is neither
    a digit nor one of [FLOOD_WAIT_]. *)
Lemma floodWaitAt_before (a t : string) (c : ascii) :
  isDigit c = false ->
  ~ In c (list_ascii_of_string "FLOOD_WAIT_") ->
  floodWaitAt a = None ->
  floodWaitAt (a +:+ String c t) = None.
Proof.
  intros Hd Hc Ha. unfold floodWaitAt in *.
  destruct (dropPrefix "FLOOD_WAIT_" (a +:+ String c t)) as [rest|] eqn:E;
    [|reflexivity].
  apply dropPrefix_before in E as (rest' & E' & ->); [|exact Hc].
  rewrite E' in Ha. destruct rest' as [|d rest'].
  - change ("" +:+ String c t) with (String c t). cbn [takeDigits].
    now rewrite Hd.
  - change (String d rest' +:+ String c t) with (String d (rest' +:+ String c t)).
    cbn [takeDigits] in *. destruct (isDigit d); [discriminate | reflexivity].
Qed.

Lemma matchFloodWait_before (a t : string) (c : ascii) :
  isDigit c = false ->
  ~ In c (list_ascii_of_string "FLOOD_WAIT_") ->
  matchFloodWait a = None ->
  matchFloodWait (String c t) = None ->
  matchFloodWait (a +:+ String c t) = None.
Proof.
  intros Hd Hc Ha Ht. induction a as [|x a IH]; [exact Ht |].
  change (String x a +:+ String c t) with (String x (a +:+ String c t)).
  cbn [matchFloodWait] in *.
  destruct (floodWaitAt (String x a)) eqn:E; [discriminate |].
  change (String x (a +:+ String c t)) with (String x a +:+ String c t).
  rewrite (floodWaitAt_before _ _ _ Hd Hc E). now apply IH.
Qed.

(** The text the loop classifies has a wait exactly when the recipient's
    name or the client's message has one. *)
Lemma wrapped_without_seconds (r : string) (m : JsError) :
  ~ hasFloodWaitSeconds r ->
  ~ hasFloodWaitSeconds (message m) ->
  ~ hasFloodWaitSeconds (errorText (wrapped r m)).
Proof.
  rewrite <- !matchFloodWait_None. intros Hr Hm.
  change (errorText (wrapped r m))
    with ("Failed to send message to " +:+ (r +:+ String ":" (String " " (message m)))).
  transitivity (matchFloodWait (r +:+ String ":" (String " " (message m))));
    [reflexivity |].
  apply matchFloodWait_before; [reflexivity | | exact Hr |].
  - cbn. intuition discriminate.
  - transitivity (matchFloodWait (message m)); [reflexivity | exact Hm].
Qed.

Lemma wrapped_contains (r : string) (m : JsError) (needle : string) :
  contains (message m) needle -> contains (errorText (wrapped r m)) needle.
Proof.
  intros (a & b & H). exists ("Failed to send message to " +:+ r +:+ ": " +:+ a), b.
  change (errorText (wrapped r m))
    with ("Failed to send message to " +:+ r +:+ ": " +:+ message m).
  rewrite H. now rewrite !append_assoc.
Qed.

(** A transport error reaches the per-recipient [catch] wrapped. *)
Lemma transportFails_sendThrows env i r text m :
  transportFails env i r m -> sendThrows env i r text (wrapped r m).
Proof.
  unfold transportFails, sendThrows, sendMessageToRecipient, wrapped, try_catch,
    bind, rejects, WorldOps.emit, modify, ret, throw.
  intros H w. destruct (startsWith r "@").
  - destruct H as [-> | [-> ->]]; reflexivity.
  - rewrite H. reflexivity.
Qed.

End WrappedText.

(** ** One recipient *)

Section Iteration.
Import Classifier WorldOps Broadcast Progress Handler.


(** A flood-wait classification is exactly the kind [FLOOD_WAIT], and the
    wait it carries is the one read from the error text. *)
Lemma classify_flood_wait_seconds (e : JsError) :
  isFloodWait (classifyTelegramError e) = true ->
  type (classifyTelegramError e) = FLOOD_WAIT /\
  secondsOf (classifyTelegramError e) = Z.of_N (waitOf (errorText e)).
Proof.
  destruct (Str.includes (errorText e) "FLOOD_WAIT") eqn:E.
  - apply includes_spec in E. rewrite (classify_flood _ E). now intros _.
  - unfold classifyTelegramError. rewrite E.
    repeat match goal with
           | |- context [if ?b then _ else _] => destruct b
           end; discriminate.
Qed.



(** C10 (amended). The classifier gives a wait of 30 seconds to every
    error whose text has [FLOOD_WAIT] but no [FLOOD_WAIT_] followed by
    digits.  In the loop the text classified is not the client's message
    alone but [Failed to send message to <recipient>: <message>]: when the
    client's error has [FLOOD_WAIT] in its message and neither that
    message nor the recipient's name has [FLOOD_WAIT_] followed by digits,
    the error caught is classified as a flood wait of 30 seconds, and the
    turn of the loop (which logs the failed outcome) ends by sleeping
    30000 ms, its only flood-wait sleep. *)
Theorem flood_wait_without_seconds_waits_30 env job r f w m res f' w' :
  let flood30 := mkClassification FLOOD_WAIT false true (Some 30%N) in
  (forall e, contains (errorText e) "FLOOD_WAIT" ->
             ~ hasFloodWaitSeconds (errorText e) ->
             classifyTelegramError e = flood30) /\
  (contains (message m) "FLOOD_WAIT" ->
   ~ hasFloodWaitSeconds (message m) ->
   ~ hasFloodWaitSeconds r ->
   classifyTelegramError (Trace.wrapped r m) = flood30 /\
   (Transport.transportFails env (processed f + 1) r m ->
    fault env (CallLogOutcome (processed f + 1) LogStatus.failed) = None ->
    iteration env job r (f, w) = (res, (f', w')) ->
    exists evs,
      events w' = events w ++ evs ++ [EvFloodSleep 30000] /\
      floodSleepTotal evs = 0%Z)).
Proof.
  intros flood30.
  assert (Hpure : forall e, contains (errorText e) "FLOOD_WAIT" ->
                            ~ hasFloodWaitSeconds (errorText e) ->
                            classifyTelegramError e = flood30).
  { intros e Hflood Hnone. rewrite (classify_flood _ Hflood). unfold waitOf.
    apply matchFloodWait_None in Hnone. now rewrite Hnone. }
  split; [exact Hpure |]. intros Hflood Hnone Hr.
  assert (Hc : classifyTelegramError (Trace.wrapped r m) = flood30).
  { apply Hpure; [now apply wrapped_contains | now apply wrapped_without_seconds]. }
  split; [exact Hc |]. intros Hfail Hlog Hrun.
  pose proof (transportFails_sendThrows env (processed f + 1) r (text job) m Hfail)
    as Hsend.
  wp_of Hrun res f' w'.
  unfold iteration. wp_run.
  apply wp_sendMessageToRecipient. intros res0 evs Hres Hevs _.
  rewrite Hsend in Hres. subst res0. cbv beta iota.
  unfold onSendError. rewrite Hc. unfold flood30.
  cbn [processed incr_processed isPermanent].
  change (mustSleep (mkClassification FLOOD_WAIT false true (Some 30%N)))
    with (Some 30000%Z).
  wp_run; cbn [Log.status] in *; try congruence.
  all: cbn; rewrite ?afterUpdateProgress_events; cbn.
  all: exists (EvPacingDelay (antiSpam f) :: evs).
  all: split; [now rewrite <- !app_assoc | exact Hevs].
Qed.

(** The amended C10 at a flood-wait error without seconds, sent to
    [@ann]. *)
Lemma flood_wait_without_seconds_waits_30_witness :
  let m := mkError (Some "FLOOD_WAIT") "FLOOD_WAIT" in
  let run := iteration (Fixture.env (Fixture.firstSendFails "FLOOD_WAIT"))
               (Fixture.job ["@ann"]) "@ann" (Fixture.frame, Fixture.world) in
  classifyTelegramError (Js.Error "Failed to send message to @ann: FLOOD_WAIT")
  = mkClassification FLOOD_WAIT false true (Some 30%N) /\
  exists evs, events run.2.2 = evs ++ [EvFloodSleep 30000].
Proof.
  intros m run.
  assert (Hin : contains (message m) "FLOOD_WAIT")
    by (apply includes_spec; reflexivity).
  assert (Hno : ~ hasFloodWaitSeconds (message m))
    by (apply matchFloodWait_None; reflexivity).
  assert (Hr : ~ hasFloodWaitSeconds "@ann")
    by (apply matchFloodWait_None; reflexivity).
  assert (Hrun : run = (run.1, (run.2.1, run.2.2)))
    by (destruct run as [? [? ?]]; reflexivity).
  destruct (flood_wait_without_seconds_waits_30
              (Fixture.env (Fixture.firstSendFails "FLOOD_WAIT"))
              (Fixture.job ["@ann"]) "@ann" Fixture.frame Fixture.world m
              run.1 run.2.1 run.2.2) as [_ Hloop].
  destruct (Hloop Hin Hno Hr) as [Hc Hturn].
  split; [exact Hc |].
  destruct (Hturn (or_intror (conj eq_refl eq_refl)) eq_refl Hrun) as (evs & Hev & _).
  exists (events Fixture.world ++ evs). now rewrite Hev, app_assoc.
Defined.

(** C10, as stated, fails: the client's error has [FLOOD_WAIT] in its
    message and no seconds, yet the loop does not sleep 30 seconds when
    the recipient's name supplies the digits.  For the recipient
    [@FLOOD_WAIT_5] it sleeps 5000 ms, and for [@FLOOD_WAIT_0] it does not
    sleep at all. *)
Lemma recipient_name_overrides_default_wait :
  let m := mkError (Some "FLOOD_WAIT") "FLOOD_WAIT" in
  let env := Fixture.env (Fixture.firstSendFails "FLOOD_WAIT") in
  let turn := fun r => iteration env (Fixture.job [r]) r (Fixture.frame, Fixture.world) in
  contains (message m) "FLOOD_WAIT" /\
  ~ hasFloodWaitSeconds (message m) /\
  fault env (CallSendMessage 1) = Some m /\
  floodWaitSeconds (classifyTelegramError m) = Some 30%N /\
  events (turn "@FLOOD_WAIT_5").2.2
  = [EvPacingDelay (antiSpam Fixture.frame); EvGetInputEntity "@FLOOD_WAIT_5";
     EvFloodSleep 5000] /\
  failed (turn "@FLOOD_WAIT_0").2.1 = 1 /\
  floodSleepTotal (events (turn "@FLOOD_WAIT_0").2.2) = 0%Z.
Proof.
  cbv zeta. split; [apply includes_spec; reflexivity |].
  split; [apply matchFloodWait_None; reflexivity |].
  repeat split; vm_compute; reflexivity.
Qed.

End Iteration.

(** ** The whole job *)

(** As [wp_of], for code that runs over the world alone. *)
Ltac wp_of_world Hrun res w' :=
  pattern res, w';
  match goal with
  | |- ?P res w' => refine (wp_elim _ (fun r s' => P r s') _ _ _ _ Hrun)
  end;
  clear Hrun.

Section Job.
Import Num Classifier WorldOps Broadcast Progress Handler.

Lemma startCampaign_run env cid w :
  startCampaign env cid w
  = match fault env CallStartCampaign, broadcast_campaigns w !! cid with
    | Some e, _ => (Throw e, w)
    | None, None => (Throw (NotFoundError ("Campaign " +:+ cid +:+ " not found")), w)
    | None, Some row =>
        let row' := Campaign.mk CampaignStatus.in_progress
                      (Campaign.lastSentAt row) (Campaign.metadata row) in
        (Return row', set_campaigns <[cid := row']> w)
    end.
Proof.
  unfold startCampaign, bind, rejects, get, modify, ret, throw.
  destruct (fault env CallStartCampaign); [reflexivity |].
  cbv beta iota. now destruct (broadcast_campaigns w !! cid).
Qed.

(** What a successful prologue did: the campaign exists and is now
    [in_progress], the first snapshot was written, the stored session was
    found and the client connected. *)
Lemma prologue_ok env job w sessionData w1 :
  prologue env job w = (Return sessionData, w1) ->
  storedSession env = Some sessionData /\
  exists row,
    broadcast_campaigns w !! campaignId job = Some row /\
    broadcast_campaigns w1 !! campaignId job
    = Some (Campaign.mk CampaignStatus.in_progress
              (Campaign.lastSentAt row) (Campaign.metadata row)) /\
    events w1 = events w ++ [EvConnect] /\
    progress_writes w1
    = progress_writes w
      ++ [snapshotOf env (campaignId job) ProgressStatus.initializing
            0 (length (recipients job)) 0 0 0 None].
Proof.
  intros Hrun. remember (Return sessionData) as res eqn:Hres.
  revert Hres. wp_of_world Hrun res w1.
  unfold prologue. apply wp_bind. unfold wp at 1. rewrite startCampaign_run.
  destruct (fault env CallStartCampaign); [discriminate |].
  destruct (broadcast_campaigns w !! campaignId job) as [row|] eqn:Hrow;
    [|discriminate].
  cbv beta iota zeta. unfold restoreSession. wp_run; try discriminate.
  intros [= <-]. split; [reflexivity |]. exists row.
  cbn. rewrite afterUpdateProgress_writes, afterUpdateProgress_campaigns,
    afterUpdateProgress_events. cbn.
  repeat split; try reflexivity. apply lookup_insert_eq.
Qed.

Lemma sessionOpen_snoc (evs : list Event) (e : Event) :
  sessionOpen (evs ++ [e])
  = match e with
    | EvConnect => true
    | EvDisconnect => false
    | _ => sessionOpen evs
    end.
Proof. unfold sessionOpen. rewrite fold_left_app. now destruct e. Qed.

Lemma sessionOpen_send (evs sends : list Event) r text :
  Forall (fun e => e = EvGetInputEntity r \/ e = EvSendMessage r text) sends ->
  sessionOpen (evs ++ sends) = sessionOpen evs.
Proof.
  intros H. revert evs. induction H as [|e sends He _ IH]; intros evs.
  - now rewrite app_nil_r.
  - change (e :: sends) with ([e] ++ sends). rewrite app_assoc, IH, sessionOpen_snoc.
    now destruct He as [-> | ->].
Qed.

Lemma iteration_keeps_loopInv env job r C s :
  loopInv C s -> wp (iteration env job r) (fun _ s' => loopInv C s') s.
Proof.
  destruct s as [f w]. unfold loopInv. cbn [fst snd]. intros (HC & Hopen & Hretry).
  unfold iteration. wp_run.
  apply wp_sendMessageToRecipient. intros res evs _ _ Hsends.
  destruct res as [[]|e]; cbv beta iota; [|unfold onSendError];
    wp_run; try unfold onSendError; wp_run;
    cbn [fst snd]; rewrite ?afterUpdateProgress_campaigns, ?afterUpdateProgress_events;
    cbn; rewrite ?sessionOpen_snoc, ?(sessionOpen_send _ _ _ _ Hsends), ?sessionOpen_snoc;
    repeat split; auto; intros; auto; lia.
Qed.

Lemma sendLoop_keeps_loopInv env job C s :
  loopInv C s -> wp (sendLoop env job) (fun _ s' => loopInv C s') s.
Proof.
  destruct s as [f w]. intros HI. unfold sendLoop. wp_run; [exact HI |].
  apply wp_forOf with (I := loopInv C).
  - destruct HI as (HC & Hopen & Hretry). unfold loopInv. cbn [fst snd] in *.
    rewrite afterUpdateProgress_campaigns, afterUpdateProgress_events. auto.
  - intros x s HIs. eapply wp_mono; [apply iteration_keeps_loopInv; exact HIs |].
    now intros [[]|e] s'.
  - auto.
Qed.

Lemma clearBroadcastProgress_run env cid w :
  clearBroadcastProgress env cid w
  = (Return tt,
     match fault env CallRedisDel with
     | Some _ => w
     | None => set_redis (delete (buildKey cid)) w
     end).
Proof.
  unfold clearBroadcastProgress, withRedisClient, try_catch, bind, rejects,
    modify, ret, throw.
  now destruct (fault env CallRedisDel).
Qed.

Lemma wp_updateCampaignStatus env site input (Q : Result Campaign.t -> World -> Prop) w :
  (forall e, updateCampaignStatus env site input w = (Throw e, w) -> Q (Throw e) w) ->
  (forall row,
      broadcast_campaigns w !! u_campaignId input = Some row ->
      Q (Return (updatedRow input row))
        (set_campaigns <[u_campaignId input := updatedRow input row]> w)) ->
  wp (updateCampaignStatus env site input) Q w.
Proof.
  intros Hthrow Hok. unfold wp.
  destruct (updateCampaignStatus_cases env site input w) as [[e E] | (row & Hrow & E)];
    rewrite E; auto.
Qed.

(** C1 (amended). When the body of the outer [try] throws [e] (a missing
    credential, a connect failure, an error escaping the per-recipient
    handling, ...) and the handler's own status update and job-progress
    report in the [catch] succeed, [handleBroadcastJob] marks the campaign
    [failed] with [e]'s message under [error] (the other metadata keys
    kept), writes a last snapshot of status [failed] with processed =
    total = skipped = the number of recipients and sent = failed = 0, and
    throws [e] again. *)
Theorem fatal_error_marks_campaign_failed env job w e w1 row :
  tryBody env job w = (Throw e, w1) ->
  broadcast_campaigns w1 !! campaignId job = Some row ->
  fault env (CallSelectMetadata Catch) = None ->
  fault env (CallUpdateCampaign Catch) = None ->
  fault env (CallJobProgress Catch) = None ->
  let n := length (recipients job) in
  exists w2 row',
    handleBroadcastJob env job w = (Throw e, w2) /\
    broadcast_campaigns w2 !! campaignId job = Some row' /\
    Campaign.status row' = CampaignStatus.failed /\
    Campaign.metadata row' !! "error" = Some (JString (message e)) /\
    (forall k, k <> "error" ->
               Campaign.metadata row' !! k = Campaign.metadata row !! k) /\
    progress_writes w2
    = progress_writes w1
      ++ [Snapshot.mk (campaignId job) ProgressStatus.failed (progressOf n n)
            n n 0 0 n (Some (message e)) (toISOString env (Date_now env))].
Proof.
  intros Htry Hrow Hsel Hupd Hprog n.
  unfold handleBroadcastJob, try_catch. rewrite Htry.
  unfold onJobError, bind.
  rewrite (updateCampaignStatus_ok _ _ _ _ row) by assumption.
  rewrite updateProgress_run, Hprog. unfold throw.
  eexists _, _. split; [reflexivity |].
  rewrite afterUpdateProgress_campaigns, afterUpdateProgress_writes.
  unfold updatedRow. cbn.
  split; [apply lookup_insert_eq |]. split; [reflexivity |].
  split; [|split; [|reflexivity]].
  - cbn. rewrite spread_lookup. now rewrite lookup_singleton_eq.
  - intros k Hk. cbn. rewrite spread_lookup. now rewrite lookup_singleton_ne.
Qed.

Lemma wp_clearBroadcastProgress env cid (Q : Result unit -> World -> Prop) w :
  (forall w',
      events w' = events w ->
      broadcast_campaigns w' = broadcast_campaigns w ->
      progress_writes w' = progress_writes w ->
      Q (Return tt) w') ->
  wp (clearBroadcastProgress env cid) Q w.
Proof.
  intros H. unfold wp. rewrite clearBroadcastProgress_run.
  apply H; now destruct (fault env CallRedisDel).
Qed.

(** C2 (amended). For a run that connected and went through all the
    recipients, and whose calls after the loop succeed (the disconnect,
    the status update of the terminal decision and its job-progress
    report): when the failure rate failed / (sent + failed) (0 without
    attempts) is above 0.5, the handler throws, the campaign is [failed]
    with [sent], [failed], [skipped] and [failureRate] (an integer from
    50 to 100, within one of the rate as a percentage) in its metadata
    and the last snapshot written is a [failed] one at progress 100; when
    the rate is 0.5 or below, the handler returns a successful result and
    the campaign is [completed].  Either way the session is closed. *)
Theorem failure_rate_threshold env job w sessionData w1 f w2 res w3 :
  prologue env job w = (Return sessionData, w1) ->
  sendLoop env job (initialFrame env sessionData, w1) = (Return tt, (f, w2)) ->
  fault env CallDisconnect = None ->
  fault env (CallSelectMetadata Terminal) = None ->
  fault env (CallUpdateCampaign Terminal) = None ->
  fault env (CallJobProgress Terminal) = None ->
  handleBroadcastJob env job w = (res, w3) ->
  let rate := failureRate (sent f) (failed f) in
  sessionOpen (events w3) = false /\
  ((failureThreshold < rate)%Q ->
     (exists e, res = Throw e) /\
     (exists row,
         broadcast_campaigns w3 !! campaignId job = Some row /\
         Campaign.status row = CampaignStatus.failed /\
         Campaign.metadata row !! "sent" = Some (JNumber (num (sent f))) /\
         Campaign.metadata row !! "failed" = Some (JNumber (num (failed f))) /\
         Campaign.metadata row !! "skipped" = Some (JNumber (num (skipped f))) /\
         exists percent : Z,
           Campaign.metadata row !! "failureRate"
           = Some (JNumber (inject_Z percent)) /\
           (50 <= percent <= 100)%Z /\
           (rate * 100 - 1 < inject_Z percent < rate * 100 + 1)%Q) /\
     (exists snap,
         last (progress_writes w3) = Some snap /\
         Snapshot.status snap = ProgressStatus.failed /\
         Snapshot.progress snap = 100%Z)) /\
  ((rate <= failureThreshold)%Q ->
     res = Return (mkResult (campaignId job) (sent f) (failed f) (skipped f) true) /\
     exists row,
       broadcast_campaigns w3 !! campaignId job = Some row /\
       Campaign.status row = CampaignStatus.completed).
Proof.
  intros Hpro Hloop Hdis Hsel Hupd Hprog Hrun rate.
  destruct (prologue_ok _ _ _ _ _ Hpro) as (_ & row0 & _ & Hrow1 & Hev1 & _).
  assert (Hinv : loopInv (broadcast_campaigns w1) (f, w2)).
  { refine (wp_elim _ (fun _ s' => loopInv (broadcast_campaigns w1) s') _ _ _ _ Hloop).
    apply sendLoop_keeps_loopInv. unfold loopInv, initialFrame. cbn.
    rewrite Hev1, sessionOpen_snoc. repeat split. lia. }
  destruct Hinv as (HC & Hopen & Hretry). cbn [fst snd] in *.
  assert (Hn : (sent f < failed f)%nat -> (0 < length (recipients job))%nat).
  { intros Hlt. destruct (recipients job) as [|x xs] eqn:Hrs; [|cbn; lia].
    exfalso. revert Hloop. unfold sendLoop. rewrite Hrs.
    unfold bind, getF, liftW. rewrite updateProgress_run.
    destruct (fault env (CallJobProgress SendingStart)); [discriminate |].
    cbn. intros [= <- _]. cbn in Hlt. lia. }
  assert (Hrow2 : forall evs,
             broadcast_campaigns (add_events evs w2) !! campaignId job
             = Some (Campaign.mk CampaignStatus.in_progress
                       (Campaign.lastSentAt row0) (Campaign.metadata row0))).
  { intros evs. cbn. now rewrite HC. }
  pattern res, w3. match goal with |- ?P res w3 => set (Q := P) end.
  (* the high-failure outcome, however the outer catch fares *)
  set (counters := fun M : gmap string MetaValue =>
         M !! "sent" = Some (JNumber (num (sent f))) /\
         M !! "failed" = Some (JNumber (num (failed f))) /\
         M !! "skipped" = Some (JNumber (num (skipped f))) /\
         exists percent : Z,
           M !! "failureRate" = Some (JNumber (inject_Z percent)) /\
           (50 <= percent <= 100)%Z /\
           (rate * 100 - 1 < inject_Z percent < rate * 100 + 1)%Q).
  assert (HQfail : forall e' ws row snap,
             (failureThreshold < rate)%Q ->
             sessionOpen (events ws) = false ->
             broadcast_campaigns ws !! campaignId job = Some row ->
             Campaign.status row = CampaignStatus.failed ->
             counters (Campaign.metadata row) ->
             last (progress_writes ws) = Some snap ->
             Snapshot.status snap = ProgressStatus.failed ->
             Snapshot.progress snap = 100%Z ->
             Q (Throw e') ws).
  { intros e' ws row snap Hgt Hclosed Hrow Hst Hc Hlast Hs Hp. unfold Q.
    split; [exact Hclosed |]. split.
    - intros _. split; [now exists e' |]. split; [now exists row | now exists snap].
    - intros Hle. exfalso. now apply (Qlt_not_le _ _ Hgt). }
  refine (wp_elim _ Q _ _ _ _ Hrun). clear Hrun.
  unfold handleBroadcastJob. apply wp_try_catch. unfold tryBody.
  apply wp_bind. unfold wp at 1. rewrite Hpro. cbv beta iota.
  apply wp_withLocals, wp_bind. unfold wp at 1. rewrite Hloop. cbv beta iota.
  unfold terminalDecision. fold rate.
  wp_run; [congruence | |].
  - (* more than half failed *)
    apply Qgtb_spec in Heqb as Hgt.
    apply failureRate_above_threshold in Hgt as Hlt.
    rewrite add_event_add_events.
    apply wp_updateCampaignStatus.
    { intros e Hthrow.
      erewrite updateCampaignStatus_ok in Hthrow;
        [discriminate | apply Hrow2 | exact Hsel | exact Hupd]. }
    intros row Hrow. cbn [u_campaignId] in Hrow. rewrite Hrow2 in Hrow.
    injection Hrow as <-.
    rewrite Hretry by lia.
    wp_run; [congruence |]. cbn [snd].
    unfold onJobError.
    match goal with |- wp _ _ ?ws => set (w4 := ws) end.
    assert (Hev4 : sessionOpen (events w4) = false).
    { unfold w4. rewrite afterUpdateProgress_events. cbn.
      now rewrite sessionOpen_snoc. }
    assert (Hrow4 : exists row,
               broadcast_campaigns w4 !! campaignId job = Some row /\
               Campaign.status row = CampaignStatus.failed /\
               counters (Campaign.metadata row)).
    { eexists. unfold w4. rewrite afterUpdateProgress_campaigns. cbn.
      split; [apply lookup_insert_eq |]. split; [reflexivity |].
      unfold counters, updatedRow. cbn. rewrite !spread_lookup.
      split; [reflexivity |]. split; [reflexivity |]. split; [reflexivity |].
      exists (Math_round (rate * 100)). split; [reflexivity |].
      split; [now apply failureRate_percent | apply Math_round_near]. }
    assert (Hlast4 : exists snap,
               last (progress_writes w4) = Some snap /\
               Snapshot.status snap = ProgressStatus.failed /\
               Snapshot.progress snap = 100%Z).
    { eexists. unfold w4. rewrite afterUpdateProgress_writes, last_snoc.
      split; [reflexivity |]. split; [reflexivity |].
      apply progressOf_full. auto. }
    clearbody w4.
    destruct Hrow4 as (row4 & Hrow4 & Hst4 & Hc4).
    destruct Hlast4 as (snap4 & Hlast4 & Hs4 & Hp4).
    apply wp_bind, wp_updateCampaignStatus.
    { intros e _. now apply (HQfail e w4 row4 snap4). }
    intros row Hrow. cbn [u_campaignId] in Hrow. rewrite Hrow4 in Hrow.
    injection Hrow as <-.
    assert (Hc5 : counters (Campaign.metadata
                              (updatedRow
                                 (mkUpdate (campaignId job) CampaignStatus.failed None
                                    (Some {[ "error" := JString
                                               "Broadcast failed with retryable errors; will retry" ]}))
                                 row4))).
    { unfold counters, updatedRow in *. cbn. rewrite !spread_lookup.
      rewrite !lookup_singleton_ne by discriminate. exact Hc4. }
    wp_run.
    + eapply (HQfail _ _ _ snap4);
        [exact Hgt | exact Hev4 | cbn; apply lookup_insert_eq | reflexivity
        | exact Hc5 | exact Hlast4 | exact Hs4 | exact Hp4].
    + eapply HQfail;
        [exact Hgt
        | now rewrite afterUpdateProgress_events
        | rewrite afterUpdateProgress_campaigns; cbn; apply lookup_insert_eq
        | reflexivity
        | exact Hc5
        | rewrite afterUpdateProgress_writes; apply last_snoc
        | reflexivity
        | apply progressOf_full; auto].
  - (* at most half failed *)
    assert (Hle : (rate <= failureThreshold)%Q).
    { apply Qnot_lt_le. intros Hgt. apply Qgtb_spec in Hgt. unfold rate in Hgt.
      congruence. }
    rewrite add_event_add_events.
    apply wp_updateCampaignStatus.
    { intros e Hthrow.
      erewrite updateCampaignStatus_ok in Hthrow;
        [discriminate | apply Hrow2 | exact Hsel | exact Hupd]. }
    intros row _.
    wp_run; [congruence |].
    apply wp_clearBroadcastProgress. intros w' Hev' Hcamp' _.
    wp_run. cbn [snd]. unfold Q.
    rewrite Hev', Hcamp', afterUpdateProgress_events, afterUpdateProgress_campaigns.
    cbn.
    split; [now rewrite sessionOpen_snoc |]. split.
    + intros Hgt. exfalso. now apply (Qlt_not_le _ _ Hgt).
    + intros _. split; [reflexivity |]. eexists. split; [apply lookup_insert_eq |].
      reflexivity.
Qed.

(** The amended C1 at a job whose user has no stored Telegram session. *)
Lemma fatal_error_marks_campaign_failed_witness :
  let env := Fixture.envNoSession Fixture.noFault in
  let job := Fixture.job ["@ann"; "@bob"] in
  let e := Js.Error "No Telegram session found for user" in
  exists w2 row',
    handleBroadcastJob env job Fixture.world = (Throw e, w2) /\
    broadcast_campaigns w2 !! "c1" = Some row' /\
    Campaign.status row' = CampaignStatus.failed /\
    Campaign.metadata row' !! "error"
    = Some (JString "No Telegram session found for user") /\
    Campaign.metadata row' !! "retry_count" = Some (JNumber 1).
Proof.
  intros env job e.
  assert (Htry : tryBody env job Fixture.world = (Throw e, (tryBody env job Fixture.world).2))
    by (vm_compute; reflexivity).
  assert (Hrow : broadcast_campaigns (tryBody env job Fixture.world).2 !! campaignId job
                 = Some (Campaign.mk CampaignStatus.in_progress None
                           {[ "retry_count" := JNumber 1 ]}))
    by (vm_compute; reflexivity).
  destruct (fatal_error_marks_campaign_failed env job Fixture.world e _ _
              Htry Hrow eq_refl eq_refl eq_refl)
    as (w2 & row' & Hrun & Hrow' & Hst & Herr & Hkeep & _).
  exists w2, row'. repeat split; try assumption.
  rewrite Hkeep by discriminate. reflexivity.
Defined.

(** C1, as stated, fails: with no stored session and two recipients the
    handler throws after a final [failed] snapshot whose [failed] counter
    is 0, not the number of recipients; the recipients are counted under
    [skipped]. *)
Lemma fatal_snapshot_counts_skipped_not_failed :
  let job := Fixture.job ["@ann"; "@bob"] in
  let run := handleBroadcastJob (Fixture.envNoSession Fixture.noFault) job
               Fixture.world in
  run.1 = Throw (Js.Error "No Telegram session found for user") /\
  exists snap,
    last (progress_writes run.2) = Some snap /\
    Snapshot.status snap = ProgressStatus.failed /\
    Snapshot.processed snap = length (recipients job) /\
    Snapshot.total snap = length (recipients job) /\
    Snapshot.failed snap = 0 /\
    Snapshot.failed snap <> length (recipients job) /\
    Snapshot.skipped snap = length (recipients job).
Proof.
  cbv zeta. split; [vm_compute; reflexivity |].
  eexists. split; [vm_compute; reflexivity |].
  cbn. repeat split; discriminate.
Qed.

(** The amended C2 at the spec's high-failure scenario: four recipients,
    three transient failures and one success. *)
Lemma failure_rate_threshold_witness :
  let env := Fixture.env Fixture.threeSendsFail in
  let job := Fixture.job ["@ann"; "@bob"; "@cat"; "@dan"] in
  let run := handleBroadcastJob env job Fixture.world in
  (exists e, run.1 = Throw e) /\
  sessionOpen (events run.2) = false /\
  exists row percent,
    broadcast_campaigns run.2 !! "c1" = Some row /\
    Campaign.status row = CampaignStatus.failed /\
    Campaign.metadata row !! "failed" = Some (JNumber 3) /\
    Campaign.metadata row !! "failureRate" = Some (JNumber (inject_Z percent)) /\
    (50 <= percent <= 100)%Z.
Proof.
  intros env job run.
  pose (sd := mkSession "1BVtsOK4Bu" (Some 1700000000000%Z)).
  pose (w1 := (prologue env job Fixture.world).2).
  pose (loop := sendLoop env job (initialFrame env sd, w1)).
  assert (Hpro : prologue env job Fixture.world = (Return sd, w1))
    by (vm_compute; reflexivity).
  assert (Hloop : loop = (Return tt, (loop.2.1, loop.2.2)))
    by (vm_compute; reflexivity).
  assert (Hrun : run = (run.1, run.2)) by (now destruct run).
  destruct (failure_rate_threshold env job Fixture.world sd w1 loop.2.1 loop.2.2
              run.1 run.2 Hpro Hloop eq_refl eq_refl eq_refl eq_refl Hrun)
    as (Hclosed & Hhigh & _).
  assert (Hgt : (failureThreshold < failureRate (sent loop.2.1) (failed loop.2.1))%Q).
  { apply failureRate_above_threshold. apply Nat.ltb_lt. vm_compute. reflexivity. }
  destruct (Hhigh Hgt)
    as (Hthrow & (row & Hrow & Hst & _ & Hfailed & _ & percent & Hrate & Hp & _) & _).
  split; [exact Hthrow |]. split; [exact Hclosed |].
  exists row, percent. split; [exact Hrow |]. split; [exact Hst |].
  split; [rewrite Hfailed; vm_compute; reflexivity |]. split; [exact Hrate | exact Hp].
Defined.

(** C2, as stated, fails: both recipients are sent to, so that the
    failure rate is 0, but the client rejects the disconnect that follows
    the loop; the error goes through the outer [catch], the campaign is
    marked [failed], not [completed], and the handler throws. *)
Lemma clean_run_fails_when_disconnect_rejects :
  let env := Fixture.env RunFixture.disconnectFails in
  let job := Fixture.job ["@ann"; "@bob"] in
  let sd := mkSession "1BVtsOK4Bu" (Some 1700000000000%Z) in
  let loop := sendLoop env job (initialFrame env sd, (prologue env job Fixture.world).2) in
  let run := handleBroadcastJob env job Fixture.world in
  (prologue env job Fixture.world).1 = Return sd /\
  loop.1 = Return tt /\
  processed loop.2.1 = 2 /\ sent loop.2.1 = 2 /\ failed loop.2.1 = 0 /\
  (failureRate (sent loop.2.1) (failed loop.2.1) <= failureThreshold)%Q /\
  run.1 = Throw (Js.Error "Not connected") /\
  (exists row,
      broadcast_campaigns run.2 !! "c1" = Some row /\
      Campaign.status row = CampaignStatus.failed /\
      Campaign.status row <> CampaignStatus.completed /\
      Campaign.metadata row !! "error" = Some (JString "Not connected")) /\
  map Log.status (broadcast_logs run.2) = [LogStatus.sent; LogStatus.sent].
Proof.
  cbv zeta.
  split; [vm_compute; reflexivity |].
  split; [vm_compute; reflexivity |].
  split; [vm_compute; reflexivity |].
  split; [vm_compute; reflexivity |].
  split; [vm_compute; reflexivity |].
  split; [vm_compute; discriminate |].
  split; [vm_compute; reflexivity |].
  split; [|vm_compute; reflexivity].
  eexists. split; [vm_compute; reflexivity |].
  split; [reflexivity |]. split; [discriminate | vm_compute; reflexivity].
Qed.

(** The boundary of C2: one sent and one failed is a rate of exactly 0.5,
    and the campaign is completed. *)
Example half_failed_completes :
  let run := handleBroadcastJob (Fixture.env Fixture.firstOfTwoFails)
               (Fixture.job ["@ann"; "@bob"]) Fixture.world in
  run.1 = Return (mkResult "c1" 1 1 0 true) /\
  Campaign.status <$> (broadcast_campaigns run.2 !! "c1")
  = Some CampaignStatus.completed.
Proof. cbv zeta. split; vm_compute; reflexivity. Qed.

(** The happy path: three recipients, every send succeeds; the campaign is
    completed and the snapshot is cleared from the progress store. *)
Example happy_path :
  let run := handleBroadcastJob (Fixture.env Fixture.noFault)
               (Fixture.job ["@a"; "@b"; "@c"]) Fixture.world in
  run.1 = Return (mkResult "c1" 3 0 0 true) /\
  Campaign.status <$> (broadcast_campaigns run.2 !! "c1")
  = Some CampaignStatus.completed /\
  redis run.2 !! buildKey "c1" = None /\
  map Log.status (broadcast_logs run.2)
  = [LogStatus.sent; LogStatus.sent; LogStatus.sent].
Proof. cbv zeta. repeat split; vm_compute; reflexivity. Qed.

(** The mixed scenario: one permanent error, one transient error and two
    successes give a failure rate of 1/3 and a completed campaign. *)
Example mixed_run :
  let run := handleBroadcastJob (Fixture.env Fixture.oneInvalidOneTimeout)
               (Fixture.job ["111"; "222"; "333"; "444"]) Fixture.world in
  run.1 = Return (mkResult "c1" 2 1 1 true) /\
  Campaign.status <$> (broadcast_campaigns run.2 !! "c1")
  = Some CampaignStatus.completed /\
  map Log.status (broadcast_logs run.2)
  = [LogStatus.skipped; LogStatus.failed; LogStatus.sent; LogStatus.sent].
Proof. cbv zeta. repeat split; vm_compute; reflexivity. Qed.

(** No recipients: nothing is sent and the campaign is completed. *)
Example no_recipients :
  let run := handleBroadcastJob (Fixture.env Fixture.noFault)
               (Fixture.job []) Fixture.world in
  run.1 = Return (mkResult "c1" 0 0 0 true) /\
  events run.2 = [EvConnect; EvDisconnect].
Proof. cbv zeta. split; vm_compute; reflexivity. Qed.

(** An error that escapes the loop leaves the client connected: nothing
    on the way through the outer [catch] disconnects it. *)
Lemma loop_error_leaves_session_open env job w sessionData w1 e f w2 res w3 :
  prologue env job w = (Return sessionData, w1) ->
  sendLoop env job (initialFrame env sessionData, w1) = (Throw e, (f, w2)) ->
  handleBroadcastJob env job w = (res, w3) ->
  (exists e', res = Throw e') /\ sessionOpen (events w3) = true.
Proof.
  intros Hpro Hloop Hrun.
  destruct (prologue_ok _ _ _ _ _ Hpro) as (_ & row0 & _ & _ & Hev1 & _).
  assert (Hinv : loopInv (broadcast_campaigns w1) (f, w2)).
  { refine (wp_elim _ (fun _ s' => loopInv (broadcast_campaigns w1) s') _ _ _ _ Hloop).
    apply sendLoop_keeps_loopInv. unfold loopInv, initialFrame. cbn.
    rewrite Hev1, sessionOpen_snoc. repeat split. lia. }
  destruct Hinv as (_ & Hopen & _). cbn [fst snd] in *.
  wp_of_world Hrun res w3.
  unfold handleBroadcastJob. apply wp_try_catch. unfold tryBody.
  apply wp_bind. unfold wp at 1. rewrite Hpro. cbv beta iota.
  apply wp_withLocals, wp_bind. unfold wp at 1. rewrite Hloop. cbv beta iota.
  cbn [snd]. unfold onJobError.
  apply wp_bind, wp_updateCampaignStatus; [intros e' _; eauto |].
  intros row _. wp_run; rewrite ?afterUpdateProgress_events; cbn; eauto.
Qed.

(** C4 at a concrete run: the first send times out and the insert of the
    [failed] outcome rejects, so the error escapes the loop; the handler
    throws it on, and the client, connected, was never disconnected. *)
Theorem session_left_open_when_loop_throws :
  let run := handleBroadcastJob (Fixture.env Fixture.failedLogFails)
               (Fixture.job ["@ann"; "@bob"]) Fixture.world in
  run.1 = Throw (Js.Error "Connection terminated unexpectedly") /\
  In EvConnect (events run.2) /\
  ~ In EvDisconnect (events run.2) /\
  sessionOpen (events run.2) = true.
Proof.
  cbv zeta. split; [vm_compute; reflexivity |].
  assert (Hev : events (handleBroadcastJob (Fixture.env Fixture.failedLogFails)
                          (Fixture.job ["@ann"; "@bob"]) Fixture.world).2
                = [EvConnect; EvPacingDelay (AntiSpam.new (Some 3%Z));
                   EvGetInputEntity "@ann"])
    by (vm_compute; reflexivity).
  rewrite Hev. split; [now left |]. split; [|reflexivity].
  intros [H | [H | [H | []]]]; discriminate.
Qed.

(** C7 at a concrete run: the first send succeeds but the insert of its
    [sent] outcome rejects; the per-recipient [catch] then counts the
    same recipient as [failed] too, and the snapshot written for it has
    processed = 1 but sent + failed + skipped = 2. *)
Theorem counters_double_count_when_sent_log_fails :
  let run := handleBroadcastJob (Fixture.env Fixture.sentLogFails)
               (Fixture.job ["@ann"; "@bob"]) Fixture.world in
  map (fun s => (Snapshot.status s, Snapshot.processed s,
                 (Snapshot.sent s, Snapshot.failed s, Snapshot.skipped s)))
      (progress_writes run.2)
  = [ (ProgressStatus.initializing, 0, (0, 0, 0));
      (ProgressStatus.sending, 0, (0, 0, 0));
      (ProgressStatus.sending, 1, (1, 1, 0));
      (ProgressStatus.sending, 2, (2, 1, 0));
      (ProgressStatus.completed, 2, (2, 1, 0)) ] /\
  exists snap,
    In snap (progress_writes run.2) /\
    Snapshot.status snap = ProgressStatus.sending /\
    Snapshot.processed snap
    <> Snapshot.sent snap + Snapshot.failed snap + Snapshot.skipped snap.
Proof.
  cbv zeta.
  assert (Hw : progress_writes
                 (handleBroadcastJob (Fixture.env Fixture.sentLogFails)
                    (Fixture.job ["@ann"; "@bob"]) Fixture.world).2
               = map (fun '(st, pr, p, (s, f, k)) =>
                        Snapshot.mk "c1" st pr p 2 s f k None
                          "2023-11-17T22:13:20.000Z")
                   [ (ProgressStatus.initializing, 0%Z, 0, (0, 0, 0));
                     (ProgressStatus.sending, 0%Z, 0, (0, 0, 0));
                     (ProgressStatus.sending, 50%Z, 1, (1, 1, 0));
                     (ProgressStatus.sending, 100%Z, 2, (2, 1, 0));
                     (ProgressStatus.completed, 100%Z, 2, (2, 1, 0)) ])
    by (vm_compute; reflexivity).
  rewrite Hw. split; [reflexivity |].
  eexists. split; [right; right; left; reflexivity |].
  split; [reflexivity | discriminate].
Qed.

End Job.

(** ** The snapshots of a run, in order *)

Section Monotone.
Import Num Classifier WorldOps Broadcast Progress Handler.

Lemma StronglySorted_snoc (l : list nat) (x : nat) :
  StronglySorted le l -> Forall (fun y => y <= x) l -> StronglySorted le (l ++ [x]).
Proof.
  induction 1 as [|a l Hl IH Ha]; intros Hall; simpl.
  - repeat constructor.
  - inversion Hall as [|? ? Hax Hlx]; subst. constructor; [now apply IH |].
    apply List.Forall_app. split; [exact Ha | now constructor].
Qed.

Lemma risesTo_refl w top : risesTo (progress_writes w) top w.
Proof. exists []. rewrite app_nil_r. repeat split; constructor. Qed.

Lemma risesTo_same W0 top top' w w' :
  risesTo W0 top w -> progress_writes w' = progress_writes w -> top <= top' ->
  risesTo W0 top' w'.
Proof.
  intros (ws & Hw & Hs & Hall) Heq Hle. exists ws. rewrite Heq.
  repeat split; try assumption.
  eapply List.Forall_impl; [|exact Hall]. cbn. intros; lia.
Qed.

Lemma risesTo_write W0 top w w' p :
  risesTo W0 top w -> progress_writes w' = progress_writes w ++ [p] ->
  top <= Snapshot.processed p ->
  risesTo W0 (Snapshot.processed p) w'.
Proof.
  intros (ws & Hw & Hs & Hall) Heq Hle. exists (ws ++ [p]).
  rewrite Heq, Hw, app_assoc, map_app. cbn.
  assert (Hall' : Forall (fun s => Snapshot.processed s <= Snapshot.processed p) ws).
  { eapply List.Forall_impl; [|exact Hall]. cbn. intros; lia. }
  repeat split.
  - apply StronglySorted_snoc; [exact Hs |]. now apply List.Forall_map.
  - apply List.Forall_app. split; [exact Hall' | now constructor].
Qed.


(** What a turn of the loop does to the counters and to the snapshots: it
    adds one to [processed]; it ends by writing one snapshot carrying the
    counters, unless it throws first; and it keeps
    processed = sent + failed + skipped provided the insert of a [sent]
    outcome does not reject. *)
Lemma iteration_progress env job r f w res f' w' :
  iteration env job r (f, w) = (res, (f', w')) ->
  processed f' = processed f + 1 /\
  ((exists e, res = Throw e) /\ progress_writes w' = progress_writes w \/
   res = Return tt /\
   progress_writes w'
   = progress_writes w
     ++ [snapshotOf env (campaignId job) ProgressStatus.sending (processed f')
           (length (recipients job)) (sent f') (failed f') (skipped f') None]) /\
  (fault env (CallLogOutcome (processed f + 1) LogStatus.sent) = None ->
   processed f = sent f + failed f + skipped f ->
   processed f' = sent f' + failed f' + skipped f').
Proof.
  intros Hrun. wp_of Hrun res f' w'.
  unfold iteration. wp_run.
  apply wp_sendMessageToRecipient. intros res0 evs _ _ _.
  destruct res0 as [[]|e]; cbv beta iota; [|unfold onSendError];
    wp_run; try unfold onSendError; wp_run;
    cbn [fst snd]; rewrite ?afterUpdateProgress_writes; cbn in *.
  all: split; [reflexivity |]; split; [eauto |]; intros; try congruence; lia.
Qed.


Lemma iteration_rises env job r W0 k f w :
  processed f = k -> k < length (recipients job) -> risesTo W0 k w ->
  wp (iteration env job r)
    (fun res s' =>
       match res with
       | Return _ => processed s'.1 = k + 1 /\ risesTo W0 (k + 1) s'.2
       | Throw _ => risesTo W0 (length (recipients job)) s'.2
       end) (f, w).
Proof.
  intros Hk Hlt Hrise. apply wp_intro. intros res [f' w'] Hrun.
  destruct (iteration_progress _ _ _ _ _ _ _ _ Hrun)
    as (Hp & [[[e ->] Hw] | [-> Hw]] & _); cbn [fst snd].
  - eapply risesTo_same; [exact Hrise | exact Hw | lia].
  - split; [lia |].
    replace (k + 1) with (Snapshot.processed
                            (snapshotOf env (campaignId job) ProgressStatus.sending
                               (processed f') (length (recipients job))
                               (sent f') (failed f') (skipped f') None))
      by (unfold snapshotOf; cbn; lia).
    eapply risesTo_write; [exact Hrise | exact Hw | unfold snapshotOf; cbn; lia].
Qed.


Lemma wp_startCampaign env cid (Q : Result Campaign.t -> World -> Prop) w :
  (forall r w', progress_writes w' = progress_writes w -> Q r w') ->
  wp (startCampaign env cid) Q w.
Proof.
  intros H. unfold wp. rewrite startCampaign_run.
  destruct (fault env CallStartCampaign); [now apply H |].
  destruct (broadcast_campaigns w !! cid); now apply H.
Qed.

Lemma onJobError_rises env job e W0 w :
  risesTo W0 (length (recipients job)) w ->
  wp (onJobError env job e)
    (fun _ w' => risesTo W0 (length (recipients job)) w') w.
Proof.
  intros Hrise. unfold onJobError.
  apply wp_bind, wp_updateCampaignStatus; [now intros |].
  intros row _. wp_run.
  - eapply risesTo_same; [exact Hrise | reflexivity | lia].
  - eapply (risesTo_write _ _ _ _ (snapshotOf _ _ _ _ _ _ _ _ _));
      [exact Hrise | now rewrite afterUpdateProgress_writes | reflexivity].
Qed.

Lemma terminalDecision_rises env job W0 f w :
  risesTo W0 (length (recipients job)) w ->
  wp (terminalDecision env job)
    (fun _ s' => risesTo W0 (length (recipients job)) s'.2) (f, w).
Proof.
  intros Hrise. unfold terminalDecision.
  wp_run; [exact Hrise | |].
  all: apply wp_updateCampaignStatus;
    [intros; eapply risesTo_same; [exact Hrise | reflexivity | lia] |].
  all: intros row _; wp_run;
    try (eapply risesTo_same; [exact Hrise | reflexivity | lia]).
  all: try apply wp_clearBroadcastProgress; try intros w' _ _ Hw'; wp_run; cbn [snd].
  all: try (eapply risesTo_same; [| exact Hw' | apply Nat.le_refl]).
  all: eapply (risesTo_write _ _ _ _ (snapshotOf _ _ _ _ _ _ _ _ _));
    [exact Hrise | now rewrite afterUpdateProgress_writes | reflexivity].
Qed.


Lemma sendLoop_rises env job W0 f w (Q : Result unit -> Frame * World -> Prop) :
  processed f = 0 -> risesTo W0 0 w ->
  (forall e s', risesTo W0 (length (recipients job)) s'.2 -> Q (Throw e) s') ->
  (forall s', risesTo W0 (length (recipients job)) s'.2 -> Q (Return tt) s') ->
  wp (sendLoop env job) Q (f, w).
Proof.
  intros Hp Hrise Hthrow Hret. unfold sendLoop. wp_run.
  - apply Hthrow. eapply risesTo_same; [exact Hrise | reflexivity | lia].
  - apply wp_forOf_indexed
      with (I := fun k s => processed s.1 = k /\ risesTo W0 k s.2).
    + cbn [fst snd]. split; [exact Hp |].
      eapply (risesTo_write _ _ _ _ (snapshotOf _ _ _ 0 _ _ _ _ _));
        [exact Hrise | now rewrite afterUpdateProgress_writes | reflexivity].
    + intros k x [f1 w1] Hk [Hp1 Hr1]. cbn [fst snd] in *.
      eapply wp_mono; [apply iteration_rises; [exact Hp1 | exact Hk | exact Hr1] |].
      intros [[]|e] s'; [auto | apply Hthrow].
    + intros s' [_ Hr]. now apply Hret.
Qed.

Lemma tryBody_rises env job w :
  wp (tryBody env job)
    (fun _ w' => risesTo (progress_writes w) (length (recipients job)) w') w.
Proof.
  pose proof (risesTo_refl w 0) as Hrise0.
  set (W0 := progress_writes w) in *. set (n := length (recipients job)).
  unfold tryBody, prologue. do 2 apply wp_bind.
  apply wp_startCampaign. intros r w' Hw'.
  assert (Hrise : risesTo W0 0 w') by (eapply risesTo_same; eauto).
  destruct r as [row|e]; [|eapply risesTo_same; [exact Hrise | reflexivity | lia]].
  unfold restoreSession. wp_run;
    try (eapply risesTo_same; [exact Hrise | reflexivity | lia]).
  all: assert (Hrise1 : forall evs,
                  risesTo W0 0
                    (add_events evs
                       (afterUpdateProgress env Initializing
                          (snapshotOf env (campaignId job) ProgressStatus.initializing
                             0 n 0 0 0 None) w')))
    by (intros evs;
        eapply (risesTo_write _ _ _ _ (snapshotOf _ _ _ 0 _ _ _ _ _));
        [exact Hrise | cbn; now rewrite afterUpdateProgress_writes | reflexivity]).
  all: try (rewrite <- (add_events_nil (afterUpdateProgress _ _ _ _));
            eapply risesTo_same; [apply Hrise1 | reflexivity | lia]).
  rewrite add_event_add_events.
  apply (sendLoop_rises _ _ W0); [reflexivity | apply Hrise1 | now intros | ].
  intros [f2 w2] Hr2. cbn [snd] in Hr2. now apply terminalDecision_rises.
Qed.

(** Over a whole run, the [processed] values of the snapshots written are
    non-decreasing. *)
Lemma processed_written_nondecreasing env job w res w' :
  handleBroadcastJob env job w = (res, w') ->
  exists ws,
    progress_writes w' = progress_writes w ++ ws /\
    StronglySorted le (map Snapshot.processed ws).
Proof.
  intros Hrun.
  assert (H : risesTo (progress_writes w) (length (recipients job)) w').
  { refine (wp_elim _ (fun _ s' => risesTo _ _ s') _ _ _ _ Hrun).
    unfold handleBroadcastJob. apply wp_try_catch.
    eapply wp_mono; [apply tryBody_rises |].
    intros [a|e] w1 Hr; [exact Hr | now apply onJobError_rises]. }
  destruct H as (ws & Hw & Hs & _). now exists ws.
Qed.

End Monotone.

(* ===================================================================== *)
(** * Part IV. Further properties of the code                             *)
(* ===================================================================== *)

Import Trace.

Section JobReturns.
Import Num Classifier WorldOps Broadcast Progress Handler.

Lemma onJobError_throws env job e w :
  exists e' w', onJobError env job e w = (Throw e', w').
Proof.
  unfold onJobError, bind.
  destruct (updateCampaignStatus _ _ _ w) as [[row|e1] w1]; [|eauto].
  destruct (updateProgress _ _ _ _ _ _ _ _ _ _ w1) as [[[]|e2] w2]; [|eauto].
  unfold throw. eauto.
Qed.

(** A run that returns went through the prologue, the whole loop and the
    terminal decision. *)
Lemma handleBroadcastJob_returns env job w r w' :
  handleBroadcastJob env job w = (Return r, w') ->
  exists sd w1 f w2 f',
    prologue env job w = (Return sd, w1) /\
    sendLoop env job (initialFrame env sd, w1) = (Return tt, (f, w2)) /\
    terminalDecision env job (f, w2) = (Return r, (f', w')).
Proof.
  unfold handleBroadcastJob, try_catch.
  destruct (tryBody env job w) as [[r0|e] w0] eqn:E.
  - intros [= -> ->]. revert E. unfold tryBody. unfold bind at 1.
    destruct (prologue env job w) as [[sd|e] w1] eqn:Ep; [|discriminate].
    unfold withLocals.
    destruct (bind _ _ (initialFrame env sd, w1)) as [res [f' w2']] eqn:E2.
    intros [= -> ->]. revert E2. unfold bind at 1.
    destruct (sendLoop env job (initialFrame env sd, w1)) as [[[]|e] [f w2]] eqn:El;
      [|discriminate].
    intros E2. now exists sd, w1, f, w2, f'.
  - destruct (onJobError_throws env job e w0) as (e' & w'' & ->). discriminate.
Qed.

Lemma wp_clearBroadcastProgress_fields env cid
    (Q : Result unit -> World -> Prop) w :
  (forall w',
      events w' = events w ->
      broadcast_logs w' = broadcast_logs w ->
      broadcast_campaigns w' = broadcast_campaigns w ->
      progress_writes w' = progress_writes w ->
      job_progress w' = job_progress w ->
      (fault env CallRedisDel = None -> redis w' !! buildKey cid = None) ->
      Q (Return tt) w') ->
  wp (clearBroadcastProgress env cid) Q w.
Proof.
  intros H. unfold wp. rewrite clearBroadcastProgress_run.
  apply H; destruct (fault env CallRedisDel); try reflexivity; try discriminate.
  intros _. cbn. apply lookup_delete_eq.
Qed.

(** What the terminal decision did when it returned. *)
Lemma terminalDecision_returns env job f w r f' w' :
  (0 < failed f -> shouldRetry f = true) ->
  terminalDecision env job (f, w) = (Return r, (f', w')) ->
  r = mkResult (campaignId job) (sent f) (failed f) (skipped f) true /\
  (failureRate (sent f) (failed f) <= failureThreshold)%Q /\
  events w' = events w ++ [EvDisconnect] /\
  broadcast_logs w' = broadcast_logs w /\
  (exists row,
      broadcast_campaigns w !! campaignId job = Some row /\
      broadcast_campaigns w'
      = <[campaignId job :=
            Campaign.mk CampaignStatus.completed (Some (Date_now env))
              (spread (Campaign.metadata row)
                 {[ "sent" := JNumber (num (sent f));
                    "failed" := JNumber (num (failed f));
                    "skipped" := JNumber (num (skipped f));
                    "totalRecipients"
                    := JNumber (num (length (recipients job))) ]})]>
          (broadcast_campaigns w)) /\
  (fault env CallRedisDel = None -> redis w' !! buildKey (campaignId job) = None).
Proof.
  intros Hretry Hrun. remember (Return r) as res eqn:Hres. revert Hres.
  wp_of Hrun res f' w'.
  unfold terminalDecision. wp_run; try discriminate.
  - (* high failure rate: the retry flag is set, so this throws *)
    apply Qgtb_spec, failureRate_above_threshold in Heqb.
    rewrite Hretry by lia.
    apply wp_updateCampaignStatus; [discriminate |]. intros row _.
    wp_run; discriminate.
  - assert (Hle : (failureRate (sent f) (failed f) <= failureThreshold)%Q).
    { apply Qnot_lt_le. intros Hgt. apply Qgtb_spec in Hgt. congruence. }
    apply wp_updateCampaignStatus; [discriminate |]. intros row Hrow.
    wp_run; [discriminate |].
    apply wp_clearBroadcastProgress_fields. intros w'' He Hl Hc _ _ Hredis.
    wp_run. intros [= <-]. cbn [fst snd].
    rewrite He, Hl, Hc, afterUpdateProgress_events, afterUpdateProgress_logs,
      afterUpdateProgress_campaigns.
    split; [reflexivity |]. split; [exact Hle |].
    split; [reflexivity |]. split; [reflexivity |].
    split; [exists row; split; [exact Hrow | reflexivity] | exact Hredis].
Qed.

End JobReturns.

Section SendShape.
Import Str Classifier WorldOps Broadcast Progress Handler.

Lemma sendMessageToRecipient_outcome env i r text w :
  exists evs,
    (sendMessageToRecipient env i r text w).2 = add_events evs w /\
    sendOutcome env i r text (sendMessageToRecipient env i r text w).1 evs.
Proof.
  unfold sendMessageToRecipient, try_catch, bind, rejects, emit, modify,
    sendOutcome, lookupEvents, wrapped.
  destruct (startsWith r "@") eqn:Hat;
    repeat (match goal with
            | |- context [fault env ?c] => destruct (fault env c) eqn:?
            end; simpl);
    rewrite ?add_event_add_events, ?add_events_add_events.
  all: try (exists []; rewrite add_events_nil; split; [reflexivity |];
            eexists; split; [reflexivity |]; auto).
  all: eexists; split; [reflexivity |]; try reflexivity.
  all: eexists; split; [reflexivity |]; auto.
Qed.

Lemma wp_sendMessageToRecipient_outcome env i r text
    (Q : Result unit -> World -> Prop) w :
  (forall res evs, sendOutcome env i r text res evs -> Q res (add_events evs w)) ->
  wp (sendMessageToRecipient env i r text) Q w.
Proof.
  intros H. destruct (sendMessageToRecipient_outcome env i r text w) as (evs & E & Ho).
  unfold wp. destruct (sendMessageToRecipient env i r text w) as [res w1].
  simpl in E, Ho. subst w1. now apply H.
Qed.

End SendShape.

Section SendFailures.
Import Str Classifier WorldOps Broadcast Progress Handler.

Lemma contains_append (pre s post needle : string) :
  contains s needle -> contains (pre +:+ s +:+ post) needle.
Proof.
  intros (a & b & ->). exists (pre +:+ a), (b +:+ post).
  now rewrite !append_assoc.
Qed.

Lemma errorText_wrapped (r : string) (m : JsError) :
  errorText (wrapped r m)
  = "Failed to send message to " +:+ r +:+ ": " +:+ message m.
Proof. reflexivity. Qed.

(** X1. A send that fails reaches the per-recipient [catch] as a plain
    [Error] made by [sendMessageToRecipient]: its message is
    [Failed to send message to <recipient>: <message of the client's
    error>] and it has no [errorMessage], so the classifier reads this
    text and nothing of the client error's own [errorMessage].  The
    classification therefore also depends on the recipient: when the
    recipient or the client's message holds [FLOOD_WAIT], the failure is
    classified as a flood wait. *)
Theorem send_failure_is_wrapped env i r text w e w' :
  sendMessageToRecipient env i r text w = (Throw e, w') ->
  exists m,
    (startsWith r "@" = true /\ fault env (CallGetInputEntity i) = Some m \/
     fault env (CallSendMessage i) = Some m) /\
    e = Js.Error ("Failed to send message to " +:+ r +:+ ": " +:+ message m) /\
    errorText e = "Failed to send message to " +:+ r +:+ ": " +:+ message m /\
    (contains r "FLOOD_WAIT" \/ contains (message m) "FLOOD_WAIT" ->
     classifyTelegramError e
     = mkClassification FLOOD_WAIT false true (Some (waitOf (errorText e)))).
Proof.
  intros Hrun.
  destruct (sendMessageToRecipient_outcome env i r text w) as (evs & _ & Ho).
  rewrite Hrun in Ho. cbn in Ho. destruct Ho as (m & -> & Hm).
  exists m. split; [|split; [reflexivity | split; [reflexivity |]]].
  - destruct Hm as [(Hat & Hf & _) | (Hf & _)]; auto.
  - intros Hc. apply classify_flood. rewrite errorText_wrapped.
    destruct Hc as [Hc | Hc].
    + now apply contains_append.
    + destruct Hc as (a & b & ->).
      exists ("Failed to send message to " +:+ r +:+ ": " +:+ a), b.
      now rewrite !append_assoc.
Qed.

(** X1 at a first send that the client rejects with an [errorMessage] of
    its own: only the message is kept, and it is a flood wait of 5
    seconds. *)
Lemma send_failure_is_wrapped_witness :
  let env := Fixture.env (Fixture.firstSendFails "FLOOD_WAIT_5") in
  let e := Js.Error "Failed to send message to @ann: FLOOD_WAIT_5" in
  (sendMessageToRecipient env 1 "@ann" "hello" Fixture.world).1 = Throw e /\
  classifyTelegramError e = mkClassification FLOOD_WAIT false true (Some 5%N).
Proof.
  intros env e.
  assert (Hrun : sendMessageToRecipient env 1 "@ann" "hello" Fixture.world
                 = (Throw e, (sendMessageToRecipient env 1 "@ann" "hello"
                                Fixture.world).2))
    by (vm_compute; reflexivity).
  destruct (send_failure_is_wrapped env 1 "@ann" "hello" Fixture.world e _ Hrun)
    as (m & Hm & _ & _ & Hflood).
  assert (Hmsg : message m = "FLOOD_WAIT_5")
    by (destruct Hm as [[_ Hm] | Hm]; [discriminate Hm | now injection Hm as <-]).
  split; [now rewrite Hrun |].
  rewrite Hflood; [vm_compute; reflexivity |].
  right. rewrite Hmsg. apply includes_spec. reflexivity.
Defined.

End SendFailures.

Section Tally.
Import Str Classifier WorldOps Broadcast Progress Handler.

Lemma countStatus_snoc st ls l :
  countStatus st (ls ++ [l])
  = countStatus st ls + (if LogStatus_eqb (Log.status l) st then 1 else 0).
Proof.
  unfold countStatus. rewrite List.filter_app, length_app. cbn.
  now destruct (LogStatus_eqb (Log.status l) st).
Qed.

(** The same loop rule, with the recipients gone through so far. *)
Lemma wp_forOf_prefix {S} (body : string -> M S unit) (I : list string -> S -> Prop)
    (Q : Result unit -> S -> Prop) xs s :
  I [] s ->
  (forall done x rest s, xs = done ++ x :: rest -> I done s ->
     wp (body x) (fun r s' =>
                    match r with
                    | Return _ => I (done ++ [x]) s'
                    | Throw e => Q (Throw e) s'
                    end) s) ->
  (forall s, I xs s -> Q (Return tt) s) ->
  wp (forOf xs body) Q s.
Proof.
  intros H0 Hbody Hend.
  assert (Hgen : forall ys done s,
             done ++ ys = xs -> I done s -> wp (forOf ys body) Q s).
  { induction ys as [|y ys IH]; intros done s' Hd HI; simpl.
    - apply Hend. rewrite app_nil_r in Hd. now subst.
    - apply wp_bind. eapply wp_mono; [apply (Hbody done y ys); [now symmetry | exact HI] |].
      intros [[]|e] s''; [|auto]. apply IH. now rewrite <- app_assoc. }
  now apply (Hgen xs []).
Qed.

Lemma iteration_tally env job r done ls f w :
  tallied env job done ls f ->
  wp (iteration env job r)
    (fun res s' =>
       match res with
       | Return _ =>
           exists l,
             broadcast_logs s'.2 = broadcast_logs w ++ [l] /\
             tallied env job (done ++ [r]) (ls ++ [l]) s'.1
       | Throw _ => True
       end) (f, w).
Proof.
  intros Ht.
  set (P := fun l f' => tallied env job (done ++ [r]) (ls ++ [l]) f').
  change (wp (iteration env job r)
            (fun res s' =>
               match res with
               | Return _ =>
                   exists l,
                     broadcast_logs s'.2 = broadcast_logs w ++ [l] /\ P l s'.1
               | Throw _ => True
               end) (f, w)).
  assert (Hgoal : forall l f',
             Log.recipient l = r ->
             Log.campaignId l = campaignId job -> Log.userId l = userId job ->
             processed f' = processed f + 1 ->
             failed f' = failed f
                         + (if LogStatus_eqb (Log.status l) LogStatus.failed
                            then 1 else 0) ->
             skipped f' = skipped f
                          + (if LogStatus_eqb (Log.status l) LogStatus.skipped
                             then 1 else 0) ->
             sent f + (if LogStatus_eqb (Log.status l) LogStatus.sent
                       then 1 else 0) <= sent f' ->
             (fault env (CallLogOutcome (processed f + 1) LogStatus.sent) = None ->
              sent f' = sent f + (if LogStatus_eqb (Log.status l) LogStatus.sent
                                  then 1 else 0)) ->
             AntiSpam.successCount (antiSpam f') + sent f
             = AntiSpam.successCount (antiSpam f) + sent f' ->
             AntiSpam.failureCount (antiSpam f') + failed f
             = AntiSpam.failureCount (antiSpam f) + failed f' ->
             P l f').
  { unfold P, tallied in *.
    destruct Ht as (Hrec & Hrows & Hproc & Hfail & Hskip & Hsent & Hsent'
                    & Hsucc & Hfc).
    intros l f' Hr Hc Hu Hp Hf Hk Hs Hs' Hsc Hfc'.
    rewrite !countStatus_snoc, map_app, length_app. cbn.
    repeat split; try lia.
    - now rewrite Hrec, Hr.
    - apply List.Forall_app. split; [exact Hrows | now repeat constructor].
    - intros Hall. rewrite Hs' by apply Hall. rewrite Hsent' by exact Hall. lia. }
  clearbody P. clear Ht.
  unfold iteration. wp_run.
  apply wp_sendMessageToRecipient. intros res0 evs _ _ _.
  destruct res0 as [[]|e]; cbv beta iota; [|unfold onSendError];
    wp_run; try unfold onSendError; wp_run; try exact I;
    cbn [fst snd]; rewrite ?afterUpdateProgress_logs; cbn.
  all: eexists; split; [reflexivity |].
  all: apply Hgoal; cbn in *; try reflexivity; try lia; intros; try congruence; lia.
Qed.

Lemma sendLoop_tally env job sd w f w' :
  sendLoop env job (initialFrame env sd, w) = (Return tt, (f, w')) ->
  exists ls,
    broadcast_logs w' = broadcast_logs w ++ ls /\
    tallied env job (recipients job) ls f.
Proof.
  intros Hrun. remember (Return tt) as res eqn:Hres. revert Hres.
  wp_of Hrun res f w'.
  unfold sendLoop. wp_run; [discriminate |].
  apply wp_forOf_prefix
    with (I := fun done s =>
                 exists ls, broadcast_logs s.2 = broadcast_logs w ++ ls /\
                            tallied env job done ls s.1).
  - exists []. cbn [fst snd]. rewrite afterUpdateProgress_logs, app_nil_r.
    split; [reflexivity |]. unfold tallied, rowsOf, initialFrame. cbn.
    repeat split; auto.
  - intros done x rest [f1 w1] _ (ls & Hl & Ht). cbn [fst snd] in *.
    eapply wp_mono; [apply (iteration_tally _ _ _ _ _ _ _ Ht) |].
    intros [[]|e] [f2 w2]; [|discriminate].
    intros (l & Hl2 & Ht2). cbn [fst snd] in *. exists (ls ++ [l]).
    split; [|exact Ht2]. now rewrite Hl2, Hl, app_assoc.
  - intros [f1 w1] (ls & Hl & Ht) _. now exists ls.
Qed.

End Tally.

Section ReturnedRun.
Import Str Num Classifier WorldOps Broadcast Progress Handler.

Lemma prologue_logs env job w res w1 :
  prologue env job w = (res, w1) -> broadcast_logs w1 = broadcast_logs w.
Proof.
  intros Hrun. wp_of_world Hrun res w1.
  unfold prologue. apply wp_bind. unfold wp at 1. rewrite startCampaign_run.
  destruct (fault env CallStartCampaign); [reflexivity |].
  destruct (broadcast_campaigns w !! campaignId job); [|reflexivity].
  cbv beta iota zeta. unfold restoreSession.
  wp_run; cbn; rewrite ?afterUpdateProgress_logs; reflexivity.
Qed.

Lemma countStatus_partition (ls : list Log.t) :
  countStatus LogStatus.sent ls + countStatus LogStatus.failed ls
  + countStatus LogStatus.skipped ls = length ls.
Proof.
  unfold countStatus. induction ls as [|l ls IH]; [reflexivity |].
  cbn. destruct (Log.status l); cbn; lia.
Qed.

(** Everything a run that returned went through. *)
Lemma handleBroadcastJob_return_facts env job w r w' :
  handleBroadcastJob env job w = (Return r, w') ->
  exists sd w1 f w2 ls row,
    prologue env job w = (Return sd, w1) /\
    sendLoop env job (initialFrame env sd, w1) = (Return tt, (f, w2)) /\
    r = mkResult (campaignId job) (sent f) (failed f) (skipped f) true /\
    (failed f <= sent f) /\
    broadcast_logs w' = broadcast_logs w ++ ls /\
    tallied env job (recipients job) ls f /\
    sessionOpen (events w') = false /\
    broadcast_campaigns w' !! campaignId job = Some row /\
    Campaign.status row = CampaignStatus.completed /\
    Campaign.lastSentAt row = Some (Date_now env) /\
    Campaign.metadata row !! "sent" = Some (JNumber (num (sent f))) /\
    Campaign.metadata row !! "failed" = Some (JNumber (num (failed f))) /\
    Campaign.metadata row !! "skipped" = Some (JNumber (num (skipped f))) /\
    Campaign.metadata row !! "totalRecipients"
    = Some (JNumber (num (length (recipients job)))) /\
    (fault env CallRedisDel = None ->
     redis w' !! buildKey (campaignId job) = None).
Proof.
  intros Hrun.
  destruct (handleBroadcastJob_returns _ _ _ _ _ Hrun)
    as (sd & w1 & f & w2 & f' & Hpro & Hloop & Hterm).
  destruct (prologue_ok _ _ _ _ _ Hpro) as (_ & row0 & _ & _ & Hev1 & _).
  assert (Hinv : loopInv (broadcast_campaigns w1) (f, w2)).
  { refine (wp_elim _ (fun _ s' => loopInv (broadcast_campaigns w1) s') _ _ _ _ Hloop).
    apply sendLoop_keeps_loopInv. unfold loopInv, initialFrame. cbn.
    rewrite Hev1, sessionOpen_snoc. repeat split. lia. }
  destruct Hinv as (_ & _ & Hretry). cbn [fst snd] in Hretry.
  destruct (terminalDecision_returns _ _ _ _ _ _ _ Hretry Hterm)
    as (-> & Hle & Hev & Hlogs & (row & Hrow & Hcamp) & Hredis).
  destruct (sendLoop_tally _ _ _ _ _ _ Hloop) as (ls & Hls & Htally).
  exists sd, w1, f, w2, ls. eexists.
  split; [exact Hpro |]. split; [exact Hloop |]. split; [reflexivity |].
  split.
  { destruct (Nat.le_gt_cases (failed f) (sent f)) as [H | H]; [exact H |].
    apply failureRate_above_threshold in H. exfalso.
    now apply (Qlt_not_le _ _ H). }
  split; [now rewrite Hlogs, Hls, (prologue_logs _ _ _ _ _ Hpro) |].
  split; [exact Htally |].
  split; [now rewrite Hev, sessionOpen_snoc |].
  rewrite Hcamp.
  split; [apply lookup_insert_eq |]. cbn.
  rewrite !spread_lookup.
  repeat split; try reflexivity. exact Hredis.
Qed.

(** X2. When no insert of a [sent] outcome rejects, a run that returns
    has counted every recipient exactly once: sent + failed + skipped is
    the number of recipients. *)
Theorem counters_partition_recipients env job w r w' :
  (forall i, fault env (CallLogOutcome i LogStatus.sent) = None) ->
  handleBroadcastJob env job w = (Return r, w') ->
  r_sent r + r_failed r + r_skipped r = length (recipients job).
Proof.
  intros Hsent Hrun.
  destruct (handleBroadcastJob_return_facts _ _ _ _ _ Hrun)
    as (sd & w1 & f & w2 & ls & row & _ & _ & -> & _ & _ & Ht & _).
  destruct Ht as (Hrec & _ & _ & Hf & Hk & _ & Hs & _). cbn.
  rewrite (Hs Hsent), Hf, Hk, countStatus_partition, <- Hrec.
  now rewrite length_map.
Qed.

(** X2 at the mixed run: one unknown peer, one timeout, two successes. *)
Lemma counters_partition_recipients_witness :
  let run := handleBroadcastJob (Fixture.env Fixture.oneInvalidOneTimeout)
               (Fixture.job ["111"; "222"; "333"; "444"]) Fixture.world in
  run.1 = Return (mkResult "c1" 2 1 1 true) /\ 2 + 1 + 1 = 4.
Proof.
  intros run.
  assert (Hrun : run = (Return (mkResult "c1" 2 1 1 true), run.2))
    by (vm_compute; reflexivity).
  split; [now rewrite Hrun |].
  apply (counters_partition_recipients
           (Fixture.env Fixture.oneInvalidOneTimeout)
           (Fixture.job ["111"; "222"; "333"; "444"]) Fixture.world
           (mkResult "c1" 2 1 1 true) run.2);
    [intros i; reflexivity | exact Hrun].
Defined.

(** X3. [handleBroadcastJob] returns only on success: whenever it returns
    rather than throws, the result has [success] true and no more failed
    than sent recipients, the client was disconnected, and the campaign
    row is [completed], stamped with the current time and carrying the
    counters and the number of recipients in its metadata.  The
    [success: false] result of the source is never returned. *)
Theorem returned_job_is_completed env job w r w' :
  handleBroadcastJob env job w = (Return r, w') ->
  r_success r = true /\
  r_campaignId r = campaignId job /\
  r_failed r <= r_sent r /\
  sessionOpen (events w') = false /\
  exists row,
    broadcast_campaigns w' !! campaignId job = Some row /\
    Campaign.status row = CampaignStatus.completed /\
    Campaign.lastSentAt row = Some (Date_now env) /\
    Campaign.metadata row !! "sent" = Some (JNumber (num (r_sent r))) /\
    Campaign.metadata row !! "failed" = Some (JNumber (num (r_failed r))) /\
    Campaign.metadata row !! "skipped" = Some (JNumber (num (r_skipped r))) /\
    Campaign.metadata row !! "totalRecipients"
    = Some (JNumber (num (length (recipients job)))).
Proof.
  intros Hrun.
  destruct (handleBroadcastJob_return_facts _ _ _ _ _ Hrun)
    as (sd & w1 & f & w2 & ls & row & _ & _ & -> & Hle & _ & _ & Hclosed
        & Hrow & Hst & Hlast & Hs & Hf & Hk & Hn & _).
  cbn. repeat split; try assumption. exists row. repeat split; assumption.
Qed.

(** X3 at the mixed run. *)
Lemma returned_job_is_completed_witness :
  let run := handleBroadcastJob (Fixture.env Fixture.oneInvalidOneTimeout)
               (Fixture.job ["111"; "222"; "333"; "444"]) Fixture.world in
  sessionOpen (events run.2) = false /\
  exists row,
    broadcast_campaigns run.2 !! "c1" = Some row /\
    Campaign.status row = CampaignStatus.completed /\
    Campaign.metadata row !! "totalRecipients" = Some (JNumber (num 4)).
Proof.
  intros run.
  assert (Hrun : run = (Return (mkResult "c1" 2 1 1 true), run.2))
    by (vm_compute; reflexivity).
  destruct (returned_job_is_completed _ _ _ _ _ Hrun)
    as (_ & _ & _ & Hclosed & row & Hrow & Hst & _ & _ & _ & _ & Hn).
  split; [exact Hclosed |]. exists row.
  split; [exact Hrow |]. split; [exact Hst | exact Hn].
Defined.

(** X4. A run that returns has appended exactly one outcome row per
    recipient to [broadcast_logs], in the order of the recipients, each
    for the job's campaign and user; the [failed] and [skipped] counters
    of the result are the numbers of rows of that status, and the [sent]
    counter is at least the number of [sent] rows. *)
Theorem one_outcome_row_per_recipient env job w r w' :
  handleBroadcastJob env job w = (Return r, w') ->
  exists ls,
    broadcast_logs w' = broadcast_logs w ++ ls /\
    map Log.recipient ls = recipients job /\
    Forall (fun l => Log.campaignId l = campaignId job /\
                     Log.userId l = userId job) ls /\
    countStatus LogStatus.failed ls = r_failed r /\
    countStatus LogStatus.skipped ls = r_skipped r /\
    countStatus LogStatus.sent ls <= r_sent r.
Proof.
  intros Hrun.
  destruct (handleBroadcastJob_return_facts _ _ _ _ _ Hrun)
    as (sd & w1 & f & w2 & ls & row & _ & _ & -> & _ & Hlogs & Ht & _).
  destruct Ht as (Hrec & Hrows & _ & Hf & Hk & Hs & _).
  exists ls. cbn. repeat split; auto.
Qed.

(** X4 at the mixed run. *)
Lemma one_outcome_row_per_recipient_witness :
  let run := handleBroadcastJob (Fixture.env Fixture.oneInvalidOneTimeout)
               (Fixture.job ["111"; "222"; "333"; "444"]) Fixture.world in
  exists ls,
    broadcast_logs run.2 = ls /\
    map Log.recipient ls = ["111"; "222"; "333"; "444"] /\
    countStatus LogStatus.failed ls = 1 /\
    countStatus LogStatus.skipped ls = 1.
Proof.
  intros run.
  assert (Hrun : run = (Return (mkResult "c1" 2 1 1 true), run.2))
    by (vm_compute; reflexivity).
  destruct (one_outcome_row_per_recipient _ _ _ _ _ Hrun)
    as (ls & Hlogs & Hrec & _ & Hf & Hk & _).
  exists ls. split; [exact Hlogs |]. split; [exact Hrec |].
  split; [exact Hf | exact Hk].
Defined.

(** X5. When the loop has gone through all the recipients, the pacing
    object has recorded as many successes as the [sent] counter and as
    many failures as the [failed] counter, so that the failure rate it
    paces by is the failure rate the terminal decision uses. *)
Theorem pacing_counters_follow_outcomes env job sd w f w' :
  sendLoop env job (initialFrame env sd, w) = (Return tt, (f, w')) ->
  AntiSpam.successCount (antiSpam f) = sent f /\
  AntiSpam.failureCount (antiSpam f) = failed f /\
  AntiSpam.failureRate (antiSpam f) = failureRate (sent f) (failed f).
Proof.
  intros Hloop.
  destruct (sendLoop_tally _ _ _ _ _ _ Hloop) as (ls & _ & Ht).
  destruct Ht as (_ & _ & _ & _ & _ & _ & _ & Hs & Hf).
  split; [exact Hs |]. split; [exact Hf |].
  unfold AntiSpam.failureRate, failureRate. now rewrite Hs, Hf.
Qed.

(** X5 at a loop over two recipients whose first send times out. *)
Lemma pacing_counters_follow_outcomes_witness :
  let env := Fixture.env Fixture.firstOfTwoFails in
  let job := Fixture.job ["@ann"; "@bob"] in
  let sd := mkSession "1BVtsOK4Bu" (Some 1700000000000%Z) in
  let run := sendLoop env job (initialFrame env sd, Fixture.world) in
  AntiSpam.successCount (antiSpam run.2.1) = 1 /\
  AntiSpam.failureCount (antiSpam run.2.1) = 1.
Proof.
  intros env job sd run.
  assert (Hrun : run = (Return tt, (run.2.1, run.2.2))) by (vm_compute; reflexivity).
  destruct (pacing_counters_follow_outcomes _ _ _ _ _ _ Hrun) as (Hs & Hf & _).
  rewrite Hs, Hf. split; vm_compute; reflexivity.
Defined.

(** X6. After a run that returned, with Redis accepting the delete, the
    progress store holds no snapshot of the campaign: the [completed]
    snapshot written just before is gone and [readBroadcastProgress]
    gives [null]. *)
Theorem completed_job_clears_progress env job w r w' :
  handleBroadcastJob env job w = (Return r, w') ->
  fault env CallRedisDel = None ->
  readBroadcastProgress env (campaignId job) w' = (Return None, w').
Proof.
  intros Hrun Hdel.
  destruct (handleBroadcastJob_return_facts _ _ _ _ _ Hrun)
    as (sd & w1 & f & w2 & ls & row & Hrest).
  do 14 destruct Hrest as (_ & Hrest). specialize (Hrest Hdel).
  unfold readBroadcastProgress, withRedisClient, try_catch, bind, rejects, get, ret, throw.
  destruct (fault env CallRedisGet); [reflexivity |]. cbn.
  now rewrite Hrest.
Qed.

(** X6 at the mixed run. *)
Lemma completed_job_clears_progress_witness :
  let env := Fixture.env Fixture.oneInvalidOneTimeout in
  let run := handleBroadcastJob env (Fixture.job ["111"; "222"; "333"; "444"])
               Fixture.world in
  (readBroadcastProgress env "c1" run.2).1 = Return None.
Proof.
  intros env run.
  assert (Hrun : run = (Return (mkResult "c1" 2 1 1 true), run.2))
    by (vm_compute; reflexivity).
  exact (f_equal fst (completed_job_clears_progress env _ _ _ _ Hrun eq_refl)).
Defined.

End ReturnedRun.

Section WholeRun.
Import Str Num Classifier WorldOps Broadcast Progress Handler.

Variables (env : Env) (job : BroadcastJob) (P : World -> Prop).

Let n := length (recipients job).
Let cid := campaignId job.

Hypothesis Hcamp :
  forall w row0 row,
    P w -> broadcast_campaigns w !! cid = Some row0 ->
    P (set_campaigns <[cid := row]> w).
Hypothesis Hprog :
  forall w site st p s f k err,
    P w -> p = 0 \/ p = n ->
    P (afterUpdateProgress env site (snapshotOf env cid st p n s f k err) w).
Hypothesis Hev :
  forall w e, P w -> e = EvConnect \/ e = EvDisconnect -> P (add_event e w).
Hypothesis Hredis :
  forall w, P w -> P (set_redis (delete (buildKey cid)) w).
Hypothesis Hloop :
  forall f w,
    P w -> f = mkFrame 0 0 0 0 false (antiSpam f) ->
    sessionOpen (events w) = true ->
    wp (forOf (recipients job) (iteration env job)) (fun _ s' => P s'.2) (f, w).

Lemma onJobError_preserves e w :
  P w -> wp (onJobError env job e) (fun _ w' => P w') w.
Proof using Hcamp Hprog.
  intros HP. unfold onJobError.
  apply wp_bind, wp_updateCampaignStatus; [now intros |].
  intros row Hrow. wp_run; [eapply Hcamp; eauto |].
  apply Hprog; [eapply Hcamp; eauto | now right].
Qed.

Lemma terminalDecision_preserves f w :
  P w -> wp (terminalDecision env job) (fun _ s' => P s'.2) (f, w).
Proof using Hcamp Hprog Hev Hredis.
  intros HP. unfold terminalDecision.
  assert (HP1 : P (add_event EvDisconnect w)) by (apply Hev; auto).
  wp_run; [exact HP |..].
  all: apply wp_updateCampaignStatus; [now intros |].
  all: intros row Hrow.
  all: assert (HP2 : forall r, P (set_campaigns <[cid := r]> (add_event EvDisconnect w)))
    by (intros r; eapply Hcamp; eauto).
  all: wp_run; try apply HP2.
  all: try (unfold wp at 1; rewrite clearBroadcastProgress_run; cbv beta iota;
            wp_run; cbn [snd]; destruct (fault env CallRedisDel); [|apply Hredis]).
  all: apply Hprog; [apply HP2 | now right].
Qed.

Lemma handleBroadcastJob_preserves w :
  P w -> wp (handleBroadcastJob env job) (fun _ w' => P w') w.
Proof using Hcamp Hprog Hev Hredis Hloop.
  intros HP. unfold handleBroadcastJob. apply wp_try_catch.
  apply wp_mono with (Q := fun _ w' => P w');
    [|intros [a|e] w1 H1; [exact H1 | now apply onJobError_preserves]].
  unfold tryBody, prologue. do 2 apply wp_bind.
  unfold wp at 1. rewrite startCampaign_run.
  destruct (fault env CallStartCampaign); [exact HP |].
  destruct (broadcast_campaigns w !! campaignId job) as [row|] eqn:Hrow; [|exact HP].
  cbv beta iota zeta.
  assert (HP1 : P (set_campaigns
                     <[cid := Campaign.mk CampaignStatus.in_progress
                                (Campaign.lastSentAt row) (Campaign.metadata row)]> w))
    by (eapply Hcamp; eauto).
  unfold restoreSession. wp_run; try exact HP1;
    try (apply Hprog; [exact HP1 | now left]).
  match goal with |- wp _ _ (_, ?w2) => assert (HP2 : P w2) end.
  { apply Hev; [|now left]. apply Hprog; [exact HP1 | now left]. }
  unfold sendLoop. wp_run; [exact HP2 |].
  eapply wp_mono.
  - apply Hloop; [apply Hprog; [exact HP2 | now left] | reflexivity |].
    rewrite afterUpdateProgress_events. cbn. now rewrite sessionOpen_snoc.
  - intros [[]|e] [f2 w2] HQ; cbn [snd] in *; [|exact HQ].
    eapply wp_mono; [apply terminalDecision_preserves; exact HQ |].
    now intros.
Qed.

End WholeRun.

Section WholeRunFacts.
Import Str Num Classifier WorldOps Broadcast Progress Handler.

(** ** Campaign rows *)

Lemma forOf_keeps_campaigns env job f w :
  f = mkFrame 0 0 0 0 false (antiSpam f) ->
  sessionOpen (events w) = true ->
  wp (forOf (recipients job) (iteration env job))
    (fun _ s' => broadcast_campaigns s'.2 = broadcast_campaigns w) (f, w).
Proof.
  intros Hf Hopen.
  apply wp_forOf with (I := loopInv (broadcast_campaigns w)).
  - unfold loopInv. cbn [fst snd]. rewrite Hf. cbn. repeat split; [exact Hopen | lia].
  - intros x s HI. eapply wp_mono; [apply iteration_keeps_loopInv; exact HI |].
    intros [[]|e] s' HI'; [exact HI' | apply HI'].
  - intros s HI. apply HI.
Qed.

(** X7. However a run ends, it leaves every other campaign's row as it
    was, and it neither creates nor deletes the row of its own
    campaign. *)
Theorem other_campaigns_untouched env job w res w' :
  handleBroadcastJob env job w = (res, w') ->
  (forall id, id <> campaignId job ->
              broadcast_campaigns w' !! id = broadcast_campaigns w !! id) /\
  (is_Some (broadcast_campaigns w' !! campaignId job)
   <-> is_Some (broadcast_campaigns w !! campaignId job)).
Proof.
  intros Hrun.
  set (P := fun w1 : World =>
              (forall id, id <> campaignId job ->
                          broadcast_campaigns w1 !! id = broadcast_campaigns w !! id) /\
              (is_Some (broadcast_campaigns w1 !! campaignId job)
               <-> is_Some (broadcast_campaigns w !! campaignId job))).
  refine (wp_elim _ (fun _ w1 => P w1) _ _ _ _ Hrun).
  apply handleBroadcastJob_preserves.
  - intros w1 row0 row [Ho Hs] Hrow. split.
    + intros id Hid. cbn. rewrite lookup_insert_ne by congruence. now apply Ho.
    + cbn. rewrite lookup_insert_eq. rewrite <- Hs, Hrow. split; eauto.
  - intros w1 site st p s f k err HP _. unfold P.
    now rewrite afterUpdateProgress_campaigns.
  - intros w1 e HP _. exact HP.
  - intros w1 HP. exact HP.
  - intros f w1 HP Hf Hopen.
    eapply wp_mono; [apply forOf_keeps_campaigns; assumption |].
    intros r [f2 w2] Hc. cbn [snd] in *. unfold P. now rewrite Hc.
  - split; [reflexivity | reflexivity].
Qed.

(** X7 at a run that throws for want of a stored session. *)
Lemma other_campaigns_untouched_witness :
  let run := handleBroadcastJob (Fixture.envNoSession Fixture.noFault)
               (Fixture.job ["@ann"]) Fixture.world in
  broadcast_campaigns run.2 !! "c2" = None /\
  is_Some (broadcast_campaigns run.2 !! "c1").
Proof.
  intros run.
  destruct (other_campaigns_untouched _ _ _ _ _ (surjective_pairing run))
    as [Hother Hown].
  split.
  - rewrite (Hother "c2") by discriminate. reflexivity.
  - apply Hown. eexists. reflexivity.
Defined.

(** ** A campaign that does not exist *)

(** X8. For a campaign that has no row, [handleBroadcastJob] throws and
    changes nothing at all: no snapshot is written, nothing is reported
    to the Bull job and nothing is sent; when the queries themselves do
    not reject, the error is the [NotFoundError] of the status update made
    in the [catch]. *)
Theorem missing_campaign_changes_nothing env job w :
  broadcast_campaigns w !! campaignId job = None ->
  exists e,
    handleBroadcastJob env job w = (Throw e, w) /\
    (fault env CallStartCampaign = None ->
     fault env (CallSelectMetadata Catch) = None ->
     fault env (CallUpdateCampaign Catch) = None ->
     e = NotFoundError ("Campaign " +:+ campaignId job +:+ " not found")).
Proof.
  intros Hnone.
  unfold handleBroadcastJob, try_catch, tryBody, prologue.
  unfold bind at 1 2. rewrite startCampaign_run, Hnone.
  assert (Hcatch : forall e0,
             exists e,
               onJobError env job e0 w = (Throw e, w) /\
               (fault env (CallSelectMetadata Catch) = None ->
                fault env (CallUpdateCampaign Catch) = None ->
                e = NotFoundError ("Campaign " +:+ campaignId job +:+ " not found"))).
  { intros e0. unfold onJobError. unfold bind at 1.
    rewrite updateCampaignStatus_run. cbn [u_metadata u_campaignId].
    destruct (fault env (CallSelectMetadata Catch)) as [e1|];
      [exists e1; split; [reflexivity | discriminate] |].
    rewrite Hnone.
    destruct (fault env (CallUpdateCampaign Catch)) as [e2|];
      [exists e2; split; [reflexivity | discriminate] |].
    eexists. split; [reflexivity | reflexivity]. }
  destruct (fault env CallStartCampaign) as [e0|].
  - destruct (Hcatch e0) as (e & He & _). exists e. split; [exact He | discriminate].
  - destruct (Hcatch (NotFoundError ("Campaign " +:+ campaignId job +:+ " not found")))
      as (e & He & Hnf).
    exists e. split; [exact He | auto].
Qed.

(** X8 at a job for the unknown campaign [c2]. *)
Lemma missing_campaign_changes_nothing_witness :
  handleBroadcastJob (Fixture.env Fixture.noFault)
    (mkJob "c2" "u1" ["@ann"] "hello" None) Fixture.world
  = (Throw (NotFoundError "Campaign c2 not found"), Fixture.world).
Proof.
  destruct (missing_campaign_changes_nothing (Fixture.env Fixture.noFault)
              (mkJob "c2" "u1" ["@ann"] "hello" None) Fixture.world eq_refl)
    as (e & Hrun & He).
  rewrite Hrun. now rewrite (He eq_refl eq_refl eq_refl).
Defined.

End WholeRunFacts.

Section Reports.
Import Str Num Classifier WorldOps Broadcast Progress Handler.

Lemma progressOf_mono (p p' n : nat) :
  p <= p' -> (progressOf p n <= progressOf p' n)%Z.
Proof.
  intros Hle. unfold progressOf. destruct (0 <? n)%nat eqn:E; [|lia].
  apply Nat.ltb_lt in E. pose proof (num_pos _ E) as Hpos.
  unfold Math_round. apply Qfloor_resp_le.
  apply Qplus_le_l, Qmult_le_compat_r; [|discriminate].
  apply Qmult_le_compat_r; [|apply Qlt_le_weak, Qinv_lt_0_compat, Hpos].
  unfold num, Qle. simpl. lia.
Qed.

Lemma progressOf_none (n : nat) : progressOf 0 n = 0%Z.
Proof.
  unfold progressOf. destruct (0 <? n)%nat; [|reflexivity].
  unfold Math_round.
  assert (Heq : (num 0 / num n * 100 + (1 # 2) == 1 # 2)%Q)
    by (unfold Qdiv; change (num 0) with 0%Q; ring).
  now rewrite Heq.
Qed.

Lemma progressOf_bounds (p n : nat) :
  p <= n -> (0 <= progressOf p n <= 100)%Z.
Proof.
  intros Hle. destruct n as [|n].
  - rewrite progressOf_zero. lia.
  - split.
    + rewrite <- (progressOf_none (S n)). apply progressOf_mono. lia.
    + rewrite <- (progressOf_full (S n)) by lia. now apply progressOf_mono.
Qed.

Lemma reportOf_snapshotOf env job st p s f k err :
  p <= length (recipients job) ->
  reportOf env job
    (snapshotOf env (campaignId job) st p (length (recipients job)) s f k err).
Proof. intros Hp. unfold reportOf, snapshotOf. cbn. auto. Qed.

Lemma reported_refl env job w : reported env job w w.
Proof. exists []. rewrite !app_nil_r. repeat split. constructor. Qed.

Lemma reported_same env job w0 w w' :
  reported env job w0 w ->
  progress_writes w' = progress_writes w -> job_progress w' = job_progress w ->
  reported env job w0 w'.
Proof. intros (ws & Hw & Hj & Hall) Ew Ej. exists ws. now rewrite Ew, Ej. Qed.

Lemma reported_update env job w0 w site st p s f k err :
  reported env job w0 w -> p <= length (recipients job) ->
  reported env job w0
    (afterUpdateProgress env site
       (snapshotOf env (campaignId job) st p (length (recipients job)) s f k err) w).
Proof.
  intros (ws & Hw & Hj & Hall) Hp.
  exists (ws ++ [snapshotOf env (campaignId job) st p (length (recipients job))
                   s f k err]).
  rewrite afterUpdateProgress_writes, afterUpdateProgress_job, Hw, Hj, map_app,
    !app_assoc.
  repeat split. apply List.Forall_app. split; [exact Hall |].
  constructor; [now apply reportOf_snapshotOf | constructor].
Qed.

Lemma iteration_reports env job r w0 k f w :
  processed f = k -> k < length (recipients job) -> reported env job w0 w ->
  wp (iteration env job r)
    (fun res s' =>
       reported env job w0 s'.2 /\
       match res with
       | Return _ => processed s'.1 = k + 1
       | Throw _ => True
       end) (f, w).
Proof.
  intros Hk Hlt Hrep. unfold iteration. wp_run.
  apply wp_sendMessageToRecipient. intros res0 evs _ _ _.
  destruct res0 as [[]|e]; cbv beta iota; [|unfold onSendError];
    wp_run; try unfold onSendError; wp_run; cbn [fst snd].
  all: split; [|try exact I; cbn; lia].
  all: try (apply reported_update; [|cbn; lia]).
  all: eapply reported_same; [exact Hrep | reflexivity | reflexivity].
Qed.

Lemma StronglySorted_progress (n : nat) (ws : list Snapshot.t) :
  Forall (fun s => Snapshot.total s = n /\
                   Snapshot.progress s
                   = progressOf (Snapshot.processed s) (Snapshot.total s)) ws ->
  StronglySorted le (map Snapshot.processed ws) ->
  StronglySorted Z.le (map Snapshot.progress ws).
Proof.
  induction ws as [|s ws IH]; cbn; intros Hall Hs; [constructor |].
  inversion Hall as [|? ? [Hn Hp] Hall']; subst.
  inversion Hs as [|? ? Hs' Hle]; subst.
  constructor; [now apply IH |].
  rewrite List.Forall_map in Hle |- *.
  rewrite List.Forall_forall in Hle, Hall' |- *.
  intros s' Hin. destruct (Hall' s' Hin) as [Hn' Hp'].
  rewrite Hp, Hp', Hn'. apply progressOf_mono. now apply Hle.
Qed.

(** X9. However a run ends, the snapshots it wrote are all for the job's
    campaign with [total] the number of recipients and [processed] at
    most [total]; the values reported to the Bull job are exactly the
    [progress] fields of these snapshots, in order; each lies between 0
    and 100, and they never decrease. *)
Theorem progress_reports_bounded_and_monotone env job w res w' :
  handleBroadcastJob env job w = (res, w') ->
  exists ws,
    progress_writes w' = progress_writes w ++ ws /\
    job_progress w' = job_progress w ++ map Snapshot.progress ws /\
    Forall (fun s =>
              Snapshot.campaignId s = campaignId job /\
              Snapshot.total s = length (recipients job) /\
              Snapshot.processed s <= Snapshot.total s /\
              (0 <= Snapshot.progress s <= 100)%Z) ws /\
    StronglySorted Z.le (map Snapshot.progress ws).
Proof.
  intros Hrun.
  assert (Hrep : reported env job w w').
  { refine (wp_elim _ (fun _ w1 => reported env job w w1) _ _ _ _ Hrun).
    apply handleBroadcastJob_preserves.
    - intros w1 row0 row HP _. eapply reported_same; [exact HP | |]; reflexivity.
    - intros w1 site st p s f k err HP [-> | ->]; apply reported_update; auto; lia.
    - intros w1 e HP _. eapply reported_same; [exact HP | |]; reflexivity.
    - intros w1 HP. eapply reported_same; [exact HP | |]; reflexivity.
    - intros f w1 HP Hf _.
      apply wp_forOf_indexed
        with (I := fun k s => processed s.1 = k /\ reported env job w s.2).
      + cbn [fst snd]. split; [now rewrite Hf | exact HP].
      + intros k x [f1 w1'] Hk [Hp1 Hr1]. cbn [fst snd] in *.
        eapply wp_mono; [apply iteration_reports; [exact Hp1 | exact Hk | exact Hr1] |].
        intros [[]|e] s' [Hr' Hp']; [now split | exact Hr'].
      + now intros s' [_ Hr].
    - apply reported_refl. }
  destruct Hrep as (ws & Hw & Hj & Hall).
  destruct (processed_written_nondecreasing _ _ _ _ _ Hrun) as (ws' & Hw' & Hs).
  assert (ws' = ws) as -> by (rewrite Hw in Hw'; now apply app_inv_head in Hw').
  exists ws. split; [exact Hw |]. split; [exact Hj |]. split.
  - eapply List.Forall_impl; [|exact Hall].
    intros s (Hc & Ht & Hp & Hpr & _). repeat split; try assumption.
    all: rewrite Hpr; now apply progressOf_bounds.
  - apply (StronglySorted_progress (length (recipients job))); [|exact Hs].
    eapply List.Forall_impl; [|exact Hall].
    now intros s (_ & Ht & _ & Hpr & _).
Qed.

(** X9 at the mixed run: 0, 0, 25, 50, 75, 100, 100. *)
Lemma progress_reports_bounded_and_monotone_witness :
  let run := handleBroadcastJob (Fixture.env Fixture.oneInvalidOneTimeout)
               (Fixture.job ["111"; "222"; "333"; "444"]) Fixture.world in
  job_progress run.2 = map Snapshot.progress (progress_writes run.2) /\
  StronglySorted Z.le (job_progress run.2) /\
  job_progress run.2 = [0; 0; 25; 50; 75; 100; 100]%Z.
Proof.
  intros run.
  destruct (progress_reports_bounded_and_monotone _ _ _ _ _ (surjective_pairing run))
    as (ws & Hw & Hj & _ & Hs).
  cbn [Fixture.world progress_writes job_progress app] in Hw, Hj.
  rewrite Hj, Hw. split; [reflexivity |]. split; [exact Hs |].
  rewrite <- Hj. vm_compute. reflexivity.
Defined.

End Reports.

Section PacedCalls.
Import Str Num Classifier WorldOps Broadcast Progress Handler.

Lemma paced_app (b : bool) (a c : list Event) :
  paced b (a ++ c) = match paced b a with
                     | Some b' => paced b' c
                     | None => None
                     end.
Proof.
  revert b. induction a as [|e a IH]; intros b; [reflexivity |].
  destruct e; cbn; try apply IH; destruct b; try reflexivity; apply IH.
Qed.

Lemma pacedSince_refl w : pacedSince w w.
Proof. exists [], false. now rewrite app_nil_r. Qed.

Lemma pacedSince_same w0 w w' :
  pacedSince w0 w -> events w' = events w -> pacedSince w0 w'.
Proof. intros (evs & b & He & Hp) E. exists evs, b. now rewrite E. Qed.

(** After any paced prefix, a pacing delay followed by [evs], paced when
    armed, is paced. *)
Lemma pacedSince_turn w0 w w' svc evs b :
  pacedSince w0 w ->
  events w' = events w ++ EvPacingDelay svc :: evs ->
  paced true evs = Some b ->
  pacedSince w0 w'.
Proof.
  intros (evs0 & b0 & He & Hp) E Hb.
  exists (evs0 ++ EvPacingDelay svc :: evs), b.
  rewrite E, He, <- app_assoc. split; [reflexivity |].
  rewrite paced_app, Hp. exact Hb.
Qed.

Lemma pacedSince_neutral w0 w e :
  pacedSince w0 w -> e = EvConnect \/ e = EvDisconnect ->
  pacedSince w0 (add_event e w).
Proof.
  intros (evs0 & b0 & He & Hp) Hn. exists (evs0 ++ [e]), b0. cbn.
  rewrite He, <- app_assoc. split; [reflexivity |].
  rewrite paced_app, Hp. now destruct Hn as [-> | ->].
Qed.

Lemma sendOutcome_paced env i r text res evs :
  sendOutcome env i r text res evs ->
  (exists b, paced true evs = Some b) /\
  (forall ms, exists b, paced true (evs ++ [EvFloodSleep ms]) = Some b).
Proof.
  unfold sendOutcome, lookupEvents. intros Ho.
  destruct res as [[]|e].
  - subst evs. destruct (startsWith r "@"); cbn; eauto.
  - destruct Ho as (m & _ & [(_ & _ & ->) | (_ & ->)]);
      [|destruct (startsWith r "@")]; cbn; eauto.
Qed.

Lemma iteration_paced env job r w0 f w :
  pacedSince w0 w ->
  wp (iteration env job r) (fun _ s' => pacedSince w0 s'.2) (f, w).
Proof.
  intros Hp. unfold iteration. wp_run.
  apply wp_sendMessageToRecipient_outcome. intros res0 evs Ho.
  destruct (sendOutcome_paced _ _ _ _ _ _ Ho) as ((b' & Hb') & Hsleep).
  destruct res0 as [[]|e]; cbv beta iota; [|unfold onSendError];
    wp_run; try unfold onSendError; wp_run; cbn [fst snd].
  all: try match goal with
           | |- pacedSince _ (afterUpdateProgress _ _ _ ?w1) =>
               apply (pacedSince_same _ w1); [|apply afterUpdateProgress_events]
           end.
  all: try match goal with
           | |- context [EvFloodSleep ?ms] =>
               let bs := fresh "bs" in
               let Hbs := fresh "Hbs" in
               destruct (Hsleep ms) as (bs & Hbs);
               eapply (pacedSince_turn _ _ _ _ _ bs);
               [exact Hp | cbn; rewrite <- !app_assoc; reflexivity | exact Hbs]
           end.
  all: eapply (pacedSince_turn _ _ _ _ evs b');
    [exact Hp | cbn; rewrite <- ?app_assoc; reflexivity | exact Hb'].
Qed.

(** X10. However a run ends, every call it made on the Telegram client
    was paced: each entity lookup and each send comes after a pacing
    delay taken since the previous send, so that no two messages go out
    without a delay between them. *)
Theorem every_telegram_call_is_paced env job w res w' :
  handleBroadcastJob env job w = (res, w') ->
  exists evs,
    events w' = events w ++ evs /\
    paced false evs <> None.
Proof.
  intros Hrun.
  assert (H : pacedSince w w').
  { refine (wp_elim _ (fun _ w1 => pacedSince w w1) _ _ _ _ Hrun).
    apply handleBroadcastJob_preserves.
    - intros w1 row0 row HP _. eapply pacedSince_same; [exact HP | reflexivity].
    - intros w1 site st p s f k err HP _.
      eapply pacedSince_same; [exact HP | apply afterUpdateProgress_events].
    - intros w1 e HP He. now apply pacedSince_neutral.
    - intros w1 HP. eapply pacedSince_same; [exact HP | reflexivity].
    - intros f w1 HP _ _.
      apply wp_forOf with (I := fun s => pacedSince w s.2).
      + exact HP.
      + intros x [f1 w2] HI. eapply wp_mono; [apply iteration_paced; exact HI |].
        now intros [[]|e] s'.
      + auto.
    - apply pacedSince_refl. }
  destruct H as (evs & b & He & Hp). exists evs. split; [exact He |].
  now rewrite Hp.
Qed.

(** X10 at the mixed run. *)
Lemma every_telegram_call_is_paced_witness :
  let run := handleBroadcastJob (Fixture.env Fixture.oneInvalidOneTimeout)
               (Fixture.job ["111"; "@bea"; "333"; "444"]) Fixture.world in
  paced false (events run.2) <> None.
Proof.
  intros run.
  destruct (every_telegram_call_is_paced _ _ _ _ _ (surjective_pairing run))
    as (evs & He & Hp).
  cbn [Fixture.world events app] in He. now rewrite He.
Defined.

End PacedCalls.

Section FloodWaitText.
Import Str Classifier Routes TextShapes.







End FloodWaitText.

Section PacingMore.
Import Num AntiSpam PacingStats.
Local Open Scope R_scope.

Lemma failureRate_unit (svc : AntiSpamService) :
  (0 <= failureRate svc <= 1)%Q.
Proof.
  unfold failureRate.
  destruct (0 <? successCount svc + failureCount svc)%nat eqn:E;
    [|split; discriminate].
  apply Nat.ltb_lt in E. pose proof (num_pos _ E) as Hpos. split.
  - apply Qle_shift_div_l; [exact Hpos |]. unfold num, Qle. simpl. lia.
  - apply Qle_shift_div_r; [exact Hpos |]. unfold num, Qle. simpl. lia.
Qed.

(** The backoff factor lies between 1 and the multiplier. *)
Lemma backoff_bounds (svc : AntiSpamService) :
  1 <= Rpower BACKOFF_MULTIPLIER (Rmax 0 (Q2R (failureRate svc))) <= 15 / 10.
Proof.
  destruct (failureRate_unit svc) as [H0 H1].
  apply Qle_Rle in H0, H1. rewrite RMicromega.Q2R_0 in H0.
  rewrite RMicromega.Q2R_1 in H1.
  assert (Hb : 1 <= BACKOFF_MULTIPLIER) by (unfold BACKOFF_MULTIPLIER; lra).
  assert (Hp : 0 < BACKOFF_MULTIPLIER) by (unfold BACKOFF_MULTIPLIER; lra).
  split.
  - rewrite <- (Rpower_O BACKOFF_MULTIPLIER Hp) at 1.
    apply Rle_Rpower; [exact Hb | apply Rmax_l].
  - replace (15 / 10) with (Rpower BACKOFF_MULTIPLIER 1)
      by (rewrite Rpower_1; [reflexivity | exact Hp]).
    apply Rle_Rpower; [exact Hb |]. apply Rmax_lub; lra.
Qed.

Lemma getBaseDelay_bounds (svc : AntiSpamService) :
  500 <= getBaseDelay svc <= 1000.
Proof.
  unfold getBaseDelay, BASE_DELAY_MS.
  destruct (_ =? 0)%Z; [lra |]. destruct (_ <? 7)%Z; lra.
Qed.

Lemma Math_round_R_int (z : Z) : Math_round_R (IZR z) = z.
Proof. unfold Math_round_R. apply Zfloor_eq. lra. Qed.

Lemma Math_round_R_ge (z : Z) (x : R) : IZR z <= x -> (z <= Math_round_R x)%Z.
Proof.
  intros H. rewrite <- (Math_round_R_int z) at 1. now apply Math_round_R_le.
Qed.

Lemma Math_round_R_le_int (z : Z) (x : R) : x <= IZR z -> (Math_round_R x <= z)%Z.
Proof.
  intros H. rewrite <- (Math_round_R_int z). now apply Math_round_R_le.
Qed.

(** X12. Whatever the account age and the outcomes recorded so far, a
    delay computed without flood wait lies between 400 and 1800 ms and
    one computed with flood wait between 1200 and 5000 ms: the lower
    clamp at 0 never applies, and the upper clamp at [MAX_DELAY_MS] can
    apply only to a flood wait. *)
Theorem calculateDelay_ranges svc random :
  0 <= random <= 1 ->
  (400 <= calculateDelay svc false random <= 1800)%Z /\
  (1200 <= calculateDelay svc true random <= 5000)%Z.
Proof.
  intros Hr. unfold calculateDelay, MAX_DELAY_MS, JITTER_PERCENT.
  pose proof (getBaseDelay_bounds svc) as Hb.
  pose proof (backoff_bounds svc) as Hp.
  set (base := getBaseDelay svc) in *.
  set (p := Rpower BACKOFF_MULTIPLIER (Rmax 0 (Q2R (failureRate svc)))) in *.
  assert (Hd : 500 <= base * p <= 1500) by nra.
  set (d := base * p) in *.
  split.
  - assert (H1 : (400 <= Math_round_R (d + (random - 5 / 10) * 2 * (d * (2 / 10))))%Z)
      by (apply Math_round_R_ge; nra).
    assert (H2 : (Math_round_R (d + (random - 5 / 10) * 2 * (d * (2 / 10))) <= 1800)%Z)
      by (apply Math_round_R_le_int; nra).
    lia.
  - assert (H1 : (1200 <= Math_round_R (d * 3 + (random - 5 / 10) * 2 * (d * 3 * (2 / 10))))%Z)
      by (apply Math_round_R_ge; nra).
    lia.
Qed.

(** X12 at a three-day-old account and the middle draw. *)
Lemma calculateDelay_ranges_witness :
  (400 <= calculateDelay (new (Some 3%Z)) false (5 / 10) <= 1800)%Z /\
  (1200 <= calculateDelay (new (Some 3%Z)) true (5 / 10) <= 5000)%Z.
Proof. apply calculateDelay_ranges. lra. Defined.

(** X13. In the same pacing state and for the same random draw, the delay
    after a flood wait is never shorter than the ordinary one. *)
Theorem flood_wait_never_shortens_delay svc random :
  0 <= random <= 1 ->
  (calculateDelay svc false random <= calculateDelay svc true random)%Z.
Proof.
  intros Hr. unfold calculateDelay.
  apply Z.min_le_compat_r, Z.max_le_compat_r, Math_round_R_le.
  pose proof (getBaseDelay_bounds svc) as Hb.
  pose proof (backoff_bounds svc) as Hp.
  set (base := getBaseDelay svc) in *.
  set (p := Rpower BACKOFF_MULTIPLIER (Rmax 0 (Q2R (failureRate svc)))) in *.
  assert (Hd : 500 <= base * p) by nra.
  set (d := base * p) in *. unfold JITTER_PERCENT. nra.
Qed.

(** X13 at an account that has seen one failure. *)
Lemma flood_wait_never_shortens_delay_witness :
  (calculateDelay (mkAntiSpam (Some 3%Z) 1 0) false (5 / 10)
   <= calculateDelay (mkAntiSpam (Some 3%Z) 1 0) true (5 / 10))%Z.
Proof. apply flood_wait_never_shortens_delay. lra. Defined.

Lemma calculateDelay_mono_in_rate age f1 s1 f2 s2 isFloodWait random :
  0 <= random <= 1 ->
  (failureRate (mkAntiSpam age f1 s1) <= failureRate (mkAntiSpam age f2 s2))%Q ->
  (calculateDelay (mkAntiSpam age f1 s1) isFloodWait random
   <= calculateDelay (mkAntiSpam age f2 s2) isFloodWait random)%Z.
Proof.
  intros Hu Hrate. unfold calculateDelay.
  apply Z.min_le_compat_r, Z.max_le_compat_r, Math_round_R_le.
  set (base := getBaseDelay (mkAntiSpam age f1 s1)).
  assert (Hbase : getBaseDelay (mkAntiSpam age f2 s2) = base) by reflexivity.
  rewrite Hbase.
  assert (Hpos : 0 < base) by apply getBaseDelay_pos.
  apply Qle_Rle in Hrate.
  set (r1 := Q2R (failureRate (mkAntiSpam age f1 s1))) in *.
  set (r2 := Q2R (failureRate (mkAntiSpam age f2 s2))) in *.
  assert (Hpow : Rpower BACKOFF_MULTIPLIER (Rmax 0 r1)
                 <= Rpower BACKOFF_MULTIPLIER (Rmax 0 r2)).
  { apply Rle_Rpower; [unfold BACKOFF_MULTIPLIER; lra |].
    apply Rmax_lub; [apply Rmax_l |].
    apply Rle_trans with r2; [exact Hrate | apply Rmax_r]. }
  set (p1 := Rpower BACKOFF_MULTIPLIER (Rmax 0 r1)) in *.
  set (p2 := Rpower BACKOFF_MULTIPLIER (Rmax 0 r2)) in *.
  unfold JITTER_PERCENT.
  assert (Hd : base * p1 <= base * p2) by (apply Rmult_le_compat_l; lra).
  destruct isFloodWait; nra.
Qed.

Lemma failureRate_recordFailure (svc : AntiSpamService) :
  (failureRate svc <= failureRate (recordFailure svc))%Q.
Proof.
  unfold failureRate, recordFailure. cbn [successCount failureCount].
  set (s := successCount svc). set (f := failureCount svc).
  assert (E1 : (0 <? s + (f + 1))%nat = true) by (apply Nat.ltb_lt; lia).
  rewrite E1.
  assert (Hpos1 : (0 < num (s + (f + 1)))%Q) by (apply num_pos; lia).
  destruct (0 <? s + f)%nat eqn:E.
  - apply Nat.ltb_lt in E. pose proof (num_pos _ E) as Hpos.
    apply Qle_shift_div_r; [exact Hpos |].
    unfold Qdiv. rewrite <- Qmult_assoc, (Qmult_comm (/ _)), Qmult_assoc.
    apply Qle_shift_div_l; [exact Hpos1 |].
    unfold num, Qle. simpl. nia.
  - apply Qle_shift_div_l; [exact Hpos1 |]. unfold num, Qle. simpl. lia.
Qed.

Lemma failureRate_recordSuccess (svc : AntiSpamService) :
  (failureRate (recordSuccess svc) <= failureRate svc)%Q.
Proof.
  unfold failureRate, recordSuccess. cbn [successCount failureCount].
  set (s := successCount svc). set (f := failureCount svc).
  assert (E1 : (0 <? s + 1 + f)%nat = true) by (apply Nat.ltb_lt; lia).
  rewrite E1.
  assert (Hpos1 : (0 < num (s + 1 + f))%Q) by (apply num_pos; lia).
  destruct (0 <? s + f)%nat eqn:E.
  - apply Nat.ltb_lt in E. pose proof (num_pos _ E) as Hpos.
    apply Qle_shift_div_r; [exact Hpos1 |].
    unfold Qdiv. rewrite <- Qmult_assoc, (Qmult_comm (/ _)), Qmult_assoc.
    apply Qle_shift_div_l; [exact Hpos |].
    unfold num, Qle. simpl. nia.
  - apply Nat.ltb_ge in E. assert (f = 0%nat) as -> by lia.
    apply Qle_shift_div_r; [exact Hpos1 |]. unfold num, Qle. simpl. lia.
Qed.

(** X14. The recorded outcomes steer the pacing: for the same random draw,
    the delay computed after one more recorded success is never longer,
    and the delay computed after one more recorded failure never
    shorter, than the delay computed before. *)
Theorem outcomes_steer_delay svc isFloodWait random :
  0 <= random <= 1 ->
  (calculateDelay (recordSuccess svc) isFloodWait random
   <= calculateDelay svc isFloodWait random
   <= calculateDelay (recordFailure svc) isFloodWait random)%Z.
Proof.
  intros Hr. destruct svc as [age f s]. split.
  - apply calculateDelay_mono_in_rate; [exact Hr |].
    apply (failureRate_recordSuccess (mkAntiSpam age f s)).
  - apply calculateDelay_mono_in_rate; [exact Hr |].
    apply (failureRate_recordFailure (mkAntiSpam age f s)).
Qed.

(** X14 at an account with one success and one failure. *)
Lemma outcomes_steer_delay_witness :
  (calculateDelay (mkAntiSpam (Some 3%Z) 1 2) false (5 / 10)
   <= calculateDelay (mkAntiSpam (Some 3%Z) 1 1) false (5 / 10)
   <= calculateDelay (mkAntiSpam (Some 3%Z) 2 1) false (5 / 10))%Z.
Proof.
  apply (outcomes_steer_delay (mkAntiSpam (Some 3%Z) 1 1) false (5 / 10)). lra.
Defined.

Local Close Scope R_scope.

Lemma record_counts (outcomes : list bool) (svc : AntiSpamService) :
  record outcomes svc
  = mkAntiSpam (accountAge svc)
      (failureCount svc + count_occ bool_dec outcomes false)
      (successCount svc + count_occ bool_dec outcomes true).
Proof.
  unfold record. revert svc.
  induction outcomes as [|[] outs IH]; intros svc; cbn.
  - destruct svc. cbn. now rewrite !Nat.add_0_r.
  - rewrite IH. cbn. f_equal; lia.
  - rewrite IH. cbn. f_equal; lia.
Qed.

Lemma count_occ_bool (l : list bool) :
  count_occ bool_dec l true + count_occ bool_dec l false = length l.
Proof.
  induction l as [|b l IH]; [reflexivity |].
  destruct b; cbn [count_occ length];
    repeat match goal with
           | |- context [bool_dec ?a ?b] => destruct (bool_dec a b); try congruence
           end; lia.
Qed.

(** X15. After [reset()], whatever sequence of [recordSuccess()] and
    [recordFailure()] calls follows, [getStats()] reports exactly the
    numbers of each, which add up to the number of calls; its failure
    rate lies between 0 and 1 and is 0 exactly when no failure was
    recorded.  A reset object behaves as a new one of the same
    configuration. *)
Theorem stats_count_outcomes (outcomes : list bool) (svc : AntiSpamService) :
  let stats := getStats (record outcomes (reset svc)) in
  let ok := count_occ bool_dec outcomes true in
  let ko := count_occ bool_dec outcomes false in
  s_successCount stats = ok /\
  s_failureCount stats = ko /\
  ok + ko = length outcomes /\
  (0 <= s_failureRate stats <= 1)%Q /\
  ((s_failureRate stats == 0)%Q <-> ko = 0) /\
  record outcomes (reset svc) = record outcomes (new (accountAge svc)).
Proof.
  cbv zeta. rewrite record_counts.
  unfold getStats, reset.
  cbn [s_successCount s_failureCount s_failureRate successCount failureCount
       accountAge Nat.add].
  set (ok := count_occ bool_dec outcomes true).
  set (ko := count_occ bool_dec outcomes false).
  split; [reflexivity |]. split; [reflexivity |]. split.
  { apply count_occ_bool. }
  split.
  { apply (failureRate_unit (mkAntiSpam (accountAge svc) ko ok)). }
  split; [|now rewrite record_counts].
  destruct (0 <? ok + ko)%nat eqn:E.
  - apply Nat.ltb_lt in E. pose proof (num_pos _ E) as Hpos. split.
    + intros H. destruct ko as [|k]; [reflexivity |]. exfalso.
      assert (Hlt : (0 < num (S k) / num (ok + S k))%Q).
      { apply Qlt_shift_div_l; [exact Hpos |]. unfold num, Qlt. simpl. lia. }
      rewrite H in Hlt. now apply (Qlt_irrefl 0).
    + intros ->. unfold Qdiv. change (num 0) with 0%Q. ring.
  - apply Nat.ltb_ge in E. split; [lia | reflexivity].
Qed.

End PacingMore.

Section StoreMore.
Import WorldOps Broadcast BroadcastQueries Progress.

Lemma getCampaign_run query cid w :
  getCampaign query cid w
  = match query, broadcast_campaigns w !! cid with
    | Some e, _ => (Throw e, w)
    | None, Some row => (Return row, w)
    | None, None =>
        (Throw (NotFoundError ("Campaign " +:+ cid +:+ " not found")), w)
    end.
Proof.
  unfold getCampaign, bind, rejects, get, ret, throw.
  destruct query; [reflexivity |]. cbv beta iota.
  now destruct (broadcast_campaigns w !! cid).
Qed.

(** X16. A [startCampaign] that returns has set the status of the
    campaign's row to [in_progress] and left its metadata and its
    [last_sent_at] as they were; [getCampaign] reads the returned row
    back, and the other rows, the outcome log and Redis are untouched.
    (The [UPDATE] also sets [updated_at], a column that is not part of
    the rows here; nothing is said about it.) *)
Theorem startCampaign_keeps_metadata_and_date env cid w row' w' :
  startCampaign env cid w = (Return row', w') ->
  exists row,
    broadcast_campaigns w !! cid = Some row /\
    Campaign.status row' = CampaignStatus.in_progress /\
    Campaign.metadata row' = Campaign.metadata row /\
    Campaign.lastSentAt row' = Campaign.lastSentAt row /\
    getCampaign None cid w' = (Return row', w') /\
    (forall id, id <> cid ->
                broadcast_campaigns w' !! id = broadcast_campaigns w !! id) /\
    broadcast_logs w' = broadcast_logs w /\ redis w' = redis w.
Proof.
  rewrite startCampaign_run.
  destruct (fault env CallStartCampaign); [discriminate |].
  destruct (broadcast_campaigns w !! cid) as [row|] eqn:Hrow; [|discriminate].
  cbv zeta. intros [= <- <-]. exists row.
  rewrite getCampaign_run. cbn. rewrite lookup_insert_eq.
  repeat split; try reflexivity.
  intros id Hid. now rewrite lookup_insert_ne.
Qed.

(** X16 at the scheduled campaign [c1]. *)
Lemma startCampaign_keeps_metadata_and_date_witness :
  let run := startCampaign (Fixture.env Fixture.noFault) "c1" Fixture.world in
  exists row',
    getCampaign None "c1" run.2 = (Return row', run.2) /\
    Campaign.status row' = CampaignStatus.in_progress /\
    broadcast_logs run.2 = [].
Proof.
  intros run.
  assert (Hrun : run = (Return (Campaign.mk CampaignStatus.in_progress None
                                  {[ "retry_count" := JNumber 1 ]}), run.2))
    by (vm_compute; reflexivity).
  destruct (startCampaign_keeps_metadata_and_date _ _ _ _ _ Hrun)
    as (row & _ & Hst & _ & _ & Hget & _ & Hlogs & _).
  eexists. split; [exact Hget |]. split; [exact Hst | exact Hlogs].
Defined.

(** X17. [updateCampaignStatus] either returns, and then the row existed,
    [getCampaign] reads the returned row back with the new status,
    [last_sent_at] is the given date or, when none is given, the old one,
    and no other row changed; or it throws and has changed nothing.  For
    a campaign without a row it throws, and when the queries themselves do
    not reject the error is the [NotFoundError] naming the campaign. *)
Theorem updateCampaignStatus_outcome env site input w res w' :
  updateCampaignStatus env site input w = (res, w') ->
  match res with
  | Return row' =>
      exists row,
        broadcast_campaigns w !! u_campaignId input = Some row /\
        getCampaign None (u_campaignId input) w' = (Return row', w') /\
        Campaign.status row' = u_status input /\
        Campaign.lastSentAt row'
        = (match u_lastSentAt input with
           | Some d => Some d
           | None => Campaign.lastSentAt row
           end) /\
        (forall id, id <> u_campaignId input ->
                    broadcast_campaigns w' !! id = broadcast_campaigns w !! id)
  | Throw e =>
      w' = w /\
      (broadcast_campaigns w !! u_campaignId input = None ->
       match u_metadata input with
       | Some _ => fault env (CallSelectMetadata site)
       | None => None
       end = None ->
       fault env (CallUpdateCampaign site) = None ->
       e = NotFoundError ("Campaign " +:+ u_campaignId input +:+ " not found"))
  end.
Proof.
  intros Hrun. destruct res as [row'|e].
  - destruct (updateCampaignStatus_cases env site input w)
      as [[e E] | (row & Hrow & E)]; rewrite E in Hrun; [discriminate |].
    injection Hrun as <- <-. exists row. rewrite getCampaign_run. cbn.
    rewrite lookup_insert_eq. repeat split; try assumption.
    intros id Hid. now rewrite lookup_insert_ne.
  - split.
    + destruct (updateCampaignStatus_cases env site input w)
        as [[e' E] | (row & Hrow & E)]; rewrite E in Hrun; [|discriminate].
      now injection Hrun as _ <-.
    + intros Hnone Hsel Hupd.
      rewrite updateCampaignStatus_run, Hsel, Hupd, Hnone in Hrun.
      now injection Hrun as <- _.
Qed.

(** X17 at an update of the unknown campaign [c2]. *)
Lemma updateCampaignStatus_outcome_witness :
  updateCampaignStatus (Fixture.env Fixture.noFault) Catch
    (mkUpdate "c2" CampaignStatus.failed None None) Fixture.world
  = (Throw (NotFoundError "Campaign c2 not found"), Fixture.world).
Proof.
  destruct (updateCampaignStatus _ _ _ _) as [res w'] eqn:E.
  pose proof (updateCampaignStatus_outcome _ _ _ _ _ _ E) as H.
  destruct res as [row'|e].
  - destruct H as (row & Hrow & _). vm_compute in Hrow. discriminate Hrow.
  - destruct H as [-> He]. now rewrite (He eq_refl eq_refl eq_refl).
Defined.

(** X18. Metadata patches accumulate: after two updates of a campaign that
    each carry a patch, a key of the stored metadata has the value of the
    second patch, else that of the first, else the value it had before;
    no key is dropped. *)
Theorem metadata_patches_accumulate env s1 s2 cid st1 st2 d1 d2 p1 p2 w row1 w1 row2 w2 :
  updateCampaignStatus env s1 (mkUpdate cid st1 d1 (Some p1)) w = (Return row1, w1) ->
  updateCampaignStatus env s2 (mkUpdate cid st2 d2 (Some p2)) w1 = (Return row2, w2) ->
  exists row,
    broadcast_campaigns w !! cid = Some row /\
    Campaign.status row2 = st2 /\
    forall k,
      Campaign.metadata row2 !! k
      = match p2 !! k with
        | Some v => Some v
        | None => match p1 !! k with
                  | Some v => Some v
                  | None => Campaign.metadata row !! k
                  end
        end.
Proof.
  intros H1 H2.
  destruct (updateCampaignStatus_cases env s1 (mkUpdate cid st1 d1 (Some p1)) w)
    as [[e E] | (row & Hrow & E)]; rewrite E in H1; [discriminate |].
  injection H1 as <- <-.
  destruct (updateCampaignStatus_cases env s2 (mkUpdate cid st2 d2 (Some p2))
              (set_campaigns
                 <[cid := updatedRow (mkUpdate cid st1 d1 (Some p1)) row]> w))
    as [[e E2] | (row' & Hrow' & E2)]; cbn [u_campaignId] in *;
    rewrite E2 in H2; [discriminate |].
  injection H2 as <- <-. cbn in Hrow'. rewrite lookup_insert_eq in Hrow'.
  injection Hrow' as <-.
  exists row. split; [exact Hrow |]. split; [reflexivity |].
  intros k. unfold updatedRow. cbn. now rewrite !spread_lookup.
Qed.

(** X18 at two patches of [c1]: the retry counter set before both is
    still there. *)
Lemma metadata_patches_accumulate_witness :
  let env := Fixture.env Fixture.noFault in
  let first := updateCampaignStatus env Initializing
                 (mkUpdate "c1" CampaignStatus.in_progress None
                    (Some {[ "sent" := JNumber 1 ]})) Fixture.world in
  let second := updateCampaignStatus env Catch
                  (mkUpdate "c1" CampaignStatus.failed None
                     (Some {[ "error" := JString "TIMEOUT" ]})) first.2 in
  exists row2,
    second.1 = Return row2 /\
    Campaign.metadata row2 !! "error" = Some (JString "TIMEOUT") /\
    Campaign.metadata row2 !! "sent" = Some (JNumber 1) /\
    Campaign.metadata row2 !! "retry_count" = Some (JNumber 1).
Proof.
  intros env first second.
  assert (E1 : exists row1, first = (Return row1, first.2))
    by (eexists; vm_compute; reflexivity).
  assert (E2 : exists row2, second = (Return row2, second.2))
    by (eexists; vm_compute; reflexivity).
  destruct E1 as [row1 E1], E2 as [row2 E2].
  destruct (metadata_patches_accumulate env Initializing Catch "c1"
              CampaignStatus.in_progress CampaignStatus.failed None None
              {[ "sent" := JNumber 1 ]} {[ "error" := JString "TIMEOUT" ]}
              Fixture.world row1 first.2 row2 second.2 E1 E2)
    as (row & Hrow & _ & Hk).
  injection Hrow as <-.
  exists row2. split; [now rewrite E2 |].
  rewrite !Hk. repeat split; reflexivity.
Defined.

End StoreMore.

Section ProgressMore.
Import WorldOps Broadcast Progress.

Lemma buildKey_inj (a b : string) : buildKey a = buildKey b -> a = b.
Proof.
  unfold buildKey, PROGRESS_KEY_PREFIX. intros H.
  now repeat (apply String.app_inj in H).
Qed.

Lemma readBroadcastProgress_run env cid w :
  readBroadcastProgress env cid w
  = (match fault env CallRedisGet with
     | Some _ => Return None
     | None =>
         match redis w !! buildKey cid with
         | None => Return None
         | Some (_, EmptyString) => Return None
         | Some (_, raw) =>
             match JSON_parse env raw with
             | Return s => Return (Some s)
             | Throw _ => Return None
             end
         end
     end, w).
Proof.
  unfold readBroadcastProgress, withRedisClient, try_catch, bind, rejects, get,
    ret, throw.
  destruct (fault env CallRedisGet); [reflexivity |]. cbv beta iota.
  destruct (redis w !! buildKey cid) as [[ttl [|c raw]]|]; try reflexivity.
  now destruct (JSON_parse env (String c raw)).
Qed.

(** X19. A snapshot saved while Redis accepts the write is read back: the
    payload is stored under the campaign's key with the one-day expiry,
    [readBroadcastProgress] returns it, provided [JSON.parse] reads back
    what [JSON.stringify] wrote, and reading any other campaign gives
    what it gave before. *)
Theorem saved_progress_is_read_back env site cid snapshot updated_at w payload w1 :
  saveBroadcastProgress env site cid snapshot updated_at w = (Return payload, w1) ->
  fault env (CallRedisSetEx site) = None ->
  fault env CallRedisGet = None ->
  JSON_stringify env payload <> "" ->
  JSON_parse env (JSON_stringify env payload) = Return payload ->
  Snapshot.campaignId payload = cid /\
  redis w1 !! buildKey cid = Some (PROGRESS_TTL_SECONDS, JSON_stringify env payload) /\
  readBroadcastProgress env cid w1 = (Return (Some payload), w1) /\
  (forall other, other <> cid ->
                 readBroadcastProgress env other w1
                 = ((readBroadcastProgress env other w).1, w1)).
Proof.
  intros Hsave Hset Hget Hne Hparse.
  revert Hsave.
  unfold saveBroadcastProgress, withRedisClient, try_catch, bind, rejects, modify,
    ret, throw.
  rewrite Hset. cbv beta iota. intros [= <- <-].
  split; [reflexivity |].
  match goal with |- context [JSON_stringify env ?p] => set (payload := p) in * end.
  assert (Hkey : redis (set_redis <[buildKey cid := (PROGRESS_TTL_SECONDS,
                                                      JSON_stringify env payload)]>
                          (add_progress_write payload w)) !! buildKey cid
                 = Some (PROGRESS_TTL_SECONDS, JSON_stringify env payload)).
  { cbn. now rewrite lookup_insert_eq. }
  split; [exact Hkey |]. split.
  - rewrite readBroadcastProgress_run, Hget, Hkey.
    destruct (JSON_stringify env payload) as [|c raw] eqn:Es; [congruence |].
    now rewrite Hparse.
  - intros other Hother. rewrite !readBroadcastProgress_run, Hget. cbn.
    rewrite lookup_insert_ne; [reflexivity |].
    intros Hk. apply buildKey_inj in Hk. congruence.
Qed.

(** X19 at a snapshot of [c1]. *)
Lemma saved_progress_is_read_back_witness :
  let run := saveBroadcastProgress ProgressFixture.env SendingStart "c1"
               ProgressFixture.payload None Fixture.world in
  readBroadcastProgress ProgressFixture.env "c1" run.2
  = (Return (Some ProgressFixture.payload), run.2).
Proof.
  intros run.
  assert (Hrun : run = (Return ProgressFixture.payload, run.2))
    by (vm_compute; reflexivity).
  destruct (saved_progress_is_read_back ProgressFixture.env SendingStart "c1"
              ProgressFixture.payload None Fixture.world ProgressFixture.payload
              run.2 Hrun eq_refl eq_refl)
    as (_ & _ & Hread & _); [discriminate | reflexivity | exact Hread].
Defined.

(** X20. After [clearBroadcastProgress], with Redis accepting the delete,
    reading the campaign's progress gives [null], whatever was stored,
    and reading any other campaign gives what it gave before. *)
Theorem cleared_progress_reads_null env cid w :
  fault env CallRedisDel = None ->
  let w1 := (clearBroadcastProgress env cid w).2 in
  readBroadcastProgress env cid w1 = (Return None, w1) /\
  (forall other, other <> cid ->
                 readBroadcastProgress env other w1
                 = ((readBroadcastProgress env other w).1, w1)).
Proof.
  intros Hdel. cbv zeta. rewrite clearBroadcastProgress_run, Hdel. cbn [snd].
  split.
  - rewrite readBroadcastProgress_run. cbn. rewrite lookup_delete_eq.
    now destruct (fault env CallRedisGet).
  - intros other Hother. rewrite !readBroadcastProgress_run. cbn.
    rewrite lookup_delete_ne; [reflexivity |].
    intros Hk. apply buildKey_inj in Hk. congruence.
Qed.

(** X20 at a snapshot saved just before. *)
Lemma cleared_progress_reads_null_witness :
  let env := ProgressFixture.env in
  let saved := (saveBroadcastProgress env SendingStart "c1" ProgressFixture.payload
                  None Fixture.world).2 in
  (readBroadcastProgress env "c1" saved).1 = Return (Some ProgressFixture.payload) /\
  (readBroadcastProgress env "c1" (clearBroadcastProgress env "c1" saved).2).1
  = Return None.
Proof.
  intros env saved. split; [vm_compute; reflexivity |].
  destruct (cleared_progress_reads_null env "c1" saved eq_refl) as [Hread _].
  exact (f_equal fst Hread).
Defined.

End ProgressMore.

Section RoutesFacts.
Import Str Routes TextShapes.

Lemma trimEnd_cons (c : ascii) (t : string) :
  trimEnd (String c t)
  = match trimEnd t with
    | EmptyString => if isWhiteSpace c then EmptyString else String c EmptyString
    | t' => String c t'
    end.
Proof. reflexivity. Qed.

Lemma trimEnd_idem (s : string) : trimEnd (trimEnd s) = trimEnd s.
Proof.
  induction s as [|c s IH]; [reflexivity |].
  rewrite trimEnd_cons. destruct (trimEnd s) as [|c' s'] eqn:E.
  - destruct (isWhiteSpace c) eqn:Ec; [reflexivity |].
    rewrite trimEnd_cons. cbn [trimEnd]. now rewrite Ec.
  - rewrite trimEnd_cons, IH. reflexivity.
Qed.

Lemma trimStart_headOk (s : string) : headOk (trimStart s).
Proof.
  induction s as [|c s IH]; [exact I |].
  cbn [trimStart]. now destruct (isWhiteSpace c) eqn:E.
Qed.

Lemma headOk_trimStart (s : string) : headOk s -> trimStart s = s.
Proof. destruct s as [|c s]; [reflexivity |]. cbn. now intros ->. Qed.

Lemma headOk_trimEnd (s : string) : headOk s -> headOk (trimEnd s).
Proof.
  destruct s as [|c s]; [trivial |]. intros H. rewrite trimEnd_cons.
  destruct (trimEnd s); [|exact H]. cbn in H. rewrite H. exact H.
Qed.

Lemma trim_idem (s : string) : trim (trim s) = trim s.
Proof.
  unfold trim.
  rewrite (headOk_trimStart (trimEnd (trimStart s)))
    by apply headOk_trimEnd, trimStart_headOk.
  apply trimEnd_idem.
Qed.

Lemma trim_trimEnd (s : string) : trim s = s -> trimEnd s = s.
Proof. intros H. rewrite <- H at 1. unfold trim. rewrite trimEnd_idem. exact H. Qed.

Lemma trim_at (name : string) :
  name <> "" -> trim name = name -> trim ("@" +:+ name) = "@" +:+ name.
Proof.
  intros Hne H. unfold trim.
  change (trimStart ("@" +:+ name)) with ("@" +:+ name).
  change ("@" +:+ name) with (String "@" name). rewrite trimEnd_cons.
  rewrite (trim_trimEnd _ H). destruct name; [congruence | reflexivity].
Qed.

(** X21. Whatever [formatRecipient] returns is a non-empty string without
    white space at either end, of one of two shapes: the trimmed input
    itself when that is all digits, or [@] followed by a non-empty
    trimmed name when it is not. *)
Theorem formatRecipient_shape raw s :
  formatRecipient raw = Some s ->
  s <> "" /\ trim s = s /\
  (isNumeric s = true /\ s = trim raw \/
   exists name,
     s = "@" +:+ name /\ name <> "" /\ trim name = name /\
     isNumeric (trim raw) = false).
Proof.
  unfold formatRecipient.
  destruct (trim raw) as [|c t] eqn:Et; [discriminate |].
  destruct (isNumeric (String c t)) eqn:En.
  - intros [= <-]. split; [discriminate |]. split.
    + rewrite <- Et. apply trim_idem.
    + left. split; [exact En | reflexivity].
  - destruct (trim (dropAts (String c t))) as [|c' t'] eqn:Ed; [discriminate |].
    intros [= <-].
    assert (Hname : trim (String c' t') = String c' t')
      by (rewrite <- Ed; apply trim_idem).
    split; [discriminate |]. split.
    + apply trim_at; [discriminate | exact Hname].
    + right. exists (String c' t'). repeat split; try assumption. discriminate.
Qed.
(** X21 at a handle written with two [@] and spaces around. *)
Lemma formatRecipient_shape_witness :
  formatRecipient "  @@ann " = Some "@ann" /\ trim "@ann" = "@ann".
Proof.
  split; [reflexivity |].
  apply (formatRecipient_shape "  @@ann " "@ann" eq_refl).
Defined.

Example formatRecipient_examples :
  formatRecipient "  @@ann " = Some "@ann" /\
  formatRecipient "12345" = Some "12345" /\
  formatRecipient "bob" = Some "@bob" /\
  formatRecipient " @ " = None /\
  formatRecipient "@ @bob" = Some "@@bob".
Proof. repeat split; reflexivity. Qed.

(** What the normalising loop leaves in its array: no duplicates, at most
    [max] entries, and exactly the formatted entries of the input; it
    fails only on an input of more than [max] entries. *)
Lemma collect_loop (format : string -> option string) (max : nat)
    (tooMany : string) (input : list string) :
  wp (Handler.forOf input (collect format max tooMany))
    (fun res acc =>
       match res with
       | Return _ =>
           NoDup (collected acc) /\
           length (collected acc) <= max /\
           length (collected acc) <= length input /\
           (forall s, In s (collected acc)
                      <-> exists raw, In raw input /\ format raw = Some s)
       | Throw e => e = ValidationError tooMany /\ max < length input
       end) (mkAcc [] ∅).
Proof.
  apply wp_forOf_prefix
    with (I := fun done acc =>
                 NoDup (collected acc) /\
                 (forall s, s ∈ seen acc <-> In s (collected acc)) /\
                 length (collected acc) <= max /\
                 length (collected acc) <= length done /\
                 (forall s, In s (collected acc)
                            <-> exists raw, In raw done /\ format raw = Some s)).
  - cbn. repeat split; try lia.
    + constructor.
    + intros H. now apply not_elem_of_empty in H.
    + intros (raw & [] & _).
  - intros done x rest acc Hin (Hnd & Hseen & Hmax & Hlen & Hel).
    assert (Hskip : (forall s, format x = Some s -> In s (collected acc)) ->
                    NoDup (collected acc) /\
                    (forall s, s ∈ seen acc <-> In s (collected acc)) /\
                    length (collected acc) <= max /\
                    length (collected acc) <= length (done ++ [x]) /\
                    (forall s, In s (collected acc)
                               <-> exists raw, In raw (done ++ [x]) /\
                                               format raw = Some s)).
    { intros Hx. split; [exact Hnd |]. split; [exact Hseen |].
      split; [exact Hmax |]. split; [rewrite length_app; cbn; lia |].
      intros s. rewrite Hel. split.
      - intros (raw & Hr & Hf). exists raw. split; [|exact Hf].
        apply in_or_app. now left.
      - intros (raw & Hr & Hf). apply in_app_or in Hr as [Hr | [<- | []]].
        + now exists raw.
        + apply Hel. now apply Hx. }
    unfold collect. destruct (format x) as [formatted|] eqn:Ef;
      [|unfold wp, ret; apply Hskip; intros s; congruence].
    apply wp_bind. unfold wp at 1, get at 1. cbv beta iota.
    destruct (bool_decide (formatted ∈ seen acc)) eqn:Eb.
    { apply bool_decide_eq_true in Eb. apply Hseen in Eb.
      unfold wp, ret. apply Hskip. now intros s [= <-]. }
    apply bool_decide_eq_false in Eb.
    assert (Hnew : ~ In formatted (collected acc))
      by (intros H; apply Eb; now apply Hseen).
    apply wp_bind. unfold wp at 1, modify at 1. cbv beta iota.
    apply wp_bind. unfold wp at 1, get at 1. cbv beta iota. cbn [collected seen].
    rewrite length_app. cbn [length].
    destruct (max <? length (collected acc) + 1)%nat eqn:Em.
    { apply Nat.ltb_lt in Em. unfold wp, throw.
      split; [reflexivity |]. rewrite Hin, length_app. cbn. lia. }
    apply Nat.ltb_ge in Em. unfold wp, ret. cbn [collected seen].
    rewrite !length_app. cbn [length].
    split; [|split; [|split; [lia | split; [lia |]]]].
    + apply NoDup_app. split; [exact Hnd |].
      split; [|apply NoDup_singleton].
      intros s Hs Hs'. apply list_elem_of_In in Hs.
      apply list_elem_of_singleton in Hs'. subst s. now apply Hnew.
    + intros s. rewrite elem_of_union, elem_of_singleton, Hseen, in_app_iff.
      cbn. split; [intros [-> | H]; auto | intros [H | [-> | []]]; auto].
    + intros s. rewrite in_app_iff, Hel. cbn. split.
      * intros [(raw & Hr & Hf) | [<- | []]].
        -- exists raw. split; [apply in_or_app; now left | exact Hf].
        -- exists x. split; [apply in_or_app; right; now left | exact Ef].
      * intros (raw & Hr & Hf). apply in_app_or in Hr as [Hr | [<- | []]].
        -- left. now exists raw.
        -- right. left. congruence.
  - intros acc (Hnd & _ & Hmax & Hlen & Hel). auto.
Qed.

Lemma normalized_outcome (format : string -> option string) (max : nat)
    (tooMany : string) (input : list string) :
  match
    match Handler.forOf input (collect format max tooMany) (mkAcc [] ∅) with
    | (Return _, acc) =>
        Return (match collected acc with [] => None | l => Some l end)
    | (Throw e, _) => Throw e
    end
  with
  | Return None => forall raw, In raw input -> format raw = None
  | Return (Some l) =>
      l <> [] /\ NoDup l /\ length l <= max /\ length l <= length input /\
      (forall s, In s l <-> exists raw, In raw input /\ format raw = Some s)
  | Throw e => e = ValidationError tooMany /\ max < length input
  end.
Proof.
  pose proof (collect_loop format max tooMany input) as H. unfold wp in H.
  destruct (Handler.forOf input (collect format max tooMany) (mkAcc [] ∅))
    as [[[]|e] acc]; [|exact H].
  destruct (collected acc) as [|x xs] eqn:E.
  - destruct H as (_ & _ & _ & Hel). intros raw Hr.
    destruct (format raw) as [s|] eqn:Ef; [|reflexivity].
    exfalso. apply (proj2 (Hel s)). now exists raw.
  - split; [discriminate | exact H].
Qed.

(** X22. [normalizeManualRecipients] on an array either returns [null],
    and then no entry formats to a recipient; or returns a non-empty
    array without duplicates, of at most 1000 entries and no longer than
    the input, whose members are exactly the formatted entries of the
    input; or throws, and then the error is the [ValidationError] of the
    limit and the input has more than 1000 entries. *)
Theorem normalizeManualRecipients_outcome (input : list string) :
  match normalizeManualRecipients (Some input) with
  | Return None => forall raw, In raw input -> formatRecipient raw = None
  | Return (Some l) =>
      l <> [] /\ NoDup l /\ length l <= 1000 /\ length l <= length input /\
      (forall s, In s l
                 <-> exists raw, In raw input /\ formatRecipient raw = Some s)
  | Throw e =>
      e = ValidationError "Recipients limit of 1000 exceeded" /\
      1000 < length input
  end.
Proof.
  exact (normalized_outcome formatRecipient MAX_MANUAL_RECIPIENTS
           "Recipients limit of 1000 exceeded" input).
Qed.

(** X22 at four entries, of which two name the same handle and one is
    blank. *)
Lemma normalizeManualRecipients_outcome_witness :
  normalizeManualRecipients (Some ["@ann"; " ann "; "12345"; "  "])
  = Return (Some ["@ann"; "12345"]) /\
  NoDup ["@ann"; "12345"].
Proof.
  assert (E : normalizeManualRecipients (Some ["@ann"; " ann "; "12345"; "  "])
              = Return (Some ["@ann"; "12345"])) by (vm_compute; reflexivity).
  pose proof (normalizeManualRecipients_outcome ["@ann"; " ann "; "12345"; "  "])
    as H.
  rewrite E in H. split; [exact E | apply H].
Defined.

(** X23. [normalizeAttachments] on an array either returns [undefined],
    and then every entry is blank; or returns a non-empty array without
    duplicates, of at most 5 entries and no longer than the input, whose
    members are exactly the non-empty trimmed entries of the input; or
    throws, and then the error is the [ValidationError] of the limit and
    the input has more than 5 entries. *)
Theorem normalizeAttachments_outcome (input : list string) :
  match normalizeAttachments (Some input) with
  | Return None => forall raw, In raw input -> trim raw = ""
  | Return (Some l) =>
      l <> [] /\ NoDup l /\ length l <= 5 /\ length l <= length input /\
      (forall s, In s l <-> s <> "" /\ exists raw, In raw input /\ trim raw = s)
  | Throw e =>
      e = ValidationError "Attachments limit of 5 exceeded" /\
      5 < length input
  end.
Proof.
  pose proof (normalized_outcome trimmedOrNone MAX_ATTACHMENTS
                "Attachments limit of 5 exceeded" input) as H.
  unfold normalizeAttachments.
  destruct (Handler.forOf input _ (mkAcc [] ∅)) as [[[]|e] acc]; [|exact H].
  assert (Hfmt : forall raw s, trimmedOrNone raw = Some s <-> s <> "" /\ trim raw = s).
  { intros raw s. unfold trimmedOrNone. destruct (trim raw) as [|c t].
    - split; [discriminate | intros [Hs <-]; congruence].
    - split; [intros [= <-]; split; [discriminate | reflexivity]
             | intros [_ <-]; reflexivity]. }
  destruct (collected acc) as [|x xs].
  - intros raw Hr. specialize (H raw Hr). unfold trimmedOrNone in H.
    now destruct (trim raw).
  - destruct H as (Hne & Hnd & Hmax & Hlen & Hel).
    split; [exact Hne |]. split; [exact Hnd |]. split; [exact Hmax |].
    split; [exact Hlen |]. intros s. rewrite Hel. split.
    + intros (raw & Hr & Hf). apply Hfmt in Hf as [Hs Ht]. split; [exact Hs |].
      now exists raw.
    + intros (Hs & raw & Hr & Ht). exists raw. split; [exact Hr |].
      now apply Hfmt.
Qed.

(** X23 at six distinct attachments. *)
Lemma normalizeAttachments_outcome_witness :
  normalizeAttachments (Some ["a"; "b"; "c"; "d"; "e"; "f"])
  = Throw (ValidationError "Attachments limit of 5 exceeded").
Proof.
  pose proof (normalizeAttachments_outcome ["a"; "b"; "c"; "d"; "e"; "f"]) as H.
  destruct (normalizeAttachments (Some ["a"; "b"; "c"; "d"; "e"; "f"]))
    as [[l|]|e] eqn:E.
  - vm_compute in E. discriminate E.
  - vm_compute in E. discriminate E.
  - destruct H as [-> _]. reflexivity.
Defined.

(** X24. The snapshot built from the campaign row when Redis has none is
    consistent: [processed] exceeds neither [total] nor the sum of the
    three counters, [progress] is at most 100 and, when the counters do
    not sum to a negative number, at least 0; a [completed] or [failed]
    campaign always shows 100, and the snapshot is [completed] or
    [failed] exactly when the campaign is. *)
Theorem fallback_snapshot_is_consistent toISO campaign metadata :
  let snap := buildFallbackProgressSnapshot toISO campaign metadata in
  (f_processed snap <= f_total snap)%Q /\
  (f_processed snap <= sent metadata + failed metadata + skipped metadata)%Q /\
  (f_progress snap <= 100)%Z /\
  ((0 <= sent metadata + failed metadata + skipped metadata)%Q ->
   (0 <= f_progress snap)%Z) /\
  (status campaign = CampaignStatus.completed \/
   status campaign = CampaignStatus.failed ->
   f_progress snap = 100%Z /\
   (f_status snap = ProgressStatus.completed \/
    f_status snap = ProgressStatus.failed)) /\
  (f_status snap = ProgressStatus.completed
   <-> status campaign = CampaignStatus.completed) /\
  (f_status snap = ProgressStatus.failed
   <-> status campaign = CampaignStatus.failed).
Proof.
  cbv zeta. unfold buildFallbackProgressSnapshot.
  cbn [f_processed f_total f_progress f_status].
  set (total := match totalRecipients metadata with
                | Some t => t
                | None => match manualRecipients metadata with
                          | Some l => Num.num (length l)
                          | None => 0%Q
                          end
                end).
  set (sum := (sent metadata + failed metadata + skipped metadata)%Q).
  assert (Hmin1 : (Math_min total sum <= total)%Q).
  { unfold Math_min. destruct (Qle_bool total sum) eqn:E; [apply Qle_refl |].
    apply Qlt_le_weak, Qnot_le_lt. intros H. apply Qle_bool_iff in H. congruence. }
  assert (Hmin2 : (Math_min total sum <= sum)%Q).
  { unfold Math_min. destruct (Qle_bool total sum) eqn:E; [|apply Qle_refl].
    now apply Qle_bool_iff. }
  assert (Hmin0 : (0 <= sum -> 0 < total -> 0 <= Math_min total sum)%Q).
  { intros Hs Ht. unfold Math_min. destruct (Qle_bool total sum); [|exact Hs].
    now apply Qlt_le_weak. }
  assert (Hbase : (0 <= sum)%Q ->
                  (0 <= (if Num.Qgtb total 0%Q
                         then Z.min 100 (Num.Math_round (Math_min total sum / total * 100))
                         else 0))%Z).
  { intros Hs. destruct (Num.Qgtb total 0%Q) eqn:E; [|lia].
    apply Qgtb_spec in E. apply Z.min_glb; [lia |].
    unfold Num.Math_round.
    change 0%Z with (Qfloor 0). apply Qfloor_resp_le.
    apply Qle_trans with (0 * 100 + 0)%Q; [discriminate |].
    apply Qplus_le_compat; [|discriminate].
    apply Qmult_le_compat_r; [|discriminate].
    apply Qle_shift_div_l; [exact E |]. rewrite Qmult_0_l. now apply Hmin0. }
  assert (Hbase' : ((if Num.Qgtb total 0%Q
                     then Z.min 100 (Num.Math_round (Math_min total sum / total * 100))
                     else 0) <= 100)%Z).
  { destruct (Num.Qgtb total 0%Q); lia. }
  split; [exact Hmin1 |]. split; [exact Hmin2 |].
  set (base := if Num.Qgtb total 0%Q
               then Z.min 100 (Num.Math_round (Math_min total sum / total * 100))
               else 0%Z) in *.
  clearbody base.
  destruct (status campaign); cbv beta iota;
    intuition (try discriminate; try lia; auto).
Qed.

(** X24 at a completed campaign whose counters fall short of its total. *)
Lemma fallback_snapshot_is_consistent_witness :
  let snap := buildFallbackProgressSnapshot (fun _ => "2023-11-17T22:13:20.000Z")
                (mkView "c1" CampaignStatus.completed 1700259200000%Z)
                (mkSummary (Some manual) (Some 4%Q) None None None 0 2 1 0 None) in
  f_progress snap = 100%Z /\ (f_processed snap <= 4)%Q.
Proof.
  intros snap.
  destruct (fallback_snapshot_is_consistent (fun _ => "2023-11-17T22:13:20.000Z")
              (mkView "c1" CampaignStatus.completed 1700259200000%Z)
              (mkSummary (Some manual) (Some 4%Q) None None None 0 2 1 0 None))
    as (Hp & _ & _ & _ & Hdone & _).
  split; [apply Hdone; now left | exact Hp].
Defined.

End RoutesFacts.

Section AudienceFacts.
Import AudienceJob.

Lemma wp_a_jobProgress env p (Q : Result unit -> AudienceWorld -> Prop) w :
  (forall e, a_fault env (CallProgress p) = Some e -> Q (Throw e) w) ->
  (a_fault env (CallProgress p) = None ->
   Q (Return tt) (mkAudienceWorld (audience_segments w) (progress_calls w ++ [p]))) ->
  wp (jobProgress env p) Q w.
Proof.
  intros He Hok. unfold jobProgress, wp, bind, rejects, modify, ret, throw.
  destruct (a_fault env (CallProgress p)); auto.
Qed.

Lemma persistSegmentTotals_owned env site sid uid total st w row :
  audience_segments w !! sid = Some row -> user_id row = uid ->
  persistSegmentTotals env site sid uid total st w
  = match a_fault env (CallPersist site) with
    | Some e => (Throw e, w)
    | None => (Return tt, set_segments <[sid := withTotals row total st]> w)
    end.
Proof.
  intros Hrow <-. unfold persistSegmentTotals, bind, rejects, modify, ret, throw.
  destruct (a_fault env (CallPersist site)); [reflexivity |].
  cbv beta iota. rewrite Hrow, String.eqb_refl. reflexivity.
Qed.

Lemma getSegment_run env uid sid w :
  getSegment env uid sid w
  = match a_fault env CallGetSegment, audience_segments w !! sid with
    | Some e, _ => (Throw e, w)
    | None, Some row =>
        if String.eqb (user_id row) uid then (Return row, w)
        else (Throw (Broadcast.NotFoundError "Audience segment not found"), w)
    | None, None =>
        (Throw (Broadcast.NotFoundError "Audience segment not found"), w)
    end.
Proof.
  unfold getSegment, bind, rejects, get, ret, throw.
  destruct (a_fault env CallGetSegment); [reflexivity |]. cbv beta iota.
  destruct (audience_segments w !! sid) as [row|]; [|reflexivity].
  now destruct (String.eqb (user_id row) uid).
Qed.

(** X25. A [handleAudienceJob] that returns found the segment, owned by
    the job's user.  If the segment has no parsing source, the result
    counts 0 recipients, the row is marked [failed] with a total of 0 and
    the progress reported is 10 then 100; otherwise the result is the
    count found, the row is marked [ready] with that total and the
    progress reported is 10, 70 and 100.  No other row is changed. *)
Theorem audience_job_result env job w r w' :
  handleAudienceJob env job w = (Return r, w') ->
  exists row,
    audience_segments w !! segmentId job = Some row /\
    user_id row = userId job /\
    r_segmentId r = segmentId job /\
    (missingSource row = true /\
     r_totalRecipients r = 0 /\
     audience_segments w'
     = <[segmentId job := withTotals row 0 "failed"]> (audience_segments w) /\
     progress_calls w' = progress_calls w ++ [10; 100]%Z
     \/
     missingSource row = false /\
     r_totalRecipients r = countedRecipients env /\
     audience_segments w'
     = <[segmentId job := withTotals row (countedRecipients env) "ready"]>
         (audience_segments w) /\
     progress_calls w' = progress_calls w ++ [10; 70; 100]%Z).
Proof.
  intros Hrun. remember (Return r) as res eqn:Hres. revert Hres.
  wp_of_world Hrun res w'.
  unfold handleAudienceJob. apply wp_try_catch.
  apply wp_mono with
    (Q := fun res w' =>
            forall r, res = Return r ->
            exists row,
              audience_segments w !! segmentId job = Some row /\
              user_id row = userId job /\
              r_segmentId r = segmentId job /\
              (missingSource row = true /\
               r_totalRecipients r = 0 /\
               audience_segments w'
               = <[segmentId job := withTotals row 0 "failed"]> (audience_segments w) /\
               progress_calls w' = progress_calls w ++ [10; 100]%Z
               \/
               missingSource row = false /\
               r_totalRecipients r = countedRecipients env /\
               audience_segments w'
               = <[segmentId job := withTotals row (countedRecipients env) "ready"]>
                   (audience_segments w) /\
               progress_calls w' = progress_calls w ++ [10; 70; 100]%Z)).
  2:{ intros [a|e] w1 H; [intros Heq; exact (H _ Heq) |].
      wp_run; try discriminate. unfold persistSegmentTotals. wp_run; discriminate. }
  unfold tryBody. apply wp_bind, wp_a_jobProgress; [discriminate |]. intros _.
  apply wp_bind. unfold wp at 1. rewrite getSegment_run. cbn [audience_segments].
  destruct (a_fault env CallGetSegment); [discriminate |].
  destruct (audience_segments w !! segmentId job) as [row|] eqn:Hrow; [|discriminate].
  destruct (String.eqb (user_id row) (userId job)) eqn:Hu; [|discriminate].
  apply String.eqb_eq in Hu.
  set (w1 := mkAudienceWorld (audience_segments w) (progress_calls w ++ [10%Z])).
  assert (Hrow1 : audience_segments w1 !! segmentId job = Some row) by exact Hrow.
  destruct (missingSource row) eqn:Hsrc.
  - apply wp_bind. unfold wp at 1.
    rewrite (persistSegmentTotals_owned _ _ _ _ _ _ _ row Hrow1 Hu).
    destruct (a_fault env (CallPersist InTry)); [discriminate |].
    apply wp_bind, wp_a_jobProgress; [discriminate |]. intros _.
    unfold wp, ret. intros r0 [= <-]. exists row. cbn.
    split; [reflexivity |]. split; [exact Hu |]. split; [reflexivity |].
    left. rewrite <- app_assoc. now repeat split.
  - apply wp_bind. unfold calculateTotalRecipients. wp_run; [discriminate |].
    apply wp_a_jobProgress; [discriminate |]. intros _.
    apply wp_bind. unfold wp at 1.
    rewrite (persistSegmentTotals_owned _ _ _ _ _ _ _ row) by assumption.
    destruct (a_fault env (CallPersist InTry)); [discriminate |].
    unfold invalidateDashboardCache. wp_run; [discriminate |].
    apply wp_a_jobProgress; [discriminate |]. intros _.
    unfold wp, ret. intros r0 [= <-]. exists row. cbn.
    split; [reflexivity |]. split; [exact Hu |]. split; [reflexivity |].
    right. rewrite <- !app_assoc. now repeat split.
Qed.

(** X25 at the segment [s1]. *)
Lemma audience_job_result_witness :
  let run := handleAudienceJob AudienceFixture.env AudienceFixture.job
               AudienceFixture.world in
  run.1 = Return (mkAudienceResult "s1" 42) /\
  progress_calls run.2 = [10; 70; 100]%Z /\
  audience_segments run.2 !! "s1"
  = Some (mkSegment "u1" (Some "p1") (Some 42) (Some "ready")).
Proof.
  intros run.
  assert (Hrun : run = (Return (mkAudienceResult "s1" 42), run.2))
    by (vm_compute; reflexivity).
  destruct (audience_job_result _ _ _ _ _ Hrun)
    as (row & Hrow & _ & _ & [(Hm & _) | (_ & _ & Hseg & Hp)]).
  - vm_compute in Hrow. injection Hrow as <-. discriminate Hm.
  - split; [now rewrite Hrun |]. split; [exact Hp |].
    vm_compute in Hrow. injection Hrow as <-.
    rewrite Hseg. cbn [AudienceFixture.job segmentId].
    now rewrite lookup_insert_eq.
Defined.

(** X26. When the job throws for a segment that exists and is owned by the
    job's user, and the [UPDATE] of the [catch] is accepted, the error
    thrown is the one that ended the [try] and the segment is left
    marked [failed] with a total of 0, even where the [try] had already
    marked it [ready].  When that [UPDATE] rejects, its error is thrown
    in place of the original one. *)
Theorem audience_job_failure_marks_segment_failed env job w e w' row :
  handleAudienceJob env job w = (Throw e, w') ->
  audience_segments w !! segmentId job = Some row ->
  user_id row = userId job ->
  match a_fault env (CallPersist InCatch) with
  | Some e' => e = e'
  | None =>
      (tryBody env job w).1 = Throw e /\
      audience_segments w'
      = <[segmentId job := withTotals row 0 "failed"]> (audience_segments w)
  end.
Proof.
  intros Hrun Hrow Hu.
  set (K := fun w1 : AudienceWorld =>
              exists row1,
                audience_segments w1 !! segmentId job = Some row1 /\
                user_id row1 = userId job /\
                <[segmentId job := withTotals row1 0 "failed"]> (audience_segments w1)
                = <[segmentId job := withTotals row 0 "failed"]> (audience_segments w)).
  assert (Hkeep : forall ps, K (mkAudienceWorld (audience_segments w) ps))
    by (intros ps; exists row; auto).
  assert (Hset : forall total st ps,
             K (mkAudienceWorld
                  (<[segmentId job := withTotals row total st]> (audience_segments w))
                  ps)).
  { intros total st ps. exists (withTotals row total st). cbn.
    rewrite lookup_insert_eq, insert_insert_eq. auto. }
  assert (Htry : forall r w1, tryBody env job w = (r, w1) -> K w1).
  { intros r w1 Hrun'. refine (wp_elim _ (fun _ w1 => K w1) _ _ _ _ Hrun').
    unfold tryBody. destruct w as [segs ps]. cbn [audience_segments] in *.
    apply wp_bind, wp_a_jobProgress; [intros; apply Hkeep |].
    intros _. apply wp_bind. unfold wp at 1. rewrite getSegment_run.
    cbn [audience_segments progress_calls]. rewrite Hrow, Hu, String.eqb_refl.
    destruct (a_fault env CallGetSegment); [apply Hkeep |].
    destruct (missingSource row).
    - apply wp_bind. unfold wp at 1.
      rewrite (persistSegmentTotals_owned _ _ _ _ _ _ _ row) by assumption.
      destruct (a_fault env (CallPersist InTry)); [apply Hkeep |].
      apply wp_bind, wp_a_jobProgress; [intros; apply Hset |]. intros _.
      unfold wp, ret. apply Hset.
    - apply wp_bind. unfold calculateTotalRecipients. wp_run; [apply Hkeep |].
      apply wp_a_jobProgress; [intros; apply Hkeep |]. intros _.
      apply wp_bind. unfold wp at 1.
      rewrite (persistSegmentTotals_owned _ _ _ _ _ _ _ row) by assumption.
      destruct (a_fault env (CallPersist InTry)); [apply Hkeep |].
      unfold invalidateDashboardCache. wp_run; [apply Hset |].
      apply wp_a_jobProgress; [intros; apply Hset |]. intros _.
      unfold wp, ret. apply Hset. }
  revert Hrun. unfold handleAudienceJob, try_catch.
  destruct (tryBody env job w) as [[r|e0] w1] eqn:E; [discriminate |].
  destruct (Htry _ _ eq_refl) as (row1 & Hrow1 & Hu1 & Heq).
  unfold bind.
  rewrite (persistSegmentTotals_owned _ _ _ _ _ _ _ row1 Hrow1 Hu1).
  destruct (a_fault env (CallPersist InCatch)) as [e'|].
  - now intros [= <- _].
  - unfold throw. intros [= <- <-]. split; [reflexivity |]. exact Heq.
Qed.

(** X26 at a job whose cache invalidation rejects after the segment was
    marked [ready]. *)
Lemma audience_job_failure_marks_segment_failed_witness :
  let run := handleAudienceJob AudienceFixture.cacheDown AudienceFixture.job
               AudienceFixture.world in
  run.1 = Throw (Js.Error "Connection is closed.") /\
  audience_segments run.2 !! "s1"
  = Some (mkSegment "u1" (Some "p1") (Some 0) (Some "failed")).
Proof.
  intros run.
  assert (Hrun : run = (Throw (Js.Error "Connection is closed."), run.2))
    by (vm_compute; reflexivity).
  pose proof (audience_job_failure_marks_segment_failed AudienceFixture.cacheDown
                AudienceFixture.job AudienceFixture.world _ _
                (mkSegment "u1" (Some "p1") None (Some "processing"))
                Hrun eq_refl eq_refl) as [_ Hseg].
  split; [now rewrite Hrun |].
  rewrite Hseg. cbn [AudienceFixture.job segmentId].
  now rewrite lookup_insert_eq.
Defined.

End AudienceFacts.

Section QueueFacts.
Import Num QueueBroadcast.

Lemma seq_snoc (a n : nat) : seq a (S n) = seq a n ++ [a + n].
Proof. now rewrite seq_S. Qed.

Lemma StronglySorted_snoc_Z (l : list Z) (x : Z) :
  StronglySorted Z.le l -> Forall (fun y => (y <= x)%Z) l ->
  StronglySorted Z.le (l ++ [x]).
Proof.
  induction 1 as [|a l Hl IH Ha]; intros Hall; simpl.
  - repeat constructor.
  - inversion Hall as [|? ? Hax Hlx]; subst. constructor; [now apply IH |].
    apply List.Forall_app. split; [exact Ha | now constructor].
Qed.

Lemma sorted_reports (n m : nat) :
  m <= n -> StronglySorted Z.le (map (fun k => progressOf k n) (seq 1 m)).
Proof.
  induction m as [|m IH]; intros Hm; [constructor |].
  rewrite seq_snoc, map_app. cbn.
  apply StronglySorted_snoc_Z; [apply IH; lia |].
  apply List.Forall_map, List.Forall_forall. intros k Hk. apply in_seq in Hk.
  apply progressOf_mono. lia.
Qed.

Lemma body_run fault job reports d s' :
  body fault job (0, reports) = (Return d, s') ->
  let n := length (audience job) in
  s'.2 = reports ++ map (fun k => progressOf k n) (seq 1 n) ++ [100%Z] /\
  d = mkDelivery n (broadcastId job)
        (match priority job with Some p => p | None => normal end).
Proof.
  intros Hrun n. remember (Return d) as res eqn:Hres. revert Hres.
  refine (wp_elim _
            (fun res s' =>
               res = Return d ->
               s'.2 = reports ++ map (fun k => progressOf k n) (seq 1 n) ++ [100%Z] /\
               d = mkDelivery n (broadcastId job)
                     (match priority job with Some p => p | None => normal end))
            _ _ _ _ Hrun).
  unfold body. fold n. apply wp_bind.
  apply wp_forOf_indexed
    with (I := fun k s =>
                 s = (k, reports ++ map (fun j => progressOf j n) (seq 1 k))).
  - cbn. now rewrite app_nil_r.
  - intros k x s Hk ->. fold n in Hk.
    unfold turn, jobProgress. wp_run; [discriminate |]. cbn [fst snd].
    replace (seq 1 (k + 1)) with (seq 1 (S k)) by (f_equal; lia).
    rewrite seq_snoc, map_app, app_assoc. cbn [map].
    replace (1 + k) with (k + 1) by lia.
    replace (Nat.max 1 n) with n by lia.
    unfold progressOf. replace (0 <? n)%nat with true
      by (symmetry; apply Nat.ltb_lt; lia).
    reflexivity.
  - intros s ->. unfold jobProgress. wp_run; [discriminate |].
    intros [= <-]. cbn [fst snd]. now rewrite <- app_assoc.
Qed.

(** X27. The queue's [handleBroadcastJob], when it returns, has made one
    report for each member of the audience and then a last one of 100:
    every report lies between 0 and 100, the report made after [k] of [n]
    members is within one of [100 k / n], and the reports never
    decrease, also for an empty audience, where 100 is the only report.
    The result
    counts the whole audience as delivered and a job without priority as
    [normal]. *)
Theorem queue_handler_reports fault job reports d reports' :
  handleBroadcastJob fault job reports = (Return d, reports') ->
  let n := length (audience job) in
  deliveredCount d = n /\
  d_broadcastId d = broadcastId job /\
  d_priority d = (match priority job with Some p => p | None => normal end) /\
  exists new,
    reports' = reports ++ new ++ [100%Z] /\
    length new = n /\
    Forall (fun p => (0 <= p <= 100)%Z) new /\
    (forall k p,
        new !! k = Some p ->
        (100 * Z.of_nat (k + 1) - Z.of_nat n < Z.of_nat n * p
         < 100 * Z.of_nat (k + 1) + Z.of_nat n)%Z) /\
    StronglySorted Z.le (new ++ [100%Z]).
Proof.
  intros Hrun n. revert Hrun. unfold handleBroadcastJob.
  destruct (body fault job (0, reports)) as [r [p rs]] eqn:E.
  intros [= -> <-]. destruct (body_run _ _ _ _ _ E) as [Hrs ->].
  cbn [snd] in Hrs. fold n in Hrs. cbn.
  assert (Hb : forall k, In k (seq 1 n) -> (0 <= progressOf k n <= 100)%Z).
  { intros k Hk. apply in_seq in Hk. apply progressOf_bounds. lia. }
  split; [reflexivity |]. split; [reflexivity |]. split; [reflexivity |].
  exists (map (fun k => progressOf k n) (seq 1 n)).
  split; [exact Hrs |]. split; [now rewrite length_map, length_seq |].
  split; [|split].
  - apply List.Forall_map, List.Forall_forall. exact Hb.
  - intros k q Hk. rewrite list_lookup_fmap in Hk.
    destruct (seq 1 n !! k) as [j|] eqn:Ej; [|discriminate].
    apply lookup_seq in Ej as [-> Hlt]. injection Hk as <-.
    replace (k + 1) with (1 + k) by lia. apply progressOf_near. lia.
  - apply StronglySorted_snoc_Z; [now apply sorted_reports |].
    apply List.Forall_map, List.Forall_forall. intros k Hk. now apply Hb.
Qed.

(** X27 at an audience of three. *)
Lemma queue_handler_reports_witness :
  let run := handleBroadcastJob (fun _ => None)
               (mkJob "b1" ["ann"; "bob"; "cy"] "hello" None None) [] in
  run.1 = Return (mkDelivery 3 "b1" normal) /\
  length run.2 = 4 /\
  last run.2 = Some 100%Z /\
  StronglySorted Z.le run.2.
Proof.
  intros run.
  assert (Hrun : run = (Return (mkDelivery 3 "b1" normal), run.2))
    by (vm_compute; reflexivity).
  destruct (queue_handler_reports _ _ _ _ _ Hrun)
    as (_ & _ & _ & new & Hr & Hlen & _ & _ & Hs).
  cbn [app] in Hr. rewrite Hr.
  split; [now rewrite Hrun |]. split; [rewrite length_app, Hlen; reflexivity |].
  split; [apply last_snoc | exact Hs].
Defined.

End QueueFacts.

Section SessionFacts.
Import SessionManager.

Lemma wp_call env c (Q : Result unit -> list ClientCall -> Prop) calls :
  (forall e, t_fault env c = Some e -> Q (Throw e) (calls ++ [c])) ->
  (t_fault env c = None -> Q (Return tt) (calls ++ [c])) ->
  wp (call env c) Q calls.
Proof.
  intros He Hok. unfold wp, call, bind, modify, rejects, ret, throw.
  destruct (t_fault env c); auto.
Qed.

Lemma wp_try_finally_safeDisconnect {A} env (body : M (list ClientCall) A)
    (Q : Result A -> list ClientCall -> Prop) calls :
  wp body (fun r calls' => Q r (calls' ++ [Disconnect])) calls ->
  wp (try_finally body (safeDisconnect env)) Q calls.
Proof.
  unfold wp, try_finally, safeDisconnect, try_catch, call, bind, modify, rejects,
    ret, throw.
  destruct (body calls) as [r calls']. now destruct (t_fault env Disconnect).
Qed.

Ltac call_step :=
  first [ apply wp_bind, wp_call; [intros ? ? | intros ?]
        | apply wp_call; [intros ? ? | intros ?] ].

Ltac bracket :=
  rewrite <- ?app_assoc; cbn [app]; eexists; split; [reflexivity | reflexivity].

Lemma verifyCode_bracketed env state code password calls :
  exists new,
    (verifyCode env state code password calls).2 = calls ++ new /\
    bracketed new = true.
Proof.
  refine (wp_elim _ (fun _ calls' => exists new, calls' = calls ++ new /\
                                                 bracketed new = true)
            _ _ _ _ (surjective_pairing _)).
  unfold verifyCode. apply wp_try_finally_safeDisconnect.
  call_step; [bracket |].
  apply wp_try_catch. call_step.
  - (* the sign-in rejects *)
    destruct (passwordNeeded e); [|unfold wp, throw; bracket].
    destruct password as [[|c pw]|]; try (unfold wp, throw; bracket).
    unfold completePasswordSignIn.
    apply wp_bind. repeat call_step.
    all: try (unfold wp, ret; cbv beta iota).
    all: try (unfold extractAuthorizedUser; destruct (passwordUser env);
              unfold wp, bind, ret, throw; cbv beta iota).
    all: bracket.
  - unfold extractAuthorizedUser. destruct (signInUser env) as [u|].
    + wp_run. bracket.
    + wp_run. destruct (passwordNeeded _); [|unfold wp, throw; bracket].
      destruct password as [[|c pw]|]; try (unfold wp, throw; bracket).
      unfold completePasswordSignIn.
      apply wp_bind. repeat call_step.
      all: try (unfold wp, ret; cbv beta iota).
      all: try (destruct (passwordUser env);
                unfold wp, bind, ret, throw; cbv beta iota).
      all: bracket.
Qed.

Lemma sendCode_bracketed env phone calls :
  exists new,
    (sendCode env phone calls).2 = calls ++ new /\
    bracketed new = true.
Proof.
  refine (wp_elim _ (fun _ calls' => exists new, calls' = calls ++ new /\
                                                 bracketed new = true)
            _ _ _ _ (surjective_pairing _)).
  unfold sendCode. apply wp_try_finally_safeDisconnect.
  call_step; [bracket |]. call_step; [bracket |].
  unfold wp, ret. bracket.
Qed.

Lemma try_finally_safeDisconnect {A} env (body : M (list ClientCall) A) calls :
  try_finally body (safeDisconnect env) calls
  = ((body calls).1, (body calls).2 ++ [Disconnect]).
Proof.
  unfold try_finally, safeDisconnect, try_catch, call, bind, modify, rejects,
    ret, throw.
  destruct (body calls) as [r calls']. now destruct (t_fault env Disconnect).
Qed.

(** X28. [sendCode] and [verifyCode] always disconnect the client they
    connected: whatever resolves or rejects, the calls they await begin
    with [connect], end with [disconnect] and hold neither in between.
    A [disconnect] that rejects changes nothing: the result or the error
    of the call is the same as with one that resolves. *)
Theorem sign_in_always_disconnects env state phone code password calls e :
  (exists new,
      (sendCode env phone calls).2 = calls ++ new /\ bracketed new = true) /\
  (exists new,
      (verifyCode env state code password calls).2 = calls ++ new /\
      bracketed new = true) /\
  sendCode (withFailingDisconnect env e) phone calls = sendCode env phone calls /\
  verifyCode (withFailingDisconnect env e) state code password calls
  = verifyCode env state code password calls.
Proof.
  split; [apply sendCode_bracketed |].
  split; [apply verifyCode_bracketed |].
  split.
  - unfold sendCode. rewrite !try_finally_safeDisconnect.
    unfold withFailingDisconnect, call, bind, modify, rejects, ret, throw.
    cbn [t_fault sentCodeHash savedSession]. reflexivity.
  - unfold verifyCode. rewrite !try_finally_safeDisconnect.
    unfold withFailingDisconnect, completePasswordSignIn, extractAuthorizedUser,
      call, try_catch, bind, modify, rejects, ret, throw.
    cbn [t_fault signInUser passwordUser savedSession].
    reflexivity.
Qed.

(** X29. When the sign-in is rejected with an error that does not ask for
    the password, or when no password was given, [verifyCode] throws that
    very error after three calls: [connect], the sign-in and
    [disconnect]; the password is not sent. *)
Theorem sign_in_error_is_rethrown env state code password calls e :
  t_fault env Connect = None ->
  t_fault env (InvokeSignIn (phoneNumber state) (phoneCodeHash state) code) = Some e ->
  passwordNeeded e = false \/ password = None \/ password = Some "" ->
  verifyCode env state code password calls
  = (Throw e,
     calls ++ [Connect;
               InvokeSignIn (phoneNumber state) (phoneCodeHash state) code;
               Disconnect]).
Proof.
  intros Hc Hs Hp. unfold verifyCode. rewrite try_finally_safeDisconnect.
  unfold call, try_catch, bind, modify, rejects, ret, throw.
  rewrite Hc, Hs. cbn [fst snd].
  destruct Hp as [Hp | [-> | ->]]; [rewrite Hp | destruct (passwordNeeded e)..];
    cbn; now rewrite <- !app_assoc.
Qed.

(** X29 at a wrong code, with a password at hand. *)
Lemma sign_in_error_is_rethrown_witness :
  verifyCode SessionFixture.wrongCode SessionFixture.state "12345"
    (Some "hunter2") []
  = (Throw (mkError (Some "PHONE_CODE_INVALID")
              "400: PHONE_CODE_INVALID (caused by auth.SignIn)"),
     [Connect; InvokeSignIn "+15550100" "8f3a1c" "12345"; Disconnect]).
Proof.
  apply (sign_in_error_is_rethrown SessionFixture.wrongCode SessionFixture.state
           "12345" (Some "hunter2") []); [reflexivity | reflexivity |].
  left. reflexivity.
Defined.

(** X30. [verifyCode] sends the password only when Telegram asked for it:
    if the password check was begun at all, then the sign-in with the
    code was made first and rejected with one of the two
    password-needed errors, and a non-empty password had been given. *)
Theorem password_sent_only_when_asked env state code password calls new :
  (verifyCode env state code password calls).2 = calls ++ new ->
  In InvokeGetPassword new ->
  exists e pw rest,
    t_fault env (InvokeSignIn (phoneNumber state) (phoneCodeHash state) code)
    = Some e /\
    passwordNeeded e = true /\
    password = Some pw /\ pw <> "" /\
    new = Connect
          :: InvokeSignIn (phoneNumber state) (phoneCodeHash state) code
          :: InvokeGetPassword :: rest.
Proof.
  intros Hnew Hin. revert Hnew.
  unfold verifyCode. rewrite try_finally_safeDisconnect. cbn [snd].
  unfold completePasswordSignIn, extractAuthorizedUser, call, try_catch, bind,
    modify, rejects, ret, throw.
  destruct (t_fault env Connect) as [e0|]; cbn [fst snd].
  { rewrite <- app_assoc. intros H. apply app_inv_head in H. subst new.
    cbn in Hin. intuition discriminate. }
  destruct (t_fault env (InvokeSignIn (phoneNumber state) (phoneCodeHash state) code))
    as [e|] eqn:Es; cbn [fst snd].
  - destruct (passwordNeeded e) eqn:Ep.
    + destruct password as [[|c pw]|]; cbn [fst snd].
      * rewrite <- !app_assoc. intros H. apply app_inv_head in H. subst new.
        cbn in Hin. intuition discriminate.
      * intros H. exists e, (String c pw).
        destruct (t_fault env InvokeGetPassword);
          [|destruct (t_fault env (ComputePasswordSrp (String c pw)));
            [|destruct (t_fault env InvokeCheckPassword);
              [|destruct (passwordUser env)]]];
          cbn [fst snd] in H; rewrite <- !app_assoc in H;
          apply app_inv_head in H; subst new; cbn [app];
          eexists; repeat split; try reflexivity; try assumption; discriminate.
      * rewrite <- !app_assoc. intros H. apply app_inv_head in H. subst new.
        cbn in Hin. intuition discriminate.
    + cbn [fst snd]. rewrite <- !app_assoc. intros H. apply app_inv_head in H.
      subst new. cbn in Hin. intuition discriminate.
  - destruct (signInUser env) as [u|]; cbn [fst snd].
    + rewrite <- !app_assoc. intros H. apply app_inv_head in H. subst new.
      cbn in Hin. intuition discriminate.
    + change (passwordNeeded
                (AppError "Unable to extract Telegram user from authorization response"))
        with false.
      cbn [fst snd]. rewrite <- !app_assoc. intros H. apply app_inv_head in H.
      subst new. cbn in Hin. intuition discriminate.
Qed.

(** X30 at a sign-in that asks for the password. *)
Lemma password_sent_only_when_asked_witness :
  let run := verifyCode SessionFixture.twoFactor SessionFixture.state "12345"
               (Some "hunter2") [] in
  run.1 = Return (mkAuthResult "ann" "1BVtsOK4Bu") /\
  exists e,
    t_fault SessionFixture.twoFactor (InvokeSignIn "+15550100" "8f3a1c" "12345")
    = Some e /\
    passwordNeeded e = true.
Proof.
  intros run. split; [reflexivity |].
  destruct (password_sent_only_when_asked SessionFixture.twoFactor
              SessionFixture.state "12345" (Some "hunter2") []
              [Connect; InvokeSignIn "+15550100" "8f3a1c" "12345";
               InvokeGetPassword; ComputePasswordSrp "hunter2";
               InvokeCheckPassword; Disconnect])
    as (e & pw & rest & He & Hp & _); [reflexivity | cbn; tauto |].
  exists e. split; [exact He | exact Hp].
Defined.

End SessionFacts.
